(** * pymambo: the Mambo BLE protocol client (src/Mambo.py)

    A shallow embedding of the classes [MamboDelegate], [MamboSensors] and
    [Mambo].  Methods that mutate [self] become computations in a state
    monad over the record [Mambo]; a Python exception becomes the outcome
    [Raise], and -- as in Python -- the mutations made before the exception
    stay in the state.  The bluepy [Peripheral] held in [self.drone] is a
    scripted double: its answers are read from two scripts and what is
    written to it is logged. *)

From Stdlib Require Import ZArith String Ascii List Lia Bool.
From Stdlib.Strings Require Import Byte.
From stdpp Require Import base option list gmap strings.
Import ListNotations.

Local Open Scope Z_scope.

(** ** Python exceptions and the three ways a call can end *)

Inductive exn : Type :=
| BTLEException     (* bluepy: the link failed *)
| StructError       (* struct.error *)
| IndexError
| TypeError
| KeyError
| AttributeError.   (* untangle: the XML element has no such child *)

Inductive outcome (A : Type) : Type :=
| Ret (a : A)
| Raise (e : exn)
| OutOfFuel.        (* the call does not return: a loop is cut short *)
Arguments Ret {A} a.
Arguments Raise {A} e.
Arguments OutOfFuel {A}.

#[global] Instance exn_eq_dec : EqDecision exn.
Proof. solve_decision. Defined.

(** What a step without loops gives: a value or an exception. *)
Inductive result (A : Type) : Type :=
| Ok (a : A)
| Err (e : exn).
Arguments Ok {A} a.
Arguments Err {A} e.

Definition result_bind {A B} (r : result A) (f : A -> result B) : result B :=
  match r with
  | Ok a => f a
  | Err e => Err e
  end.

Definition result_map {A B} (f : A -> B) (r : result A) : result B :=
  result_bind r (fun a => Ok (f a)).

(** ** Bytes and the [struct] module *)

#[global] Instance byte_eq_dec : EqDecision byte := Byte.byte_eq_dec.

Definition Z_of_byte (b : byte) : Z := Z.of_N (Byte.to_N b).

(** The byte with value [z mod 256]. *)
Definition byte_of_Z (z : Z) : byte :=
  match Byte.of_N (Z.to_N (z mod 256)) with
  | Some b => b
  | None => Byte.x00
  end.

(** Little-endian: [width] bytes of [v], lowest first. *)
Fixpoint le_encode (width : nat) (v : Z) : list byte :=
  match width with
  | O => []
  | S w => byte_of_Z v :: le_encode w (v / 256)
  end.

Fixpoint le_decode (bs : list byte) : Z :=
  match bs with
  | [] => 0
  | b :: rest => Z_of_byte b + 256 * le_decode rest
  end.

(** The integer format characters of [struct] used by the source. *)
Inductive int_format : Type :=
| fmt_B | fmt_b | fmt_H | fmt_h | fmt_I | fmt_i | fmt_Q | fmt_q.

Definition fmt_width (f : int_format) : nat :=
  match f with
  | fmt_B | fmt_b => 1
  | fmt_H | fmt_h => 2
  | fmt_I | fmt_i => 4
  | fmt_Q | fmt_q => 8
  end%nat.

Definition fmt_signed (f : int_format) : bool :=
  match f with
  | fmt_b | fmt_h | fmt_i | fmt_q => true
  | _ => false
  end.

Definition fmt_min (f : int_format) : Z :=
  if fmt_signed f then - 2 ^ (8 * Z.of_nat (fmt_width f) - 1) else 0.

Definition fmt_max (f : int_format) : Z :=
  if fmt_signed f then 2 ^ (8 * Z.of_nat (fmt_width f) - 1) - 1
  else 2 ^ (8 * Z.of_nat (fmt_width f)) - 1.

(** [struct.pack] of one integer: [struct.error] when the value does not fit. *)
Definition pack_int (f : int_format) (v : Z) : result (list byte) :=
  if (fmt_min f <=? v) && (v <=? fmt_max f)
  then Ok (le_encode (fmt_width f) v)
  else Err StructError.

(** [struct.pack("<...", v1, v2, ...)]: the fields one after the other. *)
Fixpoint struct_pack (fields : list (int_format * Z)) : result (list byte) :=
  match fields with
  | [] => Ok []
  | (f, v) :: rest =>
      result_bind (pack_int f v) (fun bs =>
      result_map (app bs) (struct_pack rest))
  end.

(** The [size] bytes of [data] from [offset] on; [struct.unpack_from] raises
    [struct.error] when fewer are left. *)
Definition bytes_at (data : list byte) (offset size : nat) : result (list byte) :=
  if (offset + size <=? length data)%nat
  then Ok (firstn size (skipn offset data))
  else Err StructError.

(** [struct.unpack_from("<" + f, data, offset)[0]] for an integer format. *)
Definition unpack_int (f : int_format) (data : list byte) (offset : nat) : result Z :=
  result_map
    (fun bs =>
       let u := le_decode bs in
       if fmt_signed f && (fmt_max f <? u) then u - 2 ^ (8 * Z.of_nat (fmt_width f)) else u)
    (bytes_at data offset (fmt_width f)).

(** ** Python values held by the sensors *)

(** A float is kept as the IEEE-754 bit pattern it was unpacked from. *)
Inductive pyfloat : Type :=
| Float32 (bits : Z)
| Float64 (bits : Z).

Inductive pyval : Type :=
| PyNone
| PyInt (z : Z)
| PyFloat (f : pyfloat)
| PyStr (s : string).

#[global] Instance pyfloat_eq_dec : EqDecision pyfloat.
Proof. solve_decision. Defined.
#[global] Instance pyval_eq_dec : EqDecision pyval.
Proof. solve_decision. Defined.

(** [x > n] for the float with the given bit pattern and an integer [n]
    (a NaN compares false, an infinity by its sign). *)
Definition ieee_gt_Z (mant_bits exp_bits bits n : Z) : bool :=
  let sign := Z.testbit bits (mant_bits + exp_bits) in
  let e := Z.land (Z.shiftr bits mant_bits) (2 ^ exp_bits - 1) in
  let m := Z.land bits (2 ^ mant_bits - 1) in
  let bias := 2 ^ (exp_bits - 1) - 1 in
  if e =? 2 ^ exp_bits - 1 then (m =? 0) && negb sign
  else
    let M := if e =? 0 then m else m + 2 ^ mant_bits in
    let E := (if e =? 0 then 1 else e) - bias - mant_bits in
    let sM := if sign then - M else M in
    if 0 <=? E then n <? sM * 2 ^ E else n * 2 ^ (- E) <? sM.

Definition pyfloat_gt_Z (f : pyfloat) (n : Z) : bool :=
  match f with
  | Float32 bits => ieee_gt_Z 23 8 bits n
  | Float64 bits => ieee_gt_Z 52 11 bits n
  end.

(** Python 2 [value > n] with [n] an int: [None] is below every number, a
    string above. *)
Definition py_gt_int (value : pyval) (n : Z) : bool :=
  match value with
  | PyNone => false
  | PyInt z => n <? z
  | PyFloat f => pyfloat_gt_Z f n
  | PyStr _ => true
  end.

(** [lst[value]]: a negative int counts from the end, an int outside the list
    raises [IndexError], anything that is not an int raises [TypeError]. *)
Definition py_list_index {A} (lst : list A) (value : pyval) : result A :=
  match value with
  | PyInt z =>
      let len := Z.of_nat (length lst) in
      let i := if z <? 0 then z + len else z in
      if (0 <=? i) && (i <? len)
      then match lst !! Z.to_nat i with Some a => Ok a | None => Err IndexError end
      else Err IndexError
  | _ => Err TypeError
  end.

(** ** The command dictionary (common.xml and minidrone.xml)

    The two XML files are data of the repository that the source reads
    through [untangle]; here they are parsed trees.  [x['id']] is the
    integer [int(x['id'])] yields.  A list of children stands for the
    child elements of that tag; [untangle] raises when an element has no
    child of the tag asked for, see [children]. *)

Record XmlArg : Type := {
  arg_name : string;
  arg_type : string;
  arg_enum : list string      (* the name of each <enum> child, in order *)
}.

Record XmlCmd : Type := {
  cmd_name : string;
  cmd_id : Z;
  cmd_arg : list XmlArg
}.

Record XmlClass : Type := {
  class_name : string;
  class_id : Z;
  class_cmd : list XmlCmd
}.

Record XmlProject : Type := {
  project_id : Z;
  project_myclass : list XmlClass
}.

(** ** Channels *)

(** The keys of [characteristic_send_counter]; [command_received] and
    [send_characteristics] use a subset of them. *)
Inductive Channel : Type :=
| SEND_NO_ACK
| SEND_WITH_ACK
| SEND_HIGH_PRIORITY
| ACK_COMMAND
| RECEIVE_WITH_ACK.

#[global] Instance Channel_eq_dec : EqDecision Channel.
Proof. solve_decision. Defined.

(** [d[key] = v] on a dict whose keys are channels. *)
Definition dict_set {V} (d : Channel -> V) (key : Channel) (v : V) : Channel -> V :=
  fun k => if decide (k = key) then v else d k.

(** [self.data_types] *)
Inductive data_type : Type := ACK | DATA_NO_ACK | LOW_LATENCY_DATA | DATA_WITH_ACK.

Definition data_types (t : data_type) : Z :=
  match t with
  | ACK => 1
  | DATA_NO_ACK => 2
  | LOW_LATENCY_DATA => 3
  | DATA_WITH_ACK => 4
  end.

(** [self.characteristic_receive_uuids] *)
Definition characteristic_receive_uuids (hex : string) : option string :=
  if String.eqb hex "0e" then Some "ACK_DRONE_DATA"%string
  else if String.eqb hex "0f" then Some "NO_ACK_DRONE_DATA"%string
  else if String.eqb hex "1b" then Some "ACK_COMMAND_SENT"%string
  else if String.eqb hex "1c" then Some "ACK_HIGH_PRIORITY"%string
  else None.

(** ** MamboSensors *)

(** The attributes of a [MamboSensors] object other than [unknown_sensors]. *)
Inductive sensor_attr : Type :=
| battery | flying_state
| gun_id | gun_state | claw_id | claw_state
| speed_x | speed_y | speed_z | speed_ts
| altitude | altitude_ts
| quaternion_w | quaternion_x | quaternion_y | quaternion_z | quaternion_ts.

#[global] Instance sensor_attr_eq_dec : EqDecision sensor_attr.
Proof. solve_decision. Defined.

Record MamboSensors : Type := {
  attr : sensor_attr -> pyval;
  unknown_sensors : gmap string pyval
}.

(** [MamboSensors.__init__] *)
Definition MamboSensors_init : MamboSensors := {|
  attr := fun a =>
    match a with
    | battery => PyInt 100
    | flying_state => PyStr "landed"
    | gun_state | claw_state => PyNone
    | _ => PyInt 0
    end;
  unknown_sensors := ∅
|}.

Definition set_attr (a : sensor_attr) (value : pyval) (s : MamboSensors) : MamboSensors :=
  {| attr := fun b => if decide (b = a) then value else attr s b;
     unknown_sensors := unknown_sensors s |}.

Definition set_unknown_sensor (name : string) (value : pyval) (s : MamboSensors) : MamboSensors :=
  {| attr := attr s; unknown_sensors := <[name := value]> (unknown_sensors s) |}.

(** The [if]/[elif] chain of [MamboSensors.update]: the attribute a sensor
    name is stored in, [None] for the final [else]. *)
Definition attr_of_name (name : string) : option sensor_attr :=
  if String.eqb name "BatteryStateChanged_battery_percent" then Some battery
  else if String.eqb name "FlyingStateChanged_state" then Some flying_state
  else if String.eqb name "ClawState_id" then Some claw_id
  else if String.eqb name "ClawState_state" then Some claw_state
  else if String.eqb name "GunState_id" then Some gun_id
  else if String.eqb name "GunState_state" then Some gun_state
  else if String.eqb name "DroneSpeed_speed_x" then Some speed_x
  else if String.eqb name "DroneSpeed_speed_y" then Some speed_y
  else if String.eqb name "DroneSpeed_speed_z" then Some speed_z
  else if String.eqb name "DroneSpeed_ts" then Some speed_ts
  else if String.eqb name "DroneAltitude_altitude" then Some altitude
  else if String.eqb name "DroneAltitude_altitude_ts" then Some altitude_ts
  else if String.eqb name "DroneQuaternion_q_w" then Some quaternion_w
  else if String.eqb name "DroneQuaternion_q_x" then Some quaternion_x
  else if String.eqb name "DroneQuaternion_q_y" then Some quaternion_y
  else if String.eqb name "DroneQuaternion_q_z" then Some quaternion_z
  else if String.eqb name "DroneQuaternion_tz" then Some quaternion_ts
  else None.

(** The [if]/[elif] chain at the end of [update]: [value] is filed under the
    attribute of [name], or else in [unknown_sensors]. *)
Definition store (name : string) (value : pyval) (s : MamboSensors) : MamboSensors :=
  match attr_of_name name with
  | Some a => set_attr a value s
  | None => set_unknown_sensor name value s
  end.

(** The first part of [update]: when [(name, "enum")] is in [sensor_enum]
    the value is replaced by the member name at that index. *)
Definition translate_enum (name : string) (value : pyval)
    (sensor_enum : gmap string (list string)) : result pyval :=
  match sensor_enum !! name with
  | Some enum_names =>
      if py_gt_int value (Z.of_nat (length enum_names))
      then Ok (PyStr "UNKNOWN_ENUM_VALUE")
      else result_map PyStr (py_list_index enum_names value)
  | None => Ok value
  end.

(** [MamboSensors.update(name, value, sensor_enum)].  [sensor_enum] is the
    part of [sensor_tuple_cache] keyed by [(name, "enum")]. *)
Definition update (name : string) (value : pyval) (sensor_enum : gmap string (list string))
    (s : MamboSensors) : result MamboSensors :=
  result_bind (translate_enum name value sensor_enum)
               (fun value => Ok (store name value s)).

(** What is stored for a sensor name: the attribute the name is filed
    under, or else its entry in [unknown_sensors]. *)
Definition sensor_value (s : MamboSensors) (name : string) : option pyval :=
  match attr_of_name name with
  | Some a => Some (attr s a)
  | None => unknown_sensors s !! name
  end.

(** ** The BLE peripheral double *)

(** What the link does in one round of a loop that runs against the clock
    ([while time.time() - start_time < ...]) and waits for notifications. *)
Inductive Poll : Type :=
| Deadline                                   (* the time is up: the loop ends *)
| Silence                                    (* the wait times out *)
| Incoming (cHandle : Z) (data : list byte)  (* a notification is delivered *)
| Dropped.                                   (* the wait raises BTLEException *)

(** What reached the drone. *)
Inductive Written : Type :=
| ToCharacteristic (channel : Channel) (packet : list byte)  (* characteristic.write *)
| ToHandle (handle : Z) (value : list byte).                 (* drone.writeCharacteristic *)

#[global] Instance Written_eq_dec : EqDecision Written.
Proof. solve_decision. Defined.

(** The result of the service discovery of [_connect] when one scan finds
    every characteristic the tables of [Mambo.__init__] name. *)
Record Discovered : Type := {
  handshake_handles : list Z;        (* the handle of each of the 10 handshake characteristics *)
  handle_map : gmap Z string         (* handle of a receive characteristic -> its id byte *)
}.

Record Peripheral : Type := {
  (* one answer per call of connect / write / writeCharacteristic, [true]
     for a BTLEException; once the script is used up the calls succeed *)
  link_script : list bool;
  (* one entry per round of a timed loop; once used up the time is up *)
  poll_script : list Poll;
  (* newest first *)
  written : list Written;
  (* the handle_map of the MamboDelegate, once setDelegate was called *)
  delegate : option (gmap Z string);
  (* what a scan of the GATT services yields, see [_connect] *)
  services : option Discovered
}.

(** ** The Mambo object *)

Record Mambo : Type := {
  drone : Peripheral;
  characteristic_send_counter : Channel -> Z;
  send_characteristics : Channel -> bool;      (* is the key in the dict *)
  handshake_characteristics : list Z;          (* the handle of each value *)
  minidrone_commands : XmlProject;
  common_commands : XmlProject;
  command_received : Channel -> bool;
  sensors : MamboSensors;
  (* command_tuple_cache: the keys (myclass, cmd) and (myclass, cmd, enum_name) *)
  command_tuple_cache : gmap (string * string) (Z * Z * Z);
  command_tuple_cache_enum : gmap (string * string * string) ((Z * Z * Z) * Z);
  (* sensor_tuple_cache: the keys (project, class, cmd, extra), where the
     value [None] is the pair (None, None), and the keys (name, "enum") *)
  sensor_tuple_cache : gmap (Z * Z * Z * Z) (option (list string * list (option string)));
  sensor_tuple_cache_enum : gmap string (list string);
  max_packet_retries : Z;
  (* bookkeeping, not in the source: how often the XML trees were read *)
  xml_reads : nat
}.

Definition set_drone (d : Peripheral) (m : Mambo) : Mambo :=
  {| drone := d;
     characteristic_send_counter := characteristic_send_counter m;
     send_characteristics := send_characteristics m;
     handshake_characteristics := handshake_characteristics m;
     minidrone_commands := minidrone_commands m;
     common_commands := common_commands m;
     command_received := command_received m;
     sensors := sensors m;
     command_tuple_cache := command_tuple_cache m;
     command_tuple_cache_enum := command_tuple_cache_enum m;
     sensor_tuple_cache := sensor_tuple_cache m;
     sensor_tuple_cache_enum := sensor_tuple_cache_enum m;
     max_packet_retries := max_packet_retries m;
     xml_reads := xml_reads m |}.

Definition set_characteristic_send_counter (c : Channel -> Z) (m : Mambo) : Mambo :=
  {| drone := drone m;
     characteristic_send_counter := c;
     send_characteristics := send_characteristics m;
     handshake_characteristics := handshake_characteristics m;
     minidrone_commands := minidrone_commands m;
     common_commands := common_commands m;
     command_received := command_received m;
     sensors := sensors m;
     command_tuple_cache := command_tuple_cache m;
     command_tuple_cache_enum := command_tuple_cache_enum m;
     sensor_tuple_cache := sensor_tuple_cache m;
     sensor_tuple_cache_enum := sensor_tuple_cache_enum m;
     max_packet_retries := max_packet_retries m;
     xml_reads := xml_reads m |}.

Definition set_characteristics (send : Channel -> bool) (handshake : list Z) (m : Mambo) : Mambo :=
  {| drone := drone m;
     characteristic_send_counter := characteristic_send_counter m;
     send_characteristics := send;
     handshake_characteristics := handshake;
     minidrone_commands := minidrone_commands m;
     common_commands := common_commands m;
     command_received := command_received m;
     sensors := sensors m;
     command_tuple_cache := command_tuple_cache m;
     command_tuple_cache_enum := command_tuple_cache_enum m;
     sensor_tuple_cache := sensor_tuple_cache m;
     sensor_tuple_cache_enum := sensor_tuple_cache_enum m;
     max_packet_retries := max_packet_retries m;
     xml_reads := xml_reads m |}.

Definition set_command_received (c : Channel -> bool) (m : Mambo) : Mambo :=
  {| drone := drone m;
     characteristic_send_counter := characteristic_send_counter m;
     send_characteristics := send_characteristics m;
     handshake_characteristics := handshake_characteristics m;
     minidrone_commands := minidrone_commands m;
     common_commands := common_commands m;
     command_received := c;
     sensors := sensors m;
     command_tuple_cache := command_tuple_cache m;
     command_tuple_cache_enum := command_tuple_cache_enum m;
     sensor_tuple_cache := sensor_tuple_cache m;
     sensor_tuple_cache_enum := sensor_tuple_cache_enum m;
     max_packet_retries := max_packet_retries m;
     xml_reads := xml_reads m |}.

Definition set_sensors (s : MamboSensors) (m : Mambo) : Mambo :=
  {| drone := drone m;
     characteristic_send_counter := characteristic_send_counter m;
     send_characteristics := send_characteristics m;
     handshake_characteristics := handshake_characteristics m;
     minidrone_commands := minidrone_commands m;
     common_commands := common_commands m;
     command_received := command_received m;
     sensors := s;
     command_tuple_cache := command_tuple_cache m;
     command_tuple_cache_enum := command_tuple_cache_enum m;
     sensor_tuple_cache := sensor_tuple_cache m;
     sensor_tuple_cache_enum := sensor_tuple_cache_enum m;
     max_packet_retries := max_packet_retries m;
     xml_reads := xml_reads m |}.

Definition set_command_tuple_cache (c : gmap (string * string) (Z * Z * Z)) (m : Mambo) : Mambo :=
  {| drone := drone m;
     characteristic_send_counter := characteristic_send_counter m;
     send_characteristics := send_characteristics m;
     handshake_characteristics := handshake_characteristics m;
     minidrone_commands := minidrone_commands m;
     common_commands := common_commands m;
     command_received := command_received m;
     sensors := sensors m;
     command_tuple_cache := c;
     command_tuple_cache_enum := command_tuple_cache_enum m;
     sensor_tuple_cache := sensor_tuple_cache m;
     sensor_tuple_cache_enum := sensor_tuple_cache_enum m;
     max_packet_retries := max_packet_retries m;
     xml_reads := xml_reads m |}.

Definition set_command_tuple_cache_enum
    (c : gmap (string * string * string) ((Z * Z * Z) * Z)) (m : Mambo) : Mambo :=
  {| drone := drone m;
     characteristic_send_counter := characteristic_send_counter m;
     send_characteristics := send_characteristics m;
     handshake_characteristics := handshake_characteristics m;
     minidrone_commands := minidrone_commands m;
     common_commands := common_commands m;
     command_received := command_received m;
     sensors := sensors m;
     command_tuple_cache := command_tuple_cache m;
     command_tuple_cache_enum := c;
     sensor_tuple_cache := sensor_tuple_cache m;
     sensor_tuple_cache_enum := sensor_tuple_cache_enum m;
     max_packet_retries := max_packet_retries m;
     xml_reads := xml_reads m |}.

Definition set_sensor_tuple_cache
    (c : gmap (Z * Z * Z * Z) (option (list string * list (option string)))) (m : Mambo) : Mambo :=
  {| drone := drone m;
     characteristic_send_counter := characteristic_send_counter m;
     send_characteristics := send_characteristics m;
     handshake_characteristics := handshake_characteristics m;
     minidrone_commands := minidrone_commands m;
     common_commands := common_commands m;
     command_received := command_received m;
     sensors := sensors m;
     command_tuple_cache := command_tuple_cache m;
     command_tuple_cache_enum := command_tuple_cache_enum m;
     sensor_tuple_cache := c;
     sensor_tuple_cache_enum := sensor_tuple_cache_enum m;
     max_packet_retries := max_packet_retries m;
     xml_reads := xml_reads m |}.

Definition set_sensor_tuple_cache_enum (c : gmap string (list string)) (m : Mambo) : Mambo :=
  {| drone := drone m;
     characteristic_send_counter := characteristic_send_counter m;
     send_characteristics := send_characteristics m;
     handshake_characteristics := handshake_characteristics m;
     minidrone_commands := minidrone_commands m;
     common_commands := common_commands m;
     command_received := command_received m;
     sensors := sensors m;
     command_tuple_cache := command_tuple_cache m;
     command_tuple_cache_enum := command_tuple_cache_enum m;
     sensor_tuple_cache := sensor_tuple_cache m;
     sensor_tuple_cache_enum := c;
     max_packet_retries := max_packet_retries m;
     xml_reads := xml_reads m |}.

Definition set_xml_reads (n : nat) (m : Mambo) : Mambo :=
  {| drone := drone m;
     characteristic_send_counter := characteristic_send_counter m;
     send_characteristics := send_characteristics m;
     handshake_characteristics := handshake_characteristics m;
     minidrone_commands := minidrone_commands m;
     common_commands := common_commands m;
     command_received := command_received m;
     sensors := sensors m;
     command_tuple_cache := command_tuple_cache m;
     command_tuple_cache_enum := command_tuple_cache_enum m;
     sensor_tuple_cache := sensor_tuple_cache m;
     sensor_tuple_cache_enum := sensor_tuple_cache_enum m;
     max_packet_retries := max_packet_retries m;
     xml_reads := n |}.

(** [Mambo.__init__], given the two parsed XML files and the double that
    stands for [Peripheral()]. *)
Definition Mambo_init (minidrone common : XmlProject) (d : Peripheral) : Mambo := {|
  drone := d;
  characteristic_send_counter := fun _ => 0;
  send_characteristics := fun _ => false;
  handshake_characteristics := [];
  minidrone_commands := minidrone;
  common_commands := common;
  command_received := fun _ => false;
  sensors := MamboSensors_init;
  command_tuple_cache := ∅;
  command_tuple_cache_enum := ∅;
  sensor_tuple_cache := ∅;
  sensor_tuple_cache_enum := ∅;
  max_packet_retries := 3;
  xml_reads := 0
|}.

(** ** The monad of methods *)

Definition M (A : Type) : Type := Mambo -> outcome A * Mambo.

#[global] Instance M_ret : MRet M := fun A a st => (Ret a, st).

#[global] Instance M_bind : MBind M := fun A B f m st =>
  match m st with
  | (Ret a, st') => f a st'
  | (Raise e, st') => (Raise e, st')
  | (OutOfFuel, st') => (OutOfFuel, st')
  end.

Definition get_self : M Mambo := fun st => (Ret st, st).
Definition modify (f : Mambo -> Mambo) : M unit := fun st => (Ret tt, f st).
Definition raise {A} (e : exn) : M A := fun st => (Raise e, st).
Definition out_of_fuel {A} : M A := fun st => (OutOfFuel, st).
Definition lift {A} (r : result A) : M A := fun st =>
  match r with
  | Ok a => (Ret a, st)
  | Err e => (Raise e, st)
  end.

(** [try: body except BTLEException: handler] *)
Definition try_except_BTLE {A} (body handler : M A) : M A := fun st =>
  match body st with
  | (Raise BTLEException, st') => handler st'
  | r => r
  end.

(** [try: body except: handler] *)
Definition try_except {A} (body handler : M A) : M A := fun st =>
  match body st with
  | (Raise _, st') => handler st'
  | r => r
  end.

Definition set_link_script (l : list bool) (d : Peripheral) : Peripheral :=
  {| link_script := l; poll_script := poll_script d; written := written d;
     delegate := delegate d; services := services d |}.

Definition set_poll_script (l : list Poll) (d : Peripheral) : Peripheral :=
  {| link_script := link_script d; poll_script := l; written := written d;
     delegate := delegate d; services := services d |}.

Definition set_written (l : list Written) (d : Peripheral) : Peripheral :=
  {| link_script := link_script d; poll_script := poll_script d; written := l;
     delegate := delegate d; services := services d |}.

Definition set_delegate (h : option (gmap Z string)) (d : Peripheral) : Peripheral :=
  {| link_script := link_script d; poll_script := poll_script d; written := written d;
     delegate := h; services := services d |}.

(** ** Resolving names and headers in the dictionary *)

(** Iterating over [x.tag]: [untangle] raises when [x] has no child [tag]. *)
Definition children {A} (l : list A) : result (list A) :=
  match l with
  | [] => Err AttributeError
  | _ => Ok l
  end.

(** Reading [self.minidrone_commands.project] or [self.common_commands.project]. *)
Definition read_xml (which : Mambo -> XmlProject) : M XmlProject :=
  modify (fun st => set_xml_reads (S (xml_reads st)) st);;
  st ← get_self;
  mret (which st).

(** [for subchild in child.cmd: if subchild['name'] == cmd: ...] *)
Fixpoint find_cmd (cmd : string) (subchildren : list XmlCmd) : option Z :=
  match subchildren with
  | [] => None
  | subchild :: rest =>
      if String.eqb (cmd_name subchild) cmd then Some (cmd_id subchild)
      else find_cmd cmd rest
  end.

(** [for child in project.myclass: if child['name'] == myclass: ...]: the
    (class_id, cmd_id) of the first command that matches. *)
Fixpoint find_class_cmd (myclass cmd : string) (classes : list XmlClass)
    : result (option (Z * Z)) :=
  match classes with
  | [] => Ok None
  | child :: rest =>
      if String.eqb (class_name child) myclass then
        result_bind (children (class_cmd child)) (fun subchildren =>
        match find_cmd cmd subchildren with
        | Some cmd_id => Ok (Some (class_id child, cmd_id))
        | None => find_class_cmd myclass cmd rest
        end)
      else find_class_cmd myclass cmd rest
  end.

(** One of the two searches of [_get_command_tuple], in one XML file. *)
Definition search_command_tuple (project : XmlProject) (myclass cmd : string)
    : M (option (Z * Z * Z)) :=
  classes ← lift (children (project_myclass project));
  r ← lift (find_class_cmd myclass cmd classes);
  match r with
  | Some (class_id, cmd_id) =>
      let t := (project_id project, class_id, cmd_id) in
      modify (fun st => set_command_tuple_cache (<[(myclass, cmd) := t]> (command_tuple_cache st)) st);;
      mret (Some t)
  | None => mret None
  end.

(** [Mambo._get_command_tuple]; the result [None] is Python's [None], which
    the method returns by reaching its end. *)
Definition _get_command_tuple (myclass cmd : string) : M (option (Z * Z * Z)) :=
  st ← get_self;
  match command_tuple_cache st !! (myclass, cmd) with
  | Some t => mret (Some t)
  | None =>
      minidrone ← read_xml minidrone_commands;
      r ← search_command_tuple minidrone myclass cmd;
      match r with
      | Some t => mret (Some t)
      | None =>
          common ← read_xml common_commands;
          search_command_tuple common myclass cmd
      end
  end.

(** [for e_idx, echild in enumerate(arg_child.enum): if echild['name'] == enum_name] *)
Fixpoint find_enum (enum_name : string) (e_idx : Z) (enums : list string) : option Z :=
  match enums with
  | [] => None
  | echild :: rest =>
      if String.eqb echild enum_name then Some e_idx
      else find_enum enum_name (e_idx + 1) rest
  end.

Fixpoint find_arg_enum (enum_name : string) (args : list XmlArg) : result (option Z) :=
  match args with
  | [] => Ok None
  | arg_child :: rest =>
      if String.eqb (arg_type arg_child) "enum" then
        result_bind (children (arg_enum arg_child)) (fun enums =>
        match find_enum enum_name 0 enums with
        | Some enum_id => Ok (Some enum_id)
        | None => find_arg_enum enum_name rest
        end)
      else find_arg_enum enum_name rest
  end.

Fixpoint find_cmd_enum (cmd enum_name : string) (subchildren : list XmlCmd)
    : result (option (Z * Z)) :=
  match subchildren with
  | [] => Ok None
  | subchild :: rest =>
      if String.eqb (cmd_name subchild) cmd then
        result_bind (children (cmd_arg subchild)) (fun args =>
        result_bind (find_arg_enum enum_name args) (fun r =>
        match r with
        | Some enum_id => Ok (Some (cmd_id subchild, enum_id))
        | None => find_cmd_enum cmd enum_name rest
        end))
      else find_cmd_enum cmd enum_name rest
  end.

Fixpoint find_class_cmd_enum (myclass cmd enum_name : string) (classes : list XmlClass)
    : result (option (Z * Z * Z)) :=
  match classes with
  | [] => Ok None
  | child :: rest =>
      if String.eqb (class_name child) myclass then
        result_bind (children (class_cmd child)) (fun subchildren =>
        result_bind (find_cmd_enum cmd enum_name subchildren) (fun r =>
        match r with
        | Some (cmd_id, enum_id) => Ok (Some (class_id child, cmd_id, enum_id))
        | None => find_class_cmd_enum myclass cmd enum_name rest
        end))
      else find_class_cmd_enum myclass cmd enum_name rest
  end.

Definition search_command_tuple_with_enum (project : XmlProject)
    (myclass cmd enum_name : string) : M (option ((Z * Z * Z) * Z)) :=
  classes ← lift (children (project_myclass project));
  r ← lift (find_class_cmd_enum myclass cmd enum_name classes);
  match r with
  | Some (class_id, cmd_id, enum_id) =>
      let t := ((project_id project, class_id, cmd_id), enum_id) in
      modify (fun st => set_command_tuple_cache_enum
                          (<[(myclass, cmd, enum_name) := t]> (command_tuple_cache_enum st)) st);;
      mret (Some t)
  | None => mret None
  end.

(** [Mambo._get_command_tuple_with_enum] *)
Definition _get_command_tuple_with_enum (myclass cmd enum_name : string)
    : M (option ((Z * Z * Z) * Z)) :=
  st ← get_self;
  match command_tuple_cache_enum st !! (myclass, cmd, enum_name) with
  | Some t => mret (Some t)
  | None =>
      minidrone ← read_xml minidrone_commands;
      r ← search_command_tuple_with_enum minidrone myclass cmd enum_name;
      match r with
      | Some t => mret (Some t)
      | None =>
          common ← read_xml common_commands;
          search_command_tuple_with_enum common myclass cmd enum_name
      end
  end.

(** [for arg_child in cmd_child.arg]: the sensor names and data sizes of a
    command, filing the member names of each enum argument in the cache. *)
Fixpoint scan_args (cmd_name : string) (args : list XmlArg)
    : M (list string * list (option string)) :=
  match args with
  | [] => mret ([], [])
  | arg_child :: rest =>
      let sensor_name := (cmd_name ++ "_" ++ arg_name arg_child)%string in
      let data_size := arg_type arg_child in
      (if String.eqb data_size "enum" then
         enum_names ← lift (children (arg_enum arg_child));
         modify (fun st => set_sensor_tuple_cache_enum
                             (<[sensor_name := enum_names]> (sensor_tuple_cache_enum st)) st)
       else mret tt);;
      r ← scan_args cmd_name rest;
      mret (sensor_name :: r.1, Some data_size :: r.2)
  end.

(** [if hasattr(cmd_child, 'arg'): ... else: ...] *)
Definition describe_cmd (cmd_child : XmlCmd) : M (list string * list (option string)) :=
  match cmd_arg cmd_child with
  | [] => mret ([cmd_name cmd_child], [None])
  | args => scan_args (cmd_name cmd_child) args
  end.

Fixpoint find_cmd_by_id (cmd_id' : Z) (cmds : list XmlCmd) : option XmlCmd :=
  match cmds with
  | [] => None
  | cmd_child :: rest =>
      if cmd_id cmd_child =? cmd_id' then Some cmd_child
      else find_cmd_by_id cmd_id' rest
  end.

Fixpoint find_class_cmd_by_id (myclass_id cmd_id' : Z) (classes : list XmlClass)
    : result (option XmlCmd) :=
  match classes with
  | [] => Ok None
  | c :: rest =>
      if class_id c =? myclass_id then
        result_bind (children (class_cmd c)) (fun cmds =>
        match find_cmd_by_id cmd_id' cmds with
        | Some cmd_child => Ok (Some cmd_child)
        | None => find_class_cmd_by_id myclass_id cmd_id' rest
        end)
      else find_class_cmd_by_id myclass_id cmd_id' rest
  end.

(** One of the two searches of [_parse_sensor_tuple], in one XML file. *)
Definition search_sensor_tuple (project : XmlProject) (key : Z * Z * Z * Z)
    : M (option (list string * list (option string))) :=
  let '(project_id', myclass_id, cmd_id', extra_id) := key in
  if project_id' =? project_id project then
    classes ← lift (children (project_myclass project));
    c ← lift (find_class_cmd_by_id myclass_id cmd_id' classes);
    match c with
    | Some cmd_child =>
        r ← describe_cmd cmd_child;
        modify (fun st => set_sensor_tuple_cache (<[key := Some r]> (sensor_tuple_cache st)) st);;
        mret (Some r)
    | None => mret None
    end
  else mret None.

(** [Mambo._parse_sensor_tuple]; the result [None] is the pair [(None, None)]. *)
Definition _parse_sensor_tuple (sensor_tuple : Z * Z * Z * Z * Z * Z)
    : M (option (list string * list (option string))) :=
  let '(ack_id, packet_id, project_id', myclass_id, cmd_id', extra_id) := sensor_tuple in
  let key := (project_id', myclass_id, cmd_id', extra_id) in
  st ← get_self;
  match sensor_tuple_cache st !! key with
  | Some r => mret r
  | None =>
      minidrone ← read_xml minidrone_commands;
      r ← search_sensor_tuple minidrone key;
      match r with
      | Some found => mret (Some found)
      | None =>
          common ← read_xml common_commands;
          r ← search_sensor_tuple common key;
          match r with
          | Some found => mret (Some found)
          | None =>
              modify (fun st => set_sensor_tuple_cache (<[key := None]> (sensor_tuple_cache st)) st);;
              mret None
          end
      end
  end.

(** ** Calls into the peripheral *)

(** One call that the link can fail: it uses up one answer of [link_script]. *)
Definition link_call : M unit :=
  st ← get_self;
  match link_script (drone st) with
  | [] => mret tt
  | failed :: rest =>
      modify (fun st => set_drone (set_link_script rest (drone st)) st);;
      if failed : bool then raise BTLEException else mret tt
  end.

Definition log_written (w : Written) : M unit :=
  modify (fun st => set_drone (set_written (w :: written (drone st)) (drone st)) st).

(** [self.drone.connect(self.address, "random")] *)
Definition drone_connect : M unit := link_call.

(** [characteristic.write(packet)] on the characteristic of a send channel *)
Definition characteristic_write (characteristic : Channel) (packet : list byte) : M unit :=
  link_call;;
  log_written (ToCharacteristic characteristic packet).

(** [self.drone.writeCharacteristic(handle, value)] *)
Definition drone_writeCharacteristic (handle : Z) (value : list byte) : M unit :=
  link_call;;
  log_written (ToHandle handle value).

(** The next round of a timed loop, [None] once the script is used up. *)
Definition next_poll : M (option Poll) :=
  st ← get_self;
  match poll_script (drone st) with
  | [] => mret None
  | p :: rest =>
      modify (fun st => set_drone (set_poll_script rest (drone st)) st);;
      mret (Some p)
  end.

(** [self.send_characteristics[channel]]: [KeyError] before discovery. *)
Definition send_characteristic (channel : Channel) : M Channel :=
  st ← get_self;
  if send_characteristics st channel then mret channel else raise KeyError.

(** ** Handshake, reconnection and the safe write *)

Fixpoint perform_handshake_loop (handles : list Z) : M unit :=
  match handles with
  | [] => mret tt
  | handle :: rest =>
      value ← lift (struct_pack [(fmt_B, 1); (fmt_B, 0)]);
      drone_writeCharacteristic (handle + 2) value;;
      perform_handshake_loop rest
  end.

(** [Mambo._perform_handshake] *)
Definition _perform_handshake : M unit :=
  st ← get_self;
  perform_handshake_loop (handshake_characteristics st).

(** [while (try_num < num_retries and not success)] of [_reconnect]; the
    result is [success]. *)
Fixpoint reconnect_loop (fuel : nat) (try_num num_retries : Z) : M bool :=
  if try_num <? num_retries then
    match fuel with
    | O => out_of_fuel
    | S fuel' =>
        success ← try_except_BTLE (drone_connect;; mret true) (mret false);
        if success : bool then mret true
        else reconnect_loop fuel' (try_num + 1) num_retries
    end
  else mret false.

(** [Mambo._reconnect] *)
Definition _reconnect (num_retries : Z) : M bool :=
  success ← reconnect_loop (Z.to_nat (num_retries - 1)) 1 num_retries;
  (if success : bool then _perform_handshake else mret tt);;
  mret success.

(** [while (not success)] of [_safe_ble_write].  Another round is run only
    after a write that failed, which uses up an answer of [link_script]. *)
Fixpoint safe_ble_write_loop (fuel : nat) (characteristic : Channel) (packet : list byte)
    : M unit :=
  match fuel with
  | O => out_of_fuel
  | S fuel' =>
      success ← try_except_BTLE (characteristic_write characteristic packet;; mret true)
                                (_reconnect 3;; mret false);
      if success : bool then mret tt
      else safe_ble_write_loop fuel' characteristic packet
  end.

(** [Mambo._safe_ble_write] *)
Definition _safe_ble_write (characteristic : Channel) (packet : list byte) : M unit :=
  st ← get_self;
  safe_ble_write_loop (S (length (link_script (drone st)))) characteristic packet.

(** ** Inbound frames *)

(** [(counter + 1) % 256] *)
Definition incremented (counter : Z) : Z := (counter + 1) mod 256.

(** [self.characteristic_send_counter[channel] =
     (self.characteristic_send_counter[channel] + 1) % 256] *)
Definition increment_send_counter (channel : Channel) : M unit :=
  modify (fun st =>
    set_characteristic_send_counter
      (dict_set (characteristic_send_counter st) channel
                (incremented (characteristic_send_counter st channel))) st).

(** [Mambo._ack_packet] *)
Definition _ack_packet (packet_id : Z) : M unit :=
  increment_send_counter ACK_COMMAND;;
  st ← get_self;
  packet ← lift (struct_pack [(fmt_B, data_types ACK);
                              (fmt_B, characteristic_send_counter st ACK_COMMAND);
                              (fmt_B, packet_id)]);
  characteristic ← send_characteristic ACK_COMMAND;
  _safe_ble_write characteristic packet.

(** [struct.unpack_from("<BBBBBB", data)] *)
Definition unpack_header (data : list byte) : result (Z * Z * Z * Z * Z * Z) :=
  match data with
  | b0 :: b1 :: b2 :: b3 :: b4 :: b5 :: _ =>
      Ok (Z_of_byte b0, Z_of_byte b1, Z_of_byte b2, Z_of_byte b3, Z_of_byte b4, Z_of_byte b5)
  | _ => Err StructError
  end.

(** The [if]/[elif] chain of [_update_sensors] that unpacks one value at
    offset 6 according to [data_size]. *)
Definition unpack_sensor_data (data_size : option string) (data : list byte) : result pyval :=
  match data_size with
  | None => Ok PyNone
  | Some t =>
      if String.eqb t "u8" || String.eqb t "enum" then result_map PyInt (unpack_int fmt_B data 6)
      else if String.eqb t "i8" then result_map PyInt (unpack_int fmt_b data 6)
      else if String.eqb t "u16" then result_map PyInt (unpack_int fmt_H data 6)
      else if String.eqb t "i16" then result_map PyInt (unpack_int fmt_h data 6)
      else if String.eqb t "u32" then result_map PyInt (unpack_int fmt_I data 6)
      else if String.eqb t "i32" then result_map PyInt (unpack_int fmt_i data 6)
      else if String.eqb t "u64" then result_map PyInt (unpack_int fmt_Q data 6)
      else if String.eqb t "i64" then result_map PyInt (unpack_int fmt_q data 6)
      else if String.eqb t "float" then
        result_map (fun bs => PyFloat (Float32 (le_decode bs))) (bytes_at data 6 4)
      else if String.eqb t "double" then
        result_map (fun bs => PyFloat (Float64 (le_decode bs))) (bytes_at data 6 8)
      else if String.eqb t "string" then
        result_map (fun bs => PyStr (string_of_list_byte bs)) (bytes_at data 6 1)
      else Ok PyNone
  end.

(** [for idx, name in enumerate(names)] of [_update_sensors] *)
Fixpoint update_each (names : list string) (idx : nat) (data_sizes : list (option string))
    (data : list byte) : M unit :=
  match names with
  | [] => mret tt
  | name :: rest =>
      data_size ← lift (match data_sizes !! idx with
                        | Some s => Ok s
                        | None => Err IndexError
                        end);
      sensor_data ← lift (unpack_sensor_data data_size data);
      st ← get_self;
      s ← lift (update name sensor_data (sensor_tuple_cache_enum st) (sensors st));
      modify (set_sensors s);;
      update_each rest (S idx) data_sizes data
  end.

(** [Mambo._update_sensors] *)
Definition _update_sensors (data : list byte) (ack : bool) : M unit :=
  header_tuple ← lift (unpack_header data);
  r ← _parse_sensor_tuple header_tuple;
  match r with
  | Some (names, data_sizes) => update_each names 0 data_sizes data
  | None => mret tt
  end;;
  let '(_, packet_id, _, _, _, _) := header_tuple in
  if ack then _ack_packet packet_id else mret tt.

(** [Mambo._set_command_received] *)
Definition _set_command_received (channel : Channel) (val : bool) : M unit :=
  modify (fun st => set_command_received (dict_set (command_received st) channel val) st).

(** [MamboDelegate.handleNotification] *)
Definition handleNotification (handle_map : gmap Z string) (cHandle : Z) (data : list byte)
    : M unit :=
  hex ← lift (match handle_map !! cHandle with Some h => Ok h | None => Err KeyError end);
  channel ← lift (match characteristic_receive_uuids hex with
                  | Some c => Ok c
                  | None => Err KeyError
                  end);
  if String.eqb channel "ACK_DRONE_DATA" then _update_sensors data true
  else if String.eqb channel "NO_ACK_DRONE_DATA" then _update_sensors data false
  else if String.eqb channel "ACK_COMMAND_SENT" then _set_command_received SEND_WITH_ACK true
  else if String.eqb channel "ACK_HIGH_PRIORITY" then _set_command_received SEND_HIGH_PRIORITY true
  else raise TypeError. (* self._debug_print(cHandle) lacks the argument [level] *)

(** [self.drone.waitForNotifications(0.1)] in a round where the link does
    [p]: bluepy hands a notification to the delegate from inside the call. *)
Definition waitForNotifications (p : Poll) : M bool :=
  match p with
  | Incoming cHandle data =>
      st ← get_self;
      match delegate (drone st) with
      | Some handle_map => handleNotification handle_map cHandle data
      | None => mret tt
      end;;
      mret true
  | Dropped => raise BTLEException
  | Silence | Deadline => mret false
  end.

(** [while (time.time() - start_time < timeout)] of [smart_sleep] *)
Fixpoint smart_sleep_loop (fuel : nat) : M unit :=
  p ← next_poll;
  match p with
  | None | Some Deadline => mret tt
  | Some p =>
      match fuel with
      | O => out_of_fuel
      | S fuel' =>
          try_except (waitForNotifications p;; mret tt) (_reconnect 3;; mret tt);;
          smart_sleep_loop fuel'
      end
  end.

(** [Mambo.smart_sleep]; [timeout] in milliseconds.  How many rounds fit
    before the time is up is told by the [Deadline] entries of the script. *)
Definition smart_sleep (timeout : Z) : M unit :=
  st ← get_self;
  smart_sleep_loop (length (poll_script (drone st))).

(** ** Sending commands *)

(** [while (try_num < self.max_packet_retries and
            not self.command_received['SEND_WITH_ACK'])] *)
Fixpoint send_command_packet_ack_loop (fuel : nat) (try_num : Z) (packet : list byte)
    : M unit :=
  st ← get_self;
  if (try_num <? max_packet_retries st) && negb (command_received st SEND_WITH_ACK) then
    match fuel with
    | O => out_of_fuel
    | S fuel' =>
        characteristic ← send_characteristic SEND_WITH_ACK;
        _safe_ble_write characteristic packet;;
        smart_sleep 500;;
        send_command_packet_ack_loop fuel' (try_num + 1) packet
    end
  else mret tt.

(** [Mambo._send_command_packet_ack] *)
Definition _send_command_packet_ack (packet : list byte) : M bool :=
  _set_command_received SEND_WITH_ACK false;;
  st ← get_self;
  send_command_packet_ack_loop (Z.to_nat (max_packet_retries st)) 0 packet;;
  st ← get_self;
  mret (command_received st SEND_WITH_ACK).

(** [command_tuple[0], command_tuple[1], command_tuple[2]]: indexing [None]
    raises [TypeError]. *)
Definition command_tuple_items (command_tuple : option (Z * Z * Z)) : result (Z * Z * Z) :=
  match command_tuple with
  | Some t => Ok t
  | None => Err TypeError
  end.

(** [Mambo._send_noparam_command_packet_ack] *)
Definition _send_noparam_command_packet_ack (command_tuple : option (Z * Z * Z)) : M bool :=
  increment_send_counter SEND_WITH_ACK;;
  st ← get_self;
  '(project, myclass, cmd) ← lift (command_tuple_items command_tuple);
  packet ← lift (struct_pack [(fmt_B, data_types DATA_WITH_ACK);
                              (fmt_B, characteristic_send_counter st SEND_WITH_ACK);
                              (fmt_B, project); (fmt_B, myclass); (fmt_B, cmd); (fmt_B, 0)]);
  _send_command_packet_ack packet.

(** [Mambo._send_enum_command_packet_ack].  With a [usb_id] the method calls
    [_debug_print] with nine arguments, which raises [TypeError]. *)
Definition _send_enum_command_packet_ack (command_tuple : Z * Z * Z) (enum_value : Z)
    (usb_id : pyval) : M bool :=
  increment_send_counter SEND_WITH_ACK;;
  st ← get_self;
  let '(project, myclass, cmd) := command_tuple in
  match usb_id with
  | PyNone =>
      packet ← lift (struct_pack [(fmt_B, data_types DATA_WITH_ACK);
                                  (fmt_B, characteristic_send_counter st SEND_WITH_ACK);
                                  (fmt_B, project); (fmt_B, myclass); (fmt_B, cmd); (fmt_B, 0);
                                  (fmt_I, enum_value)]);
      _send_command_packet_ack packet
  | _ => raise TypeError
  end.

(** [Mambo.takeoff] *)
Definition takeoff : M bool :=
  command_tuple ← _get_command_tuple "Piloting" "TakeOff";
  _send_noparam_command_packet_ack command_tuple.

(** [Mambo.land] *)
Definition land : M bool :=
  command_tuple ← _get_command_tuple "Piloting" "Landing";
  _send_noparam_command_packet_ack command_tuple.

(** [Mambo.hover] *)
Definition hover : M bool :=
  command_tuple ← _get_command_tuple "Piloting" "FlatTrim";
  _send_noparam_command_packet_ack command_tuple.

(** [Mambo.take_picture] *)
Definition take_picture : M bool :=
  command_tuple ← _get_command_tuple "MediaRecord" "PictureV2";
  _send_noparam_command_packet_ack command_tuple.

(** [Mambo.ask_for_state_update] *)
Definition ask_for_state_update : M bool :=
  command_tuple ← _get_command_tuple "Common" "AllStates";
  _send_noparam_command_packet_ack command_tuple.

(** [fmt % args] for a format whose only conversions are [%s]: [TypeError]
    when the number of arguments is not the number of conversions. *)
Fixpoint py_format (fmt : string) (args : list string) : result string :=
  match fmt with
  | EmptyString =>
      match args with
      | [] => Ok EmptyString
      | _ => Err TypeError
      end
  | String "%" (String "s" rest) =>
      match args with
      | [] => Err TypeError
      | a :: args' => result_map (String.append a) (py_format rest args')
      end
  | String c rest => result_map (String c) (py_format rest args)
  end.

(** [Mambo.flip].  The result [None] is the plain [return].  In the first
    [print] the operator [%] applies to the format and [direction] alone. *)
Definition flip (direction : string) : M (option bool) :=
  if negb (bool_decide (direction ∈ ["front"; "back"; "right"; "left"]%string)) then
    _ ← lift (py_format "Error: %s is not a valid direction.  Must be one of %s" [direction]);
    mret None
  else
    r ← _get_command_tuple_with_enum "Animations" "Flip" direction;
    match r with
    | Some (command_tuple, enum_tuple) =>
        sent ← _send_enum_command_packet_ack command_tuple enum_tuple PyNone;
        mret (Some sent)
    | None => raise TypeError      (* unpacking [None] into two names *)
    end.

(** [Mambo.turn_degrees] *)
Definition turn_degrees (degrees : Z) : M bool :=
  command_tuple ← _get_command_tuple "Animations" "Cap";
  increment_send_counter SEND_WITH_ACK;;
  st ← get_self;
  '(project, myclass, cmd) ← lift (command_tuple_items command_tuple);
  packet ← lift (struct_pack [(fmt_B, data_types DATA_WITH_ACK);
                              (fmt_B, characteristic_send_counter st SEND_WITH_ACK);
                              (fmt_B, project); (fmt_B, myclass); (fmt_B, cmd); (fmt_B, 0);
                              (fmt_h, degrees)]);
  _send_command_packet_ack packet.

(** [Mambo.turn_on_auto_takeoff] *)
Definition turn_on_auto_takeoff : M bool :=
  command_tuple ← _get_command_tuple "Piloting" "AutoTakeOffMode";
  increment_send_counter SEND_WITH_ACK;;
  st ← get_self;
  '(project, myclass, cmd) ← lift (command_tuple_items command_tuple);
  packet ← lift (struct_pack [(fmt_B, data_types DATA_WITH_ACK);
                              (fmt_B, characteristic_send_counter st SEND_WITH_ACK);
                              (fmt_B, project); (fmt_B, myclass); (fmt_B, cmd); (fmt_B, 0);
                              (fmt_B, 1)]);
  _send_command_packet_ack packet.

(** [Mambo.open_claw], [Mambo.close_claw] and [Mambo.fire_gun] *)
Definition usb_accessory (cmd enum_name : string) (id : sensor_attr) : M bool :=
  r ← _get_command_tuple_with_enum "UsbAccessory" cmd enum_name;
  match r with
  | Some (command_tuple, enum_tuple) =>
      st ← get_self;
      _send_enum_command_packet_ack command_tuple enum_tuple (attr (sensors st) id)
  | None => raise TypeError
  end.

Definition open_claw : M bool := usb_accessory "ClawControl" "OPEN" claw_id.
Definition close_claw : M bool := usb_accessory "ClawControl" "CLOSE" claw_id.
Definition fire_gun : M bool := usb_accessory "GunControl" "FIRE" gun_id.

(** [Mambo._ensure_fly_command_in_range] *)
Definition _ensure_fly_command_in_range (value : Z) : Z :=
  if value <? -100 then -100
  else if value >? 100 then 100
  else value.

(** The packet of one round of [fly_direct]. *)
Definition pcmd_packet (counter : Z) (command_tuple : Z * Z * Z)
    (my_roll my_pitch my_yaw my_vertical : Z) : result (list byte) :=
  let '(project, myclass, cmd) := command_tuple in
  struct_pack [(fmt_B, data_types DATA_NO_ACK); (fmt_B, counter);
               (fmt_B, project); (fmt_B, myclass); (fmt_B, cmd); (fmt_B, 0);
               (fmt_B, 1); (fmt_b, my_roll); (fmt_b, my_pitch); (fmt_b, my_yaw);
               (fmt_b, my_vertical); (fmt_I, 0)].

(** The body of the loop of [fly_direct], in a round where the link does [p]. *)
Definition fly_direct_round (p : Poll) (command_tuple : option (Z * Z * Z))
    (my_roll my_pitch my_yaw my_vertical : Z) : M unit :=
  increment_send_counter SEND_NO_ACK;;
  st ← get_self;
  t ← lift (command_tuple_items command_tuple);
  packet ← lift (pcmd_packet (characteristic_send_counter st SEND_NO_ACK) t
                             my_roll my_pitch my_yaw my_vertical);
  characteristic ← send_characteristic SEND_NO_ACK;
  _safe_ble_write characteristic packet;;
  waitForNotifications p;;
  mret tt.

(** [while (time.time() - start_time < duration)] of [fly_direct] *)
Fixpoint fly_direct_loop (fuel : nat) (command_tuple : option (Z * Z * Z))
    (my_roll my_pitch my_yaw my_vertical : Z) : M unit :=
  p ← next_poll;
  match p with
  | None | Some Deadline => mret tt
  | Some p =>
      match fuel with
      | O => out_of_fuel
      | S fuel' =>
          fly_direct_round p command_tuple my_roll my_pitch my_yaw my_vertical;;
          fly_direct_loop fuel' command_tuple my_roll my_pitch my_yaw my_vertical
      end
  end.

(** [Mambo.fly_direct]; [duration] in milliseconds (see [smart_sleep]). *)
Definition fly_direct (roll pitch yaw vertical_movement duration : Z) : M unit :=
  let my_roll := _ensure_fly_command_in_range roll in
  let my_pitch := _ensure_fly_command_in_range pitch in
  let my_yaw := _ensure_fly_command_in_range yaw in
  let my_vertical := _ensure_fly_command_in_range vertical_movement in
  command_tuple ← _get_command_tuple "Piloting" "PCMD";
  st ← get_self;
  fly_direct_loop (length (poll_script (drone st))) command_tuple
                  my_roll my_pitch my_yaw my_vertical.

(** ** Connecting *)

(** [Mambo._connect].  The loop [while not allServicesFound] is summed up by
    [services]: one scan either finds every characteristic, or the same scan
    is repeated without end. *)
Definition _connect : M unit :=
  drone_connect;;
  st ← get_self;
  match services (drone st) with
  | None => out_of_fuel
  | Some found =>
      modify (set_characteristics
                (fun channel => bool_decide (channel ≠ RECEIVE_WITH_ACK))
                (handshake_handles found));;
      _perform_handshake;;
      modify (fun st => set_drone (set_delegate (Some (handle_map found)) (drone st)) st)
  end.

(** [while (try_num < num_retries)] of [connect] *)
Fixpoint connect_loop (fuel : nat) (try_num num_retries : Z) : M bool :=
  if try_num <? num_retries then
    match fuel with
    | O => out_of_fuel
    | S fuel' =>
        connected ← try_except_BTLE (_connect;; mret true) (mret false);
        if connected : bool then mret true
        else connect_loop fuel' (try_num + 1) num_retries
    end
  else mret false.

(** [Mambo.connect] *)
Definition connect (num_retries : Z) : M bool :=
  connect_loop (Z.to_nat (num_retries - 1)) 1 num_retries.

(** ** Observations used in the statements *)

(** The packets written on a send channel, newest first. *)
Fixpoint writes_on (channel : Channel) (log : list Written) : list (list byte) :=
  match log with
  | [] => []
  | ToCharacteristic c packet :: rest =>
      if decide (c = channel) then packet :: writes_on channel rest
      else writes_on channel rest
  | ToHandle _ _ :: rest => writes_on channel rest
  end.

(** The channel name a notification handle stands for in the delegate. *)
Definition channel_of_handle (st : Mambo) (cHandle : Z) : option string :=
  hm ← delegate (drone st);
  hex ← hm !! cHandle;
  characteristic_receive_uuids hex.

(** The round delivers a notification on the channel named [name]. *)
Definition poll_is_on (st : Mambo) (name : string) (p : Poll) : bool :=
  match p with
  | Incoming cHandle _ => bool_decide (channel_of_handle st cHandle = Some name)
  | _ => false
  end.

Definition is_deadline (p : Poll) : bool :=
  match p with
  | Deadline => true
  | _ => false
  end.

(** The link never fails: no answer of the script is a BTLEException. *)
Definition link_ok (st : Mambo) : Prop :=
  Forall (fun failed => failed = false) (link_script (drone st)).

(** ** A sample of the two XML files, for the concrete runs *)

Definition flying_states : list string :=
  ["landed"; "takingoff"; "hovering"; "flying"; "landing"; "emergency"; "rolling"; "init"]%string.

Definition sample_minidrone : XmlProject := {|
  project_id := 2;
  project_myclass := [
    {| class_name := "Piloting"; class_id := 0;
       class_cmd := [
         {| cmd_name := "FlatTrim"; cmd_id := 0; cmd_arg := [] |};
         {| cmd_name := "TakeOff"; cmd_id := 1; cmd_arg := [] |};
         {| cmd_name := "PCMD"; cmd_id := 2;
            cmd_arg := [ {| arg_name := "flag"; arg_type := "u8"; arg_enum := [] |};
                         {| arg_name := "roll"; arg_type := "i8"; arg_enum := [] |};
                         {| arg_name := "pitch"; arg_type := "i8"; arg_enum := [] |};
                         {| arg_name := "yaw"; arg_type := "i8"; arg_enum := [] |};
                         {| arg_name := "gaz"; arg_type := "i8"; arg_enum := [] |};
                         {| arg_name := "timestamp"; arg_type := "u32"; arg_enum := [] |} ] |};
         {| cmd_name := "Landing"; cmd_id := 3; cmd_arg := [] |} ] |};
    {| class_name := "PilotingState"; class_id := 3;
       class_cmd := [
         {| cmd_name := "FlatTrimChanged"; cmd_id := 0; cmd_arg := [] |};
         {| cmd_name := "FlyingStateChanged"; cmd_id := 1;
            cmd_arg := [ {| arg_name := "state"; arg_type := "enum";
                            arg_enum := flying_states |} ] |} ] |};
    {| class_name := "Animations"; class_id := 4;
       class_cmd := [
         {| cmd_name := "Flip"; cmd_id := 0;
            cmd_arg := [ {| arg_name := "direction"; arg_type := "enum";
                            arg_enum := ["front"; "back"; "right"; "left"]%string |} ] |};
         {| cmd_name := "Cap"; cmd_id := 1;
            cmd_arg := [ {| arg_name := "offset"; arg_type := "i16"; arg_enum := [] |} ] |} ] |};
    {| class_name := "UsbAccessoryState"; class_id := 15;
       class_cmd := [
         {| cmd_name := "ClawState"; cmd_id := 1;
            cmd_arg := [ {| arg_name := "id"; arg_type := "u8"; arg_enum := [] |};
                         {| arg_name := "state"; arg_type := "enum";
                            arg_enum := ["OPENED"; "OPENING"; "CLOSED"; "CLOSING"]%string |};
                         {| arg_name := "list_flags"; arg_type := "u8"; arg_enum := [] |} ] |} ] |} ]
|}.

Definition sample_common : XmlProject := {|
  project_id := 0;
  project_myclass := [
    {| class_name := "Common"; class_id := 4;
       class_cmd := [ {| cmd_name := "AllStates"; cmd_id := 0; cmd_arg := [] |} ] |};
    {| class_name := "CommonState"; class_id := 5;
       class_cmd := [
         {| cmd_name := "AllStatesChanged"; cmd_id := 0; cmd_arg := [] |};
         {| cmd_name := "BatteryStateChanged"; cmd_id := 1;
            cmd_arg := [ {| arg_name := "percent"; arg_type := "u8"; arg_enum := [] |} ] |};
         {| cmd_name := "MassStorageInfoStateListChanged"; cmd_id := 3;
            cmd_arg := [ {| arg_name := "mass_storage_id"; arg_type := "u8"; arg_enum := [] |};
                         {| arg_name := "size"; arg_type := "u32"; arg_enum := [] |};
                         {| arg_name := "used_size"; arg_type := "u32"; arg_enum := [] |};
                         {| arg_name := "plugged"; arg_type := "u8"; arg_enum := [] |} ] |} ] |} ]
|}.

(** A peripheral that offers every characteristic, with ten handshake handles
    and the four receive characteristics on the handles 30 to 33. *)
Definition sample_services : Discovered := {|
  handshake_handles := [10; 11; 12; 13; 14; 15; 16; 17; 18; 19];
  handle_map := {[ 30 := "0e"; 31 := "0f"; 32 := "1b"; 33 := "1c" ]}%string
|}.

Definition sample_drone (link : list bool) (polls : list Poll) : Peripheral := {|
  link_script := link;
  poll_script := polls;
  written := [];
  delegate := None;
  services := Some sample_services
|}.

(** A new [Mambo] on the sample dictionary. *)
Definition sample_mambo (link : list bool) (polls : list Poll) : Mambo :=
  Mambo_init sample_minidrone sample_common (sample_drone link polls).

(** The same after a successful [connect]. *)
Definition sample_connected (link : list bool) (polls : list Poll) : Mambo :=
  (connect 3 (sample_mambo link polls)).2.

(** Two telemetry frames with several declared fields: a ClawState frame
    (id 2, state 1, flags 0) and a MassStorageInfoStateListChanged frame
    (id 1, size 2, used size 7, plugged 1). *)
Definition sample_claw_frame : list byte :=
  [Byte.x02; Byte.x05; Byte.x02; Byte.x0f; Byte.x01; Byte.x00;
   Byte.x02; Byte.x01; Byte.x00].

Definition sample_mass_storage_frame : list byte :=
  [Byte.x02; Byte.x07; Byte.x00; Byte.x05; Byte.x03; Byte.x00;
   Byte.x01; Byte.x02; Byte.x00; Byte.x00; Byte.x00; Byte.x07; Byte.x00; Byte.x00; Byte.x00;
   Byte.x01].

(** ** Relations and predicates used to state what a method does *)

(** [m] relates every state to the state it leaves, whatever the outcome. *)
Definition framed {A} (R : relation Mambo) (m : M A) : Prop :=
  forall st, R st (m st).2.

Definition is_handle_write (w : Written) : Prop :=
  match w with
  | ToHandle _ _ => True
  | ToCharacteristic _ _ => False
  end.

(** Nothing changes but the link script, of which a part is used up, and the
    log, which grows by writes in [W]. *)
Definition link_only (W : Written -> Prop) (st st' : Mambo) : Prop :=
  exists l news,
    l `suffix_of` link_script (drone st)
    /\ Forall W news
    /\ st' = set_drone (set_written (news ++ written (drone st))
                                    (set_link_script l (drone st))) st.

(** What [_safe_ble_write] may write: the packet on its characteristic, and
    the handshake of a reconnection. *)
Definition safe_write_of (c : Channel) (packet : list byte) (w : Written) : Prop :=
  w = ToCharacteristic c packet \/ is_handle_write w.

(** Only the sensors, the sensor cache and the count of XML reads change. *)
Definition quiet (st st' : Mambo) : Prop :=
  drone st' = drone st
  /\ characteristic_send_counter st' = characteristic_send_counter st
  /\ command_received st' = command_received st
  /\ send_characteristics st' = send_characteristics st
  /\ handshake_characteristics st' = handshake_characteristics st
  /\ max_packet_retries st' = max_packet_retries st
  /\ minidrone_commands st' = minidrone_commands st
  /\ common_commands st' = common_commands st.

(** What the handling of notifications may write: acks of inbound frames,
    and the handshake of a reconnection. *)
Definition is_background_write (w : Written) : Prop :=
  match w with
  | ToHandle _ _ => True
  | ToCharacteristic c _ => c = ACK_COMMAND
  end.

(** How a method leaves the script of rounds: untouched, or used up from
    the front. *)
Definition polls_kept : relation (list Poll) := eq.

Definition polls_used : relation (list Poll) := fun l l' => l' `suffix_of` l.

(** What stays as it is while notifications are handled and the link is
    re-established: the tables set up by [connect], every counter but that
    of ACK_COMMAND, and every flag unless [F] allows its new value; the link
    script is used up from the front, the script of rounds changes by [P],
    and the log grows by writes in [W]. *)
Record background (P : relation (list Poll)) (W : Written -> Prop)
    (F : Channel -> bool -> Prop) (st st' : Mambo) : Prop := {
  bg_send : send_characteristics st' = send_characteristics st;
  bg_handshake : handshake_characteristics st' = handshake_characteristics st;
  bg_retries : max_packet_retries st' = max_packet_retries st;
  bg_delegate : delegate (drone st') = delegate (drone st);
  bg_counter : forall c, c <> ACK_COMMAND ->
               characteristic_send_counter st' c = characteristic_send_counter st c;
  bg_flags : forall c, command_received st' c = command_received st c
                       \/ F c (command_received st' c);
  bg_link : link_script (drone st') `suffix_of` link_script (drone st);
  bg_poll : P (poll_script (drone st)) (poll_script (drone st'));
  bg_written : exists news, written (drone st') = news ++ written (drone st) /\ Forall W news
}.

(** The flags that the notification on [cHandle] may raise. *)
Definition flags_of_handle (handle_map : gmap Z string) (cHandle : Z) (c : Channel)
    (val : bool) : Prop :=
  val = true /\
  ((c = SEND_WITH_ACK
   /\ (handle_map !! cHandle ≫= characteristic_receive_uuids) = Some "ACK_COMMAND_SENT"%string)
  \/ (c = SEND_HIGH_PRIORITY
      /\ (handle_map !! cHandle ≫= characteristic_receive_uuids) = Some "ACK_HIGH_PRIORITY"%string)).

(** The flags that a notification may raise. *)
Definition is_ack_flag (c : Channel) (val : bool) : Prop :=
  val = true /\ (c = SEND_WITH_ACK \/ c = SEND_HIGH_PRIORITY).

(** [m] never gives [OutOfFuel]. *)
Definition total {A} (m : M A) : Prop := forall st, (m st).1 <> OutOfFuel.

(** [m] run from [st] returns, and its value and final state satisfy [Q]. *)
Definition returns {A} (m : M A) (st : Mambo) (Q : A -> Mambo -> Prop) : Prop :=
  exists a st', m st = (Ret a, st') /\ Q a st'.

(** The rounds a timed loop runs before the time is up. *)
Fixpoint rounds_of_wait (polls : list Poll) : list Poll :=
  match polls with
  | [] => []
  | Deadline :: _ => []
  | p :: rest => p :: rounds_of_wait rest
  end.

(** The script that is left when the timed loop has ended. *)
Fixpoint after_wait (polls : list Poll) : list Poll :=
  match polls with
  | [] => []
  | Deadline :: rest => rest
  | _ :: rest => after_wait rest
  end.

(** The round delivers the ack of a command sent on SEND_WITH_ACK. *)
Definition is_command_ack (st : Mambo) (p : Poll) : bool :=
  poll_is_on st "ACK_COMMAND_SENT" p.

(** The flags that the round [p] may raise. *)
Definition flags_of_poll (st : Mambo) (p : Poll) (c : Channel) (val : bool) : Prop :=
  val = true /\ ((c = SEND_WITH_ACK /\ is_command_ack st p = true) \/ c = SEND_HIGH_PRIORITY).


(** A session that can send on SEND_WITH_ACK, with the retry budget of
    [Mambo.__init__], over a link that never fails. *)
Definition ready (st : Mambo) : Prop :=
  link_ok st /\ send_characteristics st SEND_WITH_ACK = true /\ max_packet_retries st = 3.

(** The packets written on SEND_WITH_ACK so far, newest first. *)
Definition acked_writes (st : Mambo) : list (list byte) :=
  writes_on SEND_WITH_ACK (written (drone st)).

(** The sensor name that [update] files under an attribute. *)
Definition name_of_attr (a : sensor_attr) : string :=
  match a with
  | battery => "BatteryStateChanged_battery_percent"
  | flying_state => "FlyingStateChanged_state"
  | claw_id => "ClawState_id"
  | claw_state => "ClawState_state"
  | gun_id => "GunState_id"
  | gun_state => "GunState_state"
  | speed_x => "DroneSpeed_speed_x"
  | speed_y => "DroneSpeed_speed_y"
  | speed_z => "DroneSpeed_speed_z"
  | speed_ts => "DroneSpeed_ts"
  | altitude => "DroneAltitude_altitude"
  | altitude_ts => "DroneAltitude_altitude_ts"
  | quaternion_w => "DroneQuaternion_q_w"
  | quaternion_x => "DroneQuaternion_q_x"
  | quaternion_y => "DroneQuaternion_q_y"
  | quaternion_z => "DroneQuaternion_q_z"
  | quaternion_ts => "DroneQuaternion_tz"
  end.

(** The sensors are left as they were. *)
Definition same_sensors (st st' : Mambo) : Prop := sensors st' = sensors st.

(** The sequence number of a frame: its second byte. *)
Definition sequence_byte (packet : list byte) : option Z :=
  Z_of_byte <$> packet !! 1%nat.

(** Roll, pitch, yaw and vertical movement as a PCMD frame carries them: the
    signed bytes at offsets 7 to 10. *)
Definition pcmd_arguments (packet : list byte) : result (Z * Z * Z * Z) :=
  result_bind (unpack_int fmt_b packet 7) (fun roll =>
  result_bind (unpack_int fmt_b packet 8) (fun pitch =>
  result_bind (unpack_int fmt_b packet 9) (fun yaw =>
  result_map (fun vertical => (roll, pitch, yaw, vertical)) (unpack_int fmt_b packet 10)))).

(** A write that, if it is a packet on [channel], is a packet in [P]. *)
Definition carries (channel : Channel) (P : list byte -> Prop) (w : Written) : Prop :=
  match w with
  | ToCharacteristic c packet => c = channel -> P packet
  | ToHandle _ _ => True
  end.

(** The log grows by writes in [W]. *)
Definition writes_only (W : Written -> Prop) (st st' : Mambo) : Prop :=
  exists news, written (drone st') = news ++ written (drone st) /\ Forall W news.

(** The counter of [channel] is left as it was, and what is written on
    [channel] carries the sequence number [counter]. *)
Definition sent_with (channel : Channel) (counter : Z) (st st' : Mambo) : Prop :=
  characteristic_send_counter st' channel = characteristic_send_counter st channel
  /\ writes_only (carries channel (fun packet => sequence_byte packet = Some counter)) st st'.

(** Whatever the outcome of [m], the counter of [channel] is left incremented
    once, and every frame that [m] has written on [channel] carries the
    incremented value. *)
Definition sends_incremented {A} (channel : Channel) (m : M A) : Prop :=
  forall st, exists news,
    written (drone (m st).2) = news ++ written (drone st)
    /\ characteristic_send_counter (m st).2 channel
       = incremented (characteristic_send_counter st channel)
    /\ Forall (fun packet =>
                 sequence_byte packet
                 = Some (incremented (characteristic_send_counter st channel)))
              (writes_on channel news).

(** The same of a method [m] that starts by resolving its command with
    [lookup]: once [lookup] has returned, [m] increments the counter and
    sends with the incremented value; when [lookup] raises, [m] ends with
    that exception, the counter as it was and nothing written. *)
Definition sends_incremented_once {A T} (channel : Channel) (lookup : M T) (m : M A) : Prop :=
  forall st,
    match (lookup st).1 with
    | Ret _ =>
        exists news,
          written (drone (m st).2) = news ++ written (drone st)
          /\ characteristic_send_counter (m st).2 channel
             = incremented (characteristic_send_counter st channel)
          /\ Forall (fun packet =>
                       sequence_byte packet
                       = Some (incremented (characteristic_send_counter st channel)))
                    (writes_on channel news)
    | Raise e =>
        (m st).1 = Raise e
        /\ characteristic_send_counter (m st).2 channel = characteristic_send_counter st channel
        /\ written (drone (m st).2) = written (drone st)
    | OutOfFuel =>
        (m st).1 = OutOfFuel
        /\ characteristic_send_counter (m st).2 channel = characteristic_send_counter st channel
        /\ written (drone (m st).2) = written (drone st)
    end.

(** What a command sent on [channel] may write: its packet on [channel], and
    what the handling of notifications writes meanwhile. *)
Definition is_send_write (channel : Channel) (packet : list byte) (w : Written) : Prop :=
  w = ToCharacteristic channel packet \/ is_background_write w.

(** A value that fits an unsigned byte. *)
Definition is_byte (v : Z) : Prop := 0 <= v <= 255.

(** What [_ensure_fly_command_in_range] is to compute. *)
Definition clamp (v : Z) : Z := Z.max (-100) (Z.min 100 v).

(** ** Further observations *)

(** The frame has the signed 16-bit value [v] at offset 6, after the header. *)
Definition carries_int16 (v : Z) (packet : list byte) : Prop :=
  unpack_int fmt_h packet 6 = Ok v.

(** [m] raises no exception but those in [E]. *)
Definition raises_only {A} (E : exn -> Prop) (m : M A) : Prop :=
  forall st e, (m st).1 = Raise e -> E e.

(** The XML of the USB accessories, as minidrone.xml has it: the claw and
    the gun are driven by an accessory id and an action, an enum. *)
Definition accessory_minidrone : XmlProject := {|
  project_id := 2;
  project_myclass := [
    {| class_name := "UsbAccessory"; class_id := 16;
       class_cmd := [
         {| cmd_name := "ClawControl"; cmd_id := 1;
            cmd_arg := [ {| arg_name := "id"; arg_type := "u8"; arg_enum := [] |};
                         {| arg_name := "action"; arg_type := "enum";
                            arg_enum := ["OPEN"; "CLOSE"] |} ] |};
         {| cmd_name := "GunControl"; cmd_id := 2;
            cmd_arg := [ {| arg_name := "id"; arg_type := "u8"; arg_enum := [] |};
                         {| arg_name := "action"; arg_type := "enum";
                            arg_enum := ["FIRE"] |} ] |} ] |} ]
|}%string.

(** A connected session whose minidrone.xml is [accessory_minidrone]. *)
Definition accessory_connected (polls : list Poll) : Mambo :=
  (connect 3 (Mambo_init accessory_minidrone sample_common (sample_drone [] polls))).2.

(** Only the caches and the count of XML reads change: what resolving a
    name in the dictionary may do. *)
Definition resolving (st st' : Mambo) : Prop := quiet st st' /\ same_sensors st st'.

(** [m] run from [st] raises TypeError or AttributeError and has reached
    the peripheral with nothing: no write, no call into the link. *)
Definition raises_unsent {A} (m : M A) (st : Mambo) : Prop :=
  exists e, (m st).1 = Raise e
            /\ (e = TypeError \/ e = AttributeError)
            /\ drone (m st).2 = drone st.

(** What the handshake writes for one characteristic: 0x0100 to the handle
    two above its own. *)
Definition handshake_write (handle : Z) : Written :=
  ToHandle (handle + 2) [Byte.x01; Byte.x00].

(** The log of a handshake over [handles], newest first. *)
Definition handshake_log (handles : list Z) : list Written :=
  rev (map handshake_write handles).

(** ** [safe_takeoff] and [safe_land] *)

(** [self.sensors.flying_state == s] for a string [s]. *)
Definition flying_state_is (st : Mambo) (s : string) : bool :=
  bool_decide (attr (sensors st) flying_state = PyStr s).

(** [while (self.sensors.flying_state != "landed")] of [safe_land] *)
Fixpoint safe_land_loop (fuel : nat) : M unit :=
  st ← get_self;
  if negb (flying_state_is st "landed") then
    match fuel with
    | O => out_of_fuel
    | S fuel' =>
        smart_sleep 1000;;
        land;;
        safe_land_loop fuel'
    end
  else mret tt.

(** [Mambo.safe_land].  The loop has no bound of its own.  A round that
    finds the script of rounds used up changes no sensor, so that the loop
    either ends within one round more than the script is long or does not
    end at all, which is the outcome [OutOfFuel]. *)
Definition safe_land : M unit :=
  st ← get_self;
  safe_land_loop (S (length (poll_script (drone st)))).

(** One evaluation of [time.time() - start_time < timeout] in [safe_takeoff]:
    [clock] holds the answers of the evaluations to come, and once it is
    used up the time is up. *)
Definition tick (clock : list bool) : bool * list bool :=
  match clock with
  | [] => (false, [])
  | in_time :: rest => (in_time, rest)
  end.

(** The first loop of [safe_takeoff]: [while (self.sensors.flying_state !=
    "takingoff" and (time.time() - start_time < timeout))].  The result is
    what is left of the clock. *)
Fixpoint safe_takeoff_send (fuel : nat) (clock : list bool) : M (list bool) :=
  st ← get_self;
  if negb (flying_state_is st "takingoff") then
    let '(in_time, clock') := tick clock in
    if in_time : bool then
      match fuel with
      | O => out_of_fuel
      | S fuel' =>
          smart_sleep 1000;;
          takeoff;;
          safe_takeoff_send fuel' clock'
      end
    else mret clock'
  else mret clock.

(** The second loop: [while ((self.sensors.flying_state != "flying" or
    self.sensors.flying_state != "hovering") and (time.time() - start_time <
    timeout))]. *)
Fixpoint safe_takeoff_wait (fuel : nat) (clock : list bool) : M (list bool) :=
  st ← get_self;
  if negb (flying_state_is st "flying") || negb (flying_state_is st "hovering") then
    let '(in_time, clock') := tick clock in
    if in_time : bool then
      match fuel with
      | O => out_of_fuel
      | S fuel' =>
          smart_sleep 1000;;
          safe_takeoff_wait fuel' clock'
      end
    else mret clock'
  else mret clock.

(** [Mambo.safe_takeoff], given the answers of its clock. *)
Definition safe_takeoff (clock : list bool) : M unit :=
  clock' ← safe_takeoff_send (length clock) clock;
  safe_takeoff_wait (length clock') clock';;
  mret tt.

(** How often the clock says that time is left before it says that the
    time is up, and what is left of it then. *)
Fixpoint rounds_in_time (clock : list bool) : nat :=
  match clock with
  | true :: rest => S (rounds_in_time rest)
  | _ => 0
  end.

Fixpoint after_time_is_up (clock : list bool) : list bool :=
  match clock with
  | true :: rest => after_time_is_up rest
  | false :: rest => rest
  | [] => []
  end.

(** No round of the script delivers a notification. *)
Definition calm (st : Mambo) : Prop :=
  Forall (fun p => match p with Incoming _ _ => False | _ => True end)
         (poll_script (drone st)).

(** While no notification is to come, none will come and the sensors stay
    as they are. *)
Definition still (st st' : Mambo) : Prop :=
  calm st -> calm st' /\ sensors st' = sensors st.

(** The frame has the unsigned 32-bit value [v] at offset 6, after the header. *)
Definition carries_uint32 (v : Z) (packet : list byte) : Prop :=
  unpack_int fmt_I packet 6 = Ok v.

(** [m] run from [st] raises TypeError with nothing written and no call into
    the link, but with the counter of SEND_WITH_ACK incremented. *)
Definition raises_with_counter_spent {A} (m : M A) (st : Mambo) : Prop :=
  (m st).1 = Raise TypeError
  /\ drone (m st).2 = drone st
  /\ characteristic_send_counter (m st).2 SEND_WITH_ACK
     = incremented (characteristic_send_counter st SEND_WITH_ACK).

(** Neither XML file has the command [cmd] of the class [myclass]. *)
Definition unknown_command (myclass cmd : string) (st : Mambo) : Prop :=
  (_get_command_tuple myclass cmd st).1 = Ret None.

(** ** The service discovery of [_connect] *)

(** [s[start:stop]] on a Python string: a negative index counts from the
    end, an index outside the string is clipped, and a [stop] that is not
    after [start] gives the empty string. *)
Definition py_slice (s : string) (start stop : Z) : string :=
  let len := Z.of_nat (String.length s) in
  let clip := fun k => if k <? 0 then Z.max 0 (k + len) else Z.min k len in
  String.substring (Z.to_nat (clip start)) (Z.to_nat (clip stop - clip start)) s.

(** [Mambo._get_byte_str_from_uuid]; [uuid] is the string that
    [format("%s" % uuid)] gives for the UUID object. *)
Definition _get_byte_str_from_uuid (uuid : string) (byte_start byte_end : Z) : string :=
  let idx_start := 2 * (byte_start - 1) in
  let idx_end := 2 * byte_end in
  py_slice uuid idx_start idx_end.

(** [self.service_uuids] *)
Definition service_uuids (hex : string) : option string :=
  if String.eqb hex "fa00" then Some "ARCOMMAND_SENDING_SERVICE"%string
  else if String.eqb hex "fb00" then Some "ARCOMMAND_RECEIVING_SERVICE"%string
  else if String.eqb hex "fc00" then Some "PERFORMANCE_COUNTER_SERVICE"%string
  else if String.eqb hex "fd21" then Some "NORMAL_BLE_FTP_SERVICE"%string
  else if String.eqb hex "fd51" then Some "UPDATE_BLE_FTP"%string
  else if String.eqb hex "fe00" then Some "UPDATE_RFCOMM_SERVICE"%string
  else if String.eqb hex "1800" then Some "Device Info"%string
  else if String.eqb hex "1801" then Some "unknown"%string
  else None.

(** [self.characteristic_send_uuids] *)
Definition characteristic_send_uuids (hex : string) : option string :=
  if String.eqb hex "0a" then Some "SEND_NO_ACK"%string
  else if String.eqb hex "0b" then Some "SEND_WITH_ACK"%string
  else if String.eqb hex "0c" then Some "SEND_HIGH_PRIORITY"%string
  else if String.eqb hex "1e" then Some "ACK_COMMAND"%string
  else None.

(** [self.characteristic_ftp_uuids] *)
Definition characteristic_ftp_uuids (hex : string) : option string :=
  if String.eqb hex "22" then Some "NORMAL_FTP_TRANSFERRING"%string
  else if String.eqb hex "23" then Some "NORMAL_FTP_GETTING"%string
  else if String.eqb hex "24" then Some "NORMAL_FTP_HANDLING"%string
  else if String.eqb hex "52" then Some "UPDATE_FTP_TRANSFERRING"%string
  else if String.eqb hex "53" then Some "UPDATE_FTP_GETTING"%string
  else if String.eqb hex "54" then Some "UPDATE_FTP_HANDLING"%string
  else None.

(** The uuid segments of the characteristics that take part in the handshake. *)
Definition handshake_segments : list string :=
  ["fb0f"; "fb0e"; "fb1b"; "fb1c"; "fd22"; "fd23"; "fd24"; "fd52"; "fd53"; "fd54"]%string.

(** What bluepy reports of the GATT table: the services with their uuid, and
    in each the characteristics with their uuid and handle. *)
Record GattCharacteristic : Type := {
  char_uuid : string;
  char_handle : Z
}.

Record GattService : Type := {
  service_uuid : string;
  service_characteristics : list GattCharacteristic
}.

(** The dictionaries that the discovery fills: the four attributes of the
    [Mambo] object and the local [handle_map]. *)
Record Tables : Type := {
  gatt_receive : gmap string GattCharacteristic;     (* self.receive_characteristics *)
  gatt_handle_map : gmap Z string;                   (* handle_map *)
  gatt_send : gmap string GattCharacteristic;        (* self.send_characteristics *)
  gatt_ftp : gmap string GattCharacteristic;         (* self.ftp_characteristics *)
  gatt_handshake : gmap string GattCharacteristic    (* self.handshake_characteristics *)
}.

(** The tables of a new [Mambo] at the start of [_connect]. *)
Definition Tables_init : Tables := {|
  gatt_receive := ∅; gatt_handle_map := ∅; gatt_send := ∅; gatt_ftp := ∅;
  gatt_handshake := ∅
|}.

(** The body of [for c in s.getCharacteristics()] in a receiving service. *)
Definition store_receive (t : Tables) (c : GattCharacteristic) : Tables :=
  let hex_str := _get_byte_str_from_uuid (char_uuid c) 4 4 in
  match characteristic_receive_uuids hex_str with
  | Some name =>
      {| gatt_receive := <[name := c]> (gatt_receive t);
         gatt_handle_map := <[char_handle c := hex_str]> (gatt_handle_map t);
         gatt_send := gatt_send t; gatt_ftp := gatt_ftp t;
         gatt_handshake := gatt_handshake t |}
  | None => t
  end.

(** ... in a sending service *)
Definition store_send (t : Tables) (c : GattCharacteristic) : Tables :=
  let hex_str := _get_byte_str_from_uuid (char_uuid c) 4 4 in
  match characteristic_send_uuids hex_str with
  | Some name =>
      {| gatt_receive := gatt_receive t; gatt_handle_map := gatt_handle_map t;
         gatt_send := <[name := c]> (gatt_send t); gatt_ftp := gatt_ftp t;
         gatt_handshake := gatt_handshake t |}
  | None => t
  end.

(** ... in one of the two FTP services *)
Definition store_ftp (t : Tables) (c : GattCharacteristic) : Tables :=
  let hex_str := _get_byte_str_from_uuid (char_uuid c) 4 4 in
  match characteristic_ftp_uuids hex_str with
  | Some name =>
      {| gatt_receive := gatt_receive t; gatt_handle_map := gatt_handle_map t;
         gatt_send := gatt_send t; gatt_ftp := <[name := c]> (gatt_ftp t);
         gatt_handshake := gatt_handshake t |}
  | None => t
  end.

(** The body of the last loop over the characteristics of a service. *)
Definition store_handshake (t : Tables) (c : GattCharacteristic) : Tables :=
  let segment := _get_byte_str_from_uuid (char_uuid c) 3 4 in
  if bool_decide (segment ∈ handshake_segments) then
    {| gatt_receive := gatt_receive t; gatt_handle_map := gatt_handle_map t;
       gatt_send := gatt_send t; gatt_ftp := gatt_ftp t;
       gatt_handshake := <[segment := c]> (gatt_handshake t) |}
  else t.

(** The body of [for s in self.services]: [self.service_uuids[hex_str]]
    raises KeyError for a service whose uuid segment is not in the table. *)
Definition scan_service (t : Tables) (s : GattService) : result Tables :=
  let hex_str := _get_byte_str_from_uuid (service_uuid s) 3 4 in
  match service_uuids hex_str with
  | None => Err KeyError
  | Some name =>
      let cs := service_characteristics s in
      let t1 :=
        if String.eqb name "ARCOMMAND_RECEIVING_SERVICE" then foldl store_receive t cs
        else if String.eqb name "ARCOMMAND_SENDING_SERVICE" then foldl store_send t cs
        else if String.eqb name "UPDATE_BLE_FTP" then foldl store_ftp t cs
        else if String.eqb name "NORMAL_BLE_FTP_SERVICE" then foldl store_ftp t cs
        else t in
      Ok (foldl store_handshake t1 cs)
  end.

(** [for s in self.services] *)
Fixpoint scan_services (t : Tables) (services : list GattService) : result Tables :=
  match services with
  | [] => Ok t
  | s :: rest => result_bind (scan_service t s) (fun t' => scan_services t' rest)
  end.

(** The check at the end of a pass: every name of the three tables has its
    characteristic, and there are ten handshake characteristics. *)
Definition all_services_found (t : Tables) : bool :=
  forallb (fun r_id => bool_decide (is_Some (gatt_receive t !! r_id)))
          ["ACK_DRONE_DATA"; "NO_ACK_DRONE_DATA"; "ACK_COMMAND_SENT"; "ACK_HIGH_PRIORITY"]%string
  && forallb (fun s_id => bool_decide (is_Some (gatt_send t !! s_id)))
             ["SEND_NO_ACK"; "SEND_WITH_ACK"; "SEND_HIGH_PRIORITY"; "ACK_COMMAND"]%string
  && forallb (fun f_id => bool_decide (is_Some (gatt_ftp t !! f_id)))
             ["NORMAL_FTP_TRANSFERRING"; "NORMAL_FTP_GETTING"; "NORMAL_FTP_HANDLING";
              "UPDATE_FTP_TRANSFERRING"; "UPDATE_FTP_GETTING"; "UPDATE_FTP_HANDLING"]%string
  && bool_decide (size (gatt_handshake t) = 10%nat).


(** A GATT table as a Mambo has it: the Generic Attribute service, the sending
    and the receiving service, and the two FTP services. *)
Definition sample_gatt : list GattService := [
  {| service_uuid := "00001801-0000-1000-8000-00805f9b34fb";
     service_characteristics := [] |};
  {| service_uuid := "9a66fa00-0800-9191-11e4-012d1540cb8e";
     service_characteristics := [
       {| char_uuid := "9a66fa0a-0800-9191-11e4-012d1540cb8e"; char_handle := 64 |};
       {| char_uuid := "9a66fa0b-0800-9191-11e4-012d1540cb8e"; char_handle := 67 |};
       {| char_uuid := "9a66fa0c-0800-9191-11e4-012d1540cb8e"; char_handle := 70 |};
       {| char_uuid := "9a66fa1e-0800-9191-11e4-012d1540cb8e"; char_handle := 124 |} ] |};
  {| service_uuid := "9a66fb00-0800-9191-11e4-012d1540cb8e";
     service_characteristics := [
       {| char_uuid := "9a66fb0e-0800-9191-11e4-012d1540cb8e"; char_handle := 188 |};
       {| char_uuid := "9a66fb0f-0800-9191-11e4-012d1540cb8e"; char_handle := 191 |};
       {| char_uuid := "9a66fb1b-0800-9191-11e4-012d1540cb8e"; char_handle := 227 |};
       {| char_uuid := "9a66fb1c-0800-9191-11e4-012d1540cb8e"; char_handle := 230 |} ] |};
  {| service_uuid := "9a66fd21-0800-9191-11e4-012d1540cb8e";
     service_characteristics := [
       {| char_uuid := "9a66fd22-0800-9191-11e4-012d1540cb8e"; char_handle := 289 |};
       {| char_uuid := "9a66fd23-0800-9191-11e4-012d1540cb8e"; char_handle := 292 |};
       {| char_uuid := "9a66fd24-0800-9191-11e4-012d1540cb8e"; char_handle := 295 |} ] |};
  {| service_uuid := "9a66fd51-0800-9191-11e4-012d1540cb8e";
     service_characteristics := [
       {| char_uuid := "9a66fd52-0800-9191-11e4-012d1540cb8e"; char_handle := 305 |};
       {| char_uuid := "9a66fd53-0800-9191-11e4-012d1540cb8e"; char_handle := 308 |};
       {| char_uuid := "9a66fd54-0800-9191-11e4-012d1540cb8e"; char_handle := 311 |} ] |}
]%string.

(** The tables after one pass over [sample_gatt]. *)
Definition sample_tables : Tables :=
  match scan_services Tables_init sample_gatt with
  | Ok t => t
  | Err _ => Tables_init
  end.

(** Where an entry of [handle_map] comes from. *)
Definition from_a_receive_characteristic (services : list GattService) (h : Z) (hex : string)
    : Prop :=
  exists s c,
    s ∈ services /\ c ∈ service_characteristics s /\
    service_uuids (_get_byte_str_from_uuid (service_uuid s) 3 4)
      = Some "ARCOMMAND_RECEIVING_SERVICE"%string /\
    char_handle c = h /\
    _get_byte_str_from_uuid (char_uuid c) 4 4 = hex /\
    is_Some (characteristic_receive_uuids hex).

(** The characteristics that the handshake table holds. *)
Definition from_a_handshake_characteristic (services : list GattService) (segment : string)
    (c : GattCharacteristic) : Prop :=
  segment ∈ handshake_segments /\
  _get_byte_str_from_uuid (char_uuid c) 3 4 = segment /\
  exists s, s ∈ services /\ c ∈ service_characteristics s.

(** ** The fields of a telemetry frame *)

(** What one round of [for idx, name in enumerate(names)] of
    [_update_sensors] computes for the field [name] at position [idx]: the
    value unpacked for [data_sizes[idx]], as [MamboSensors.update] translates
    it. *)
Definition field_value (data : list byte) (data_sizes : list (option string))
    (sensor_enum : gmap string (list string)) (idx : nat) (name : string) : result pyval :=
  result_bind (match data_sizes !! idx with
               | Some s => Ok s
               | None => Err IndexError
               end) (fun data_size =>
  result_bind (unpack_sensor_data data_size data) (fun sensor_data =>
  translate_enum name sensor_data sensor_enum)).

(** How many of the fields [names], the first of which is at position
    [idx], the loop gets through: the fields before the first one whose
    value cannot be computed. *)
Fixpoint leading_fields (data : list byte) (data_sizes : list (option string))
    (sensor_enum : gmap string (list string)) (idx : nat) (names : list string) : nat :=
  match names with
  | [] => 0
  | name :: rest =>
      match field_value data data_sizes sensor_enum idx name with
      | Ok _ => S (leading_fields data data_sizes sensor_enum (S idx) rest)
      | Err _ => 0
      end
  end.

(** A ClawState frame with id 4 (state 1, flags 0). *)
Definition sample_claw_frame_4 : list byte :=
  [Byte.x02; Byte.x05; Byte.x02; Byte.x0f; Byte.x01; Byte.x00;
   Byte.x04; Byte.x01; Byte.x00].

(** ** Sending over a link that may fail *)

(** A flag other than that of SEND_WITH_ACK. *)
Definition is_other_flag (c : Channel) (val : bool) : Prop := c <> SEND_WITH_ACK.
(** * Properties *)

(** ** Bytes *)

Lemma Z_of_byte_range (b : byte) : 0 <= Z_of_byte b <= 255.
Proof.
  unfold Z_of_byte. pose proof (Byte.to_N_bounded b). lia.
Qed.

Lemma Z_of_byte_of_Z (z : Z) : Z_of_byte (byte_of_Z z) = z mod 256.
Proof.
  unfold byte_of_Z, Z_of_byte.
  pose proof (Z.mod_pos_bound z 256 ltac:(lia)) as Hb.
  destruct (Byte.of_N (Z.to_N (z mod 256))) as [b|] eqn:E.
  - apply Byte.to_of_N in E. rewrite E. lia.
  - apply Byte.of_N_None_iff in E. lia.
Qed.

Lemma pack_int_fits (f : int_format) (v : Z) :
  fmt_min f <= v <= fmt_max f -> pack_int f v = Ok (le_encode (fmt_width f) v).
Proof.
  intros [H1 H2]. unfold pack_int.
  apply Z.leb_le in H1, H2. by rewrite H1, H2.
Qed.

(** ** C10: [flip] with a direction that is not one of the four *)

Lemma flip_message_raises (direction : string) :
  py_format "Error: %s is not a valid direction.  Must be one of %s" [direction]
  = Err TypeError.
Proof.
  reflexivity.
Qed.

(** C10.  For every direction other than "front", "back", "right" and "left",
    [flip] writes nothing and changes no counter and no flag (the state is
    left as it was), but it does not return [None]: formatting the error
    message raises [TypeError], since the format has two conversions and is
    given [direction] alone. *)
Theorem C10_flip_invalid_direction_raises (direction : string) (st : Mambo) :
  direction ∉ ["front"; "back"; "right"; "left"]%string ->
  flip direction st = (Raise TypeError, st).
Proof.
  intros Hdir. unfold flip.
  rewrite bool_decide_eq_false_2 by done.
  cbn [negb]. unfold mbind, M_bind, lift.
  by rewrite flip_message_raises.
Qed.

Lemma C10_flip_up_witness :
  flip "up" (sample_connected [] []) = (Raise TypeError, sample_connected [] []).
Proof.
  apply C10_flip_invalid_direction_raises.
  apply (bool_decide_unpack _). vm_compute. exact I.
Defined.

(** ** C9: the retry budget of [connect] and [_reconnect] *)

Lemma link_call_failed (st : Mambo) (rest : list bool) :
  link_script (drone st) = true :: rest ->
  link_call st = (Raise BTLEException, set_drone (set_link_script rest (drone st)) st).
Proof.
  intros H. unfold link_call, mbind, M_bind, get_self. rewrite H. reflexivity.
Qed.

Lemma set_link_script_twice (l1 l2 : list bool) (st : Mambo) :
  set_drone (set_link_script l2 (drone (set_drone (set_link_script l1 (drone st)) st)))
            (set_drone (set_link_script l1 (drone st)) st)
  = set_drone (set_link_script l2 (drone st)) st.
Proof. reflexivity. Qed.

Lemma connect_loop_all_fail (n fuel : nat) (try_num num_retries : Z) (st : Mambo)
    (rest : list bool) :
  Z.of_nat n = num_retries - try_num ->
  (n <= fuel)%nat ->
  link_script (drone st) = replicate n true ++ rest ->
  connect_loop fuel try_num num_retries st
  = (Ret false, set_drone (set_link_script rest (drone st)) st).
Proof.
  revert fuel try_num st.
  induction n as [|n IH]; intros fuel try_num st Hn Hfuel Hscript.
  - destruct fuel; cbn [connect_loop];
      (replace (try_num <? num_retries) with false by (symmetry; apply Z.ltb_ge; lia));
      cbn in Hscript; rewrite <- Hscript; by destruct st as [[]].
  - destruct fuel as [|fuel]; [lia|].
    cbn [connect_loop].
    replace (try_num <? num_retries) with true by (symmetry; apply Z.ltb_lt; lia).
    unfold mbind at 1. unfold M_bind at 1.
    unfold try_except_BTLE at 1.
    unfold _connect, drone_connect. unfold mbind at 1 2, M_bind at 1 2.
    rewrite (link_call_failed st (replicate n true ++ rest)) by done.
    cbn [mret M_ret].
    rewrite (IH fuel (try_num + 1)); [ |lia|lia|reflexivity].
    reflexivity.
Qed.

(** C9.  [connect(num_retries)] gives up after [num_retries - 1] failed
    attempts: when the link fails that many times in a row the method returns
    [False] and leaves the rest of the script -- a further attempt is never
    made, not even when it would succeed. *)
Theorem C9_connect_gives_up_one_attempt_early (num_retries : Z) (st : Mambo)
    (rest : list bool) :
  1 <= num_retries ->
  link_script (drone st) = replicate (Z.to_nat (num_retries - 1)) true ++ rest ->
  connect num_retries st = (Ret false, set_drone (set_link_script rest (drone st)) st).
Proof.
  intros Hn Hscript. unfold connect.
  apply (connect_loop_all_fail (Z.to_nat (num_retries - 1))); [lia|lia|done].
Qed.

Lemma C9_connect_3_witness :
  connect 3 (sample_mambo [true; true; false] [])
  = (Ret false, sample_mambo [false] []).
Proof.
  apply (C9_connect_gives_up_one_attempt_early 3 (sample_mambo [true; true; false] []) [false]).
  - lia.
  - reflexivity.
Defined.

(** ** C7: an inbound frame shorter than the header *)

Lemma unpack_header_short (data : list byte) :
  (length data < 6)%nat -> unpack_header data = Err StructError.
Proof.
  intros H. do 6 (destruct data as [|? data]; [reflexivity|]).
  cbn in H. lia.
Qed.

Lemma update_sensors_short (data : list byte) (ack : bool) (st : Mambo) :
  (length data < 6)%nat -> _update_sensors data ack st = (Raise StructError, st).
Proof.
  intros H. unfold _update_sensors, mbind, M_bind, lift.
  by rewrite unpack_header_short.
Qed.

(** C7, as the code has it.  A frame of fewer than 6 bytes makes
    [_update_sensors] raise [struct.error] before anything is changed or
    written; [handleNotification] does not catch it, so for a notification on
    either data channel the error leaves the delegate, with the state as it
    was. *)
Theorem C7_short_frame_raises (handle_map : gmap Z string) (cHandle : Z) (hex : string)
    (data : list byte) (st : Mambo) :
  (length data < 6)%nat ->
  handle_map !! cHandle = Some hex ->
  hex = "0e"%string \/ hex = "0f"%string ->
  handleNotification handle_map cHandle data st = (Raise StructError, st)
  /\ forall ack, _update_sensors data ack st = (Raise StructError, st).
Proof.
  intros Hlen Hh Hhex. split; [|intros; by apply update_sensors_short].
  unfold handleNotification, mbind at 1, M_bind at 1, lift at 1. rewrite Hh.
  destruct Hhex as [-> | ->]; cbn; by apply update_sensors_short.
Qed.

Lemma C7_short_frame_witness :
  handleNotification (handle_map sample_services) 31 [Byte.x02; Byte.x05; Byte.x02]
                     (sample_connected [] [])
  = (Raise StructError, sample_connected [] [])
  /\ forall ack, _update_sensors [Byte.x02; Byte.x05; Byte.x02] ack (sample_connected [] [])
                 = (Raise StructError, sample_connected [] []).
Proof.
  apply (C7_short_frame_raises _ 31 "0f").
  - cbn. lia.
  - reflexivity.
  - by right.
Defined.

(** The claim as stated fails: a 3-byte notification on NO_ACK_DRONE_DATA is
    not dropped by the delegate, and inside [fly_direct] the error ends the
    call. *)
Lemma C7_short_frame_not_dropped :
  (handleNotification (handle_map sample_services) 31 [Byte.x02; Byte.x05; Byte.x02]
                      (sample_connected [] [])).1 = Raise StructError
  /\ (fly_direct 0 0 0 0 1000
        (sample_connected [] [Incoming 31 [Byte.x02; Byte.x05; Byte.x02]; Silence])).1
     = Raise StructError.
Proof. split; vm_compute; reflexivity. Qed.

(** ** C3: translating an enum index in [MamboSensors.update] *)

Lemma py_list_index_in_range {A} (lst : list A) (i : nat) (a : A) :
  lst !! i = Some a -> py_list_index lst (PyInt (Z.of_nat i)) = Ok a.
Proof.
  intros H. pose proof (lookup_lt_Some _ _ _ H) as Hlt.
  unfold py_list_index.
  replace (Z.of_nat i <? 0) with false by (symmetry; apply Z.ltb_ge; lia).
  replace (0 <=? Z.of_nat i) with true by (symmetry; apply Z.leb_le; lia).
  replace (Z.of_nat i <? Z.of_nat (length lst)) with true by (symmetry; apply Z.ltb_lt; lia).
  cbn [andb]. by rewrite Nat2Z.id, H.
Qed.

Lemma py_list_index_at_length {A} (lst : list A) :
  py_list_index lst (PyInt (Z.of_nat (length lst))) = Err IndexError.
Proof.
  unfold py_list_index.
  replace (Z.of_nat (length lst) <? 0) with false by (symmetry; apply Z.ltb_ge; lia).
  replace (Z.of_nat (length lst) <? Z.of_nat (length lst)) with false
    by (symmetry; apply Z.ltb_ge; lia).
  by rewrite andb_false_r.
Qed.

(** An index in range is translated to the member name at that position. *)
Lemma update_enum_in_range (name member : string) (members : list string) (i : nat)
    (sensor_enum : gmap string (list string)) (s : MamboSensors) :
  sensor_enum !! name = Some members ->
  members !! i = Some member ->
  update name (PyInt (Z.of_nat i)) sensor_enum s = Ok (store name (PyStr member) s).
Proof.
  intros Hname Hi. pose proof (lookup_lt_Some _ _ _ Hi) as Hlt.
  unfold update, translate_enum. rewrite Hname. cbn [py_gt_int].
  replace (Z.of_nat (length members) <? Z.of_nat i) with false
    by (symmetry; apply Z.ltb_ge; lia).
  by rewrite (py_list_index_in_range _ _ _ Hi).
Qed.

(** An index above the length of the member list gives the sentinel. *)
Lemma update_enum_above_length (name : string) (members : list string) (z : Z)
    (sensor_enum : gmap string (list string)) (s : MamboSensors) :
  sensor_enum !! name = Some members ->
  Z.of_nat (length members) < z ->
  update name (PyInt z) sensor_enum s = Ok (store name (PyStr "UNKNOWN_ENUM_VALUE") s).
Proof.
  intros Hname Hz. unfold update, translate_enum. rewrite Hname. cbn [py_gt_int].
  by replace (Z.of_nat (length members) <? z) with true by (symmetry; apply Z.ltb_lt; lia).
Qed.

(** C3.  The index equal to the length of the member list -- the first one
    out of range -- is not replaced by the sentinel: the test is
    [value > len(...)], so the list is indexed and [IndexError] is raised. *)
Theorem C3_update_enum_index_at_length_raises (name : string) (members : list string)
    (sensor_enum : gmap string (list string)) (s : MamboSensors) :
  sensor_enum !! name = Some members ->
  update name (PyInt (Z.of_nat (length members))) sensor_enum s = Err IndexError.
Proof.
  intros Hname. unfold update, translate_enum. rewrite Hname. cbn [py_gt_int].
  rewrite Z.ltb_irrefl. by rewrite py_list_index_at_length.
Qed.

Lemma C3_flying_state_8_witness :
  update "FlyingStateChanged_state" (PyInt 8)
         {[ "FlyingStateChanged_state"%string := flying_states ]} MamboSensors_init
  = Err IndexError.
Proof.
  apply (C3_update_enum_index_at_length_raises "FlyingStateChanged_state" flying_states).
  reflexivity.
Defined.

(** ** C6: the caches of the resolvers *)

Ltac munfold :=
  unfold read_xml in *;
  unfold mbind, M_bind, mret, M_ret, lift, modify, get_self, raise, out_of_fuel in *.

Lemma search_command_tuple_found (project : XmlProject) (myclass cmd : string)
    (t : Z * Z * Z) (st st1 : Mambo) :
  search_command_tuple project myclass cmd st = (Ret (Some t), st1) ->
  command_tuple_cache st1 !! (myclass, cmd) = Some t.
Proof.
  unfold search_command_tuple. munfold.
  destruct (children (project_myclass project)) as [classes|]; [|discriminate].
  destruct (find_class_cmd myclass cmd classes) as [[[c i]|]|]; intros [= <- <-].
  cbn. apply lookup_insert_eq.
Qed.

Lemma search_command_tuple_missed (project : XmlProject) (myclass cmd : string)
    (st st1 : Mambo) :
  search_command_tuple project myclass cmd st = (Ret None, st1) ->
  st1 = st /\ forall st', search_command_tuple project myclass cmd st' = (Ret None, st').
Proof.
  unfold search_command_tuple. munfold.
  destruct (children (project_myclass project)) as [classes|]; [|discriminate].
  destruct (find_class_cmd myclass cmd classes) as [[[c i]|]|]; intros [= <-]. done.
Qed.

Lemma get_command_tuple_hit (myclass cmd : string) (t : Z * Z * Z) (st : Mambo) :
  command_tuple_cache st !! (myclass, cmd) = Some t ->
  _get_command_tuple myclass cmd st = (Ret (Some t), st).
Proof.
  intros H. unfold _get_command_tuple. munfold. by rewrite H.
Qed.

Lemma get_command_tuple_found (myclass cmd : string) (t : Z * Z * Z) (st st1 : Mambo) :
  _get_command_tuple myclass cmd st = (Ret (Some t), st1) ->
  command_tuple_cache st1 !! (myclass, cmd) = Some t.
Proof.
  unfold _get_command_tuple. munfold.
  destruct (command_tuple_cache st !! (myclass, cmd)) as [t0|] eqn:Hc.
  { by intros [= <- <-]. }
  destruct (search_command_tuple _ myclass cmd _) as [[[t1|]| |] st2] eqn:E1;
    [| |discriminate..].
  { intros [= <- <-]. by apply search_command_tuple_found in E1. }
  intros E2. by apply search_command_tuple_found in E2.
Qed.

Lemma get_command_tuple_missed (myclass cmd : string) (st st1 : Mambo) :
  _get_command_tuple myclass cmd st = (Ret None, st1) ->
  st1 = set_xml_reads (S (S (xml_reads st))) st
  /\ _get_command_tuple myclass cmd st1
     = (Ret None, set_xml_reads (S (S (xml_reads st1))) st1).
Proof.
  unfold _get_command_tuple. munfold.
  destruct (command_tuple_cache st !! (myclass, cmd)) as [t0|] eqn:Hc; [discriminate|].
  destruct (search_command_tuple _ myclass cmd _) as [[[t1|]| |] st2] eqn:E1;
    [discriminate| |discriminate..].
  apply search_command_tuple_missed in E1 as [-> E1].
  intros E2. apply search_command_tuple_missed in E2 as [-> E2].
  split; [reflexivity|].
  cbn. rewrite Hc. cbn in *. rewrite E1. cbn. by rewrite E2.
Qed.

Lemma search_command_tuple_with_enum_found (project : XmlProject)
    (myclass cmd enum_name : string) (t : (Z * Z * Z) * Z) (st st1 : Mambo) :
  search_command_tuple_with_enum project myclass cmd enum_name st = (Ret (Some t), st1) ->
  command_tuple_cache_enum st1 !! (myclass, cmd, enum_name) = Some t.
Proof.
  unfold search_command_tuple_with_enum. munfold.
  destruct (children (project_myclass project)) as [classes|]; [|discriminate].
  destruct (find_class_cmd_enum myclass cmd enum_name classes) as [[[[c i] e]|]|];
    intros [= <- <-].
  cbn. apply lookup_insert_eq.
Qed.

Lemma get_command_tuple_with_enum_hit (myclass cmd enum_name : string)
    (t : (Z * Z * Z) * Z) (st : Mambo) :
  command_tuple_cache_enum st !! (myclass, cmd, enum_name) = Some t ->
  _get_command_tuple_with_enum myclass cmd enum_name st = (Ret (Some t), st).
Proof.
  intros H. unfold _get_command_tuple_with_enum. munfold. by rewrite H.
Qed.

Lemma get_command_tuple_with_enum_found (myclass cmd enum_name : string)
    (t : (Z * Z * Z) * Z) (st st1 : Mambo) :
  _get_command_tuple_with_enum myclass cmd enum_name st = (Ret (Some t), st1) ->
  command_tuple_cache_enum st1 !! (myclass, cmd, enum_name) = Some t.
Proof.
  unfold _get_command_tuple_with_enum. munfold.
  destruct (command_tuple_cache_enum st !! (myclass, cmd, enum_name)) as [t0|] eqn:Hc.
  { by intros [= <- <-]. }
  destruct (search_command_tuple_with_enum _ myclass cmd enum_name _)
    as [[[t1|]| |] st2] eqn:E1; [| |discriminate..].
  { intros [= <- <-]. by apply search_command_tuple_with_enum_found in E1. }
  intros E2. by apply search_command_tuple_with_enum_found in E2.
Qed.

Lemma search_sensor_tuple_found (project : XmlProject) (key : Z * Z * Z * Z)
    (found : list string * list (option string)) (st st1 : Mambo) :
  search_sensor_tuple project key st = (Ret (Some found), st1) ->
  sensor_tuple_cache st1 !! key = Some (Some found).
Proof.
  unfold search_sensor_tuple. destruct key as [[[p c] i] e].
  destruct (p =? project_id project); munfold; [|discriminate].
  destruct (children (project_myclass project)) as [classes|]; [|discriminate].
  destruct (find_class_cmd_by_id c i classes) as [[cmd_child|]|]; [|discriminate..].
  destruct (describe_cmd cmd_child st) as [[r| |] st2]; [|discriminate..].
  intros [= <- <-]. cbn. apply lookup_insert_eq.
Qed.

Lemma parse_sensor_tuple_hit (ack_id packet_id p c i e : Z)
    (r : option (list string * list (option string))) (st : Mambo) :
  sensor_tuple_cache st !! (p, c, i, e) = Some r ->
  _parse_sensor_tuple (ack_id, packet_id, p, c, i, e) st = (Ret r, st).
Proof.
  intros H. unfold _parse_sensor_tuple. munfold. by rewrite H.
Qed.

Lemma parse_sensor_tuple_cached (ack_id packet_id p c i e : Z)
    (r : option (list string * list (option string))) (st st1 : Mambo) :
  _parse_sensor_tuple (ack_id, packet_id, p, c, i, e) st = (Ret r, st1) ->
  sensor_tuple_cache st1 !! (p, c, i, e) = Some r.
Proof.
  unfold _parse_sensor_tuple. munfold.
  destruct (sensor_tuple_cache st !! (p, c, i, e)) as [r0|] eqn:Hc.
  { by intros [= <- <-]. }
  destruct (search_sensor_tuple _ (p, c, i, e) _) as [[[f1|]| |] st2] eqn:E1;
    [| |discriminate..].
  { intros [= <- <-]. by apply search_sensor_tuple_found in E1. }
  match goal with
  | |- context [search_sensor_tuple ?x ?k ?s] =>
      destruct (search_sensor_tuple x k s) as [[[f2|]| |] st3] eqn:E2; [| |discriminate..]
  end.
  { intros [= <- <-]. by apply search_sensor_tuple_found in E2. }
  intros [= <- <-]. cbn. apply lookup_insert_eq.
Qed.

(** C6, as the code has it.  A name key that was found, and a header tuple
    whether found or not, is answered from the cache the second time: the
    same result, and nothing changes -- the XML trees are not read again.  A
    name key that was not found is not cached: the second resolution gives the
    same [None] after reading both XML trees once more. *)
Theorem C6_resolution_cache (st : Mambo) :
  (forall myclass cmd t st1,
      _get_command_tuple myclass cmd st = (Ret (Some t), st1) ->
      _get_command_tuple myclass cmd st1 = (Ret (Some t), st1))
  /\ (forall myclass cmd enum_name t st1,
      _get_command_tuple_with_enum myclass cmd enum_name st = (Ret (Some t), st1) ->
      _get_command_tuple_with_enum myclass cmd enum_name st1 = (Ret (Some t), st1))
  /\ (forall header r st1,
      _parse_sensor_tuple header st = (Ret r, st1) ->
      _parse_sensor_tuple header st1 = (Ret r, st1))
  /\ (forall myclass cmd st1,
      _get_command_tuple myclass cmd st = (Ret None, st1) ->
      exists st2, _get_command_tuple myclass cmd st1 = (Ret None, st2)
                  /\ xml_reads st2 = S (S (xml_reads st1))).
Proof.
  repeat split.
  - intros myclass cmd t st1 H.
    by apply get_command_tuple_hit, (get_command_tuple_found _ _ _ st).
  - intros myclass cmd enum_name t st1 H.
    by apply get_command_tuple_with_enum_hit, (get_command_tuple_with_enum_found _ _ _ _ st).
  - intros [[[[[ack_id packet_id] p] c] i] e] r st1 H.
    by apply parse_sensor_tuple_hit, (parse_sensor_tuple_cached ack_id packet_id _ _ _ _ _ st).
  - intros myclass cmd st1 H.
    apply get_command_tuple_missed in H as [_ H]. eauto.
Qed.

Lemma C6_resolution_cache_witness :
  let st := sample_mambo [] [] in
  let st1 := (_get_command_tuple "Piloting" "TakeOff" st).2 in
  let st1' := (_parse_sensor_tuple (2, 7, 9, 9, 9, 0) st).2 in
  _get_command_tuple "Piloting" "TakeOff" st1 = (Ret (Some (2, 0, 1)), st1)
  /\ _parse_sensor_tuple (2, 7, 9, 9, 9, 0) st1' = (Ret None, st1').
Proof.
  cbv zeta. split.
  - apply (proj1 (C6_resolution_cache (sample_mambo [] []))). reflexivity.
  - apply (proj1 (proj2 (proj2 (C6_resolution_cache (sample_mambo [] []))))). reflexivity.
Defined.

(** The claim as stated fails for a name that is in neither XML file: the
    first resolution reads both trees and the second reads both again. *)
Lemma C6_miss_is_searched_again :
  let st := sample_mambo [] [] in
  let st1 := (_get_command_tuple "Piloting" "Loop" st).2 in
  let st2 := (_get_command_tuple "Piloting" "Loop" st1).2 in
  (_get_command_tuple "Piloting" "Loop" st).1 = Ret None
  /\ (_get_command_tuple "Piloting" "Loop" st1).1 = Ret None
  /\ xml_reads st = 0%nat /\ xml_reads st1 = 2%nat /\ xml_reads st2 = 4%nat
  /\ command_tuple_cache st1 !! ("Piloting"%string, "Loop"%string) = None.
Proof. vm_compute. repeat split. Qed.

(** ** What a method may change *)


Section framed_rules.
Context (R : relation Mambo) `{!PreOrder R}.

Lemma framed_ret {A} (a : A) : framed R (mret a).
Proof. intros st. cbn. reflexivity. Qed.

Lemma framed_lift {A} (r : result A) : framed R (lift r).
Proof. intros st. destruct r; cbn; reflexivity. Qed.

Lemma framed_raise {A} (e : exn) : framed R (@raise A e).
Proof. intros st. cbn. reflexivity. Qed.

Lemma framed_out_of_fuel {A} : framed R (@out_of_fuel A).
Proof. intros st. cbn. reflexivity. Qed.

Lemma framed_get_self : framed R get_self.
Proof. intros st. cbn. reflexivity. Qed.

Lemma framed_modify (g : Mambo -> Mambo) : (forall st, R st (g st)) -> framed R (modify g).
Proof. intros H st. apply H. Qed.

Lemma framed_bind {A B} (m : M A) (f : A -> M B) :
  framed R m -> (forall a, framed R (f a)) -> framed R (m ≫= f).
Proof.
  intros Hm Hf st. specialize (Hm st).
  unfold mbind, M_bind. destruct (m st) as [[a|e|] st1]; cbn in *; [|done..].
  etrans; [exact Hm|apply Hf].
Qed.

(** Reading [self] and going on with what was read. *)
Lemma framed_get_bind {A} (f : Mambo -> M A) :
  (forall st, R st (f st st).2) -> framed R (get_self ≫= f).
Proof. intros H st. apply H. Qed.

Lemma framed_try_except_BTLE {A} (body handler : M A) :
  framed R body -> framed R handler -> framed R (try_except_BTLE body handler).
Proof.
  intros Hb Hh st. specialize (Hb st). unfold try_except_BTLE.
  destruct (body st) as [[a|[]|] st1]; cbn in *; try done.
  etrans; [exact Hb|apply Hh].
Qed.

Lemma framed_try_except {A} (body handler : M A) :
  framed R body -> framed R handler -> framed R (try_except body handler).
Proof.
  intros Hb Hh st. specialize (Hb st). unfold try_except.
  destruct (body st) as [[a|e|] st1]; cbn in *; try done.
  etrans; [exact Hb|apply Hh].
Qed.
End framed_rules.

Lemma framed_mono {A} (R R' : relation Mambo) (m : M A) :
  (forall st st', R st st' -> R' st st') -> framed R m -> framed R' m.
Proof. intros H Hm st. apply H, Hm. Qed.

(** One step of a proof that a method is [framed]: through a bind, a
    [try], a branch, or by a rule in the database [framed]. *)
Create HintDb framed discriminated.

Ltac framed_step :=
  lazymatch goal with
  | |- framed _ (mret _) => apply framed_ret
  | |- framed _ (lift _) => apply framed_lift
  | |- framed _ (raise _) => apply framed_raise
  | |- framed _ out_of_fuel => apply framed_out_of_fuel
  | |- framed _ (_ ≫= _) => apply framed_bind; [try typeclasses eauto| |intros ?]
  | |- framed _ (try_except_BTLE _ _) => apply framed_try_except_BTLE; [try typeclasses eauto| |]
  | |- framed _ (try_except _ _) => apply framed_try_except; [try typeclasses eauto| |]
  | |- framed _ (match ?x with _ => _ end) => destruct x
  | |- framed _ (let (_, _) := ?x in _) => destruct x
  | |- framed _ (if ?b then _ else _) => destruct b
  end.

Ltac framed_auto := repeat first [framed_step | solve [eauto 2 with framed]].

(** *** Link-level calls: only the peripheral changes *)



#[global] Instance link_only_preorder (W : Written -> Prop) : PreOrder (link_only W).
Proof.
  split.
  - intros st. exists (link_script (drone st)), []. split; [done|]. split; [done|].
    by destruct st as [[]].
  - intros st1 st2 st3 (l & news & Hl & Hn & ->) (l' & news' & Hl' & Hn' & ->).
    exists l', (news' ++ news). cbn in *. split; [by etrans|].
    split; [by apply Forall_app|]. by rewrite <- app_assoc.
Qed.

Lemma link_only_mono (W W' : Written -> Prop) (st st' : Mambo) :
  (forall w, W w -> W' w) -> link_only W st st' -> link_only W' st st'.
Proof.
  intros H (l & news & Hl & Hn & ->). exists l, news.
  split; [done|]. split; [|done]. eapply Forall_impl; eauto.
Qed.

Lemma link_call_framed (W : Written -> Prop) : framed (link_only W) link_call.
Proof.
  intros st. unfold link_call. munfold.
  destruct (link_script (drone st)) as [|failed rest] eqn:E; cbn.
  - reflexivity.
  - assert (link_only W st (set_drone (set_link_script rest (drone st)) st)).
    { exists rest, []. rewrite E. split; [by apply suffix_cons_r|]. split; [done|].
      by destruct st as [[]]. }
    by destruct failed.
Qed.

Lemma log_written_framed (W : Written -> Prop) (w : Written) :
  W w -> framed (link_only W) (log_written w).
Proof.
  intros Hw st. exists (link_script (drone st)), [w].
  split; [done|]. split; [by apply Forall_singleton|]. by destruct st as [[]].
Qed.

Lemma characteristic_write_framed (W : Written -> Prop) (c : Channel) (packet : list byte) :
  W (ToCharacteristic c packet) -> framed (link_only W) (characteristic_write c packet).
Proof.
  intros Hw. unfold characteristic_write.
  apply framed_bind; [typeclasses eauto|apply link_call_framed|intros _].
  by apply log_written_framed.
Qed.

Lemma drone_writeCharacteristic_framed (W : Written -> Prop) (handle : Z) (value : list byte) :
  (forall w, is_handle_write w -> W w) ->
  framed (link_only W) (drone_writeCharacteristic handle value).
Proof.
  intros Hw. unfold drone_writeCharacteristic.
  apply framed_bind; [typeclasses eauto|apply link_call_framed|intros _].
  apply log_written_framed, Hw. exact I.
Qed.

Lemma perform_handshake_loop_framed (W : Written -> Prop) (handles : list Z) :
  (forall w, is_handle_write w -> W w) ->
  framed (link_only W) (perform_handshake_loop handles).
Proof.
  intros Hw. induction handles as [|handle rest IH]; cbn [perform_handshake_loop].
  - apply framed_ret; typeclasses eauto.
  - apply framed_bind; [typeclasses eauto|apply framed_lift; typeclasses eauto|intros value].
    apply framed_bind; [typeclasses eauto| |intros _; exact IH].
    by apply drone_writeCharacteristic_framed.
Qed.

Lemma perform_handshake_framed (W : Written -> Prop) :
  (forall w, is_handle_write w -> W w) -> framed (link_only W) _perform_handshake.
Proof.
  intros Hw. unfold _perform_handshake.
  apply framed_bind; [typeclasses eauto|apply framed_get_self; typeclasses eauto|intros st].
  by apply perform_handshake_loop_framed.
Qed.

Lemma reconnect_loop_framed (W : Written -> Prop) (fuel : nat) (try_num num_retries : Z) :
  framed (link_only W) (reconnect_loop fuel try_num num_retries).
Proof.
  revert try_num. induction fuel as [|fuel IH]; intros try_num; cbn [reconnect_loop];
    destruct (try_num <? num_retries); try (apply framed_ret || apply framed_out_of_fuel);
    try typeclasses eauto.
  apply framed_bind; [typeclasses eauto| |intros []; [apply framed_ret; typeclasses eauto|apply IH]].
  apply framed_try_except_BTLE; [typeclasses eauto| |apply framed_ret; typeclasses eauto].
  apply framed_bind; [typeclasses eauto|apply link_call_framed|intros _].
  apply framed_ret; typeclasses eauto.
Qed.

Lemma reconnect_framed (W : Written -> Prop) (num_retries : Z) :
  (forall w, is_handle_write w -> W w) -> framed (link_only W) (_reconnect num_retries).
Proof.
  intros Hw. unfold _reconnect.
  apply framed_bind; [typeclasses eauto|apply reconnect_loop_framed|intros success].
  apply framed_bind; [typeclasses eauto| |intros _; apply framed_ret; typeclasses eauto].
  destruct success; [by apply perform_handshake_framed|apply framed_ret; typeclasses eauto].
Qed.


Lemma safe_ble_write_loop_framed (fuel : nat) (c : Channel) (packet : list byte) :
  framed (link_only (safe_write_of c packet)) (safe_ble_write_loop fuel c packet).
Proof.
  induction fuel as [|fuel IH]; cbn [safe_ble_write_loop].
  - apply framed_out_of_fuel; typeclasses eauto.
  - apply framed_bind; [typeclasses eauto| |intros []; [apply framed_ret; typeclasses eauto|apply IH]].
    apply framed_try_except_BTLE; [typeclasses eauto| |].
    + apply framed_bind; [typeclasses eauto| |intros _; apply framed_ret; typeclasses eauto].
      apply characteristic_write_framed. by left.
    + apply framed_bind; [typeclasses eauto| |intros _; apply framed_ret; typeclasses eauto].
      apply reconnect_framed. intros w Hw. by right.
Qed.

Lemma safe_ble_write_framed (c : Channel) (packet : list byte) :
  framed (link_only (safe_write_of c packet)) (_safe_ble_write c packet).
Proof.
  unfold _safe_ble_write.
  apply framed_bind; [typeclasses eauto|apply framed_get_self; typeclasses eauto|intros st].
  apply safe_ble_write_loop_framed.
Qed.

(** *** Handling a notification: sensors, caches, the ack counter, the flags *)


#[global] Instance quiet_preorder : PreOrder quiet.
Proof.
  split.
  - intros st. by repeat split.
  - intros st1 st2 st3 H12 H23. unfold quiet in *.
    destruct H12 as (?&?&?&?&?&?&?&?), H23 as (?&?&?&?&?&?&?&?).
    repeat split; congruence.
Qed.

Lemma scan_args_quiet (cmd_name : string) (args : list XmlArg) :
  framed quiet (scan_args cmd_name args).
Proof.
  induction args as [|arg_child rest IH]; cbn [scan_args].
  - apply framed_ret; typeclasses eauto.
  - apply framed_bind; [typeclasses eauto| |intros _].
    + destruct (String.eqb _ _); [|apply framed_ret; typeclasses eauto].
      apply framed_bind; [typeclasses eauto|apply framed_lift; typeclasses eauto|intros names].
      apply framed_modify. intros st. by repeat split.
    + apply framed_bind; [typeclasses eauto|exact IH|intros r].
      apply framed_ret; typeclasses eauto.
Qed.

Lemma describe_cmd_quiet (cmd_child : XmlCmd) : framed quiet (describe_cmd cmd_child).
Proof.
  unfold describe_cmd. destruct (cmd_arg cmd_child) eqn:E.
  - apply framed_ret; typeclasses eauto.
  - apply scan_args_quiet.
Qed.

Lemma search_sensor_tuple_quiet (project : XmlProject) (key : Z * Z * Z * Z) :
  framed quiet (search_sensor_tuple project key).
Proof.
  unfold search_sensor_tuple. destruct key as [[[p c] i] e].
  destruct (p =? project_id project); [|apply framed_ret; typeclasses eauto].
  apply framed_bind; [typeclasses eauto|apply framed_lift; typeclasses eauto|intros classes].
  apply framed_bind; [typeclasses eauto|apply framed_lift; typeclasses eauto|intros [cmd_child|]];
    [|apply framed_ret; typeclasses eauto].
  apply framed_bind; [typeclasses eauto|apply describe_cmd_quiet|intros r].
  apply framed_bind; [typeclasses eauto| |intros _; apply framed_ret; typeclasses eauto].
  apply framed_modify. intros st. by repeat split.
Qed.

Lemma read_xml_quiet (which : Mambo -> XmlProject) : framed quiet (read_xml which).
Proof.
  unfold read_xml.
  apply framed_bind; [typeclasses eauto| |intros _].
  - apply framed_modify. intros st. by repeat split.
  - apply framed_bind; [typeclasses eauto|apply framed_get_self; typeclasses eauto|intros st].
    apply framed_ret; typeclasses eauto.
Qed.

Lemma parse_sensor_tuple_quiet (sensor_tuple : Z * Z * Z * Z * Z * Z) :
  framed quiet (_parse_sensor_tuple sensor_tuple).
Proof.
  unfold _parse_sensor_tuple. destruct sensor_tuple as [[[[[a k] p] c] i] e].
  apply framed_bind; [typeclasses eauto|apply framed_get_self; typeclasses eauto|intros st].
  destruct (sensor_tuple_cache st !! _); [apply framed_ret; typeclasses eauto|].
  apply framed_bind; [typeclasses eauto|apply read_xml_quiet|intros minidrone].
  apply framed_bind; [typeclasses eauto|apply search_sensor_tuple_quiet|intros [found|]];
    [apply framed_ret; typeclasses eauto|].
  apply framed_bind; [typeclasses eauto|apply read_xml_quiet|intros common].
  apply framed_bind; [typeclasses eauto|apply search_sensor_tuple_quiet|intros [found|]];
    [apply framed_ret; typeclasses eauto|].
  apply framed_bind; [typeclasses eauto| |intros _; apply framed_ret; typeclasses eauto].
  apply framed_modify. intros st'. by repeat split.
Qed.

Lemma update_each_quiet (names : list string) (idx : nat) (data_sizes : list (option string))
    (data : list byte) :
  framed quiet (update_each names idx data_sizes data).
Proof.
  revert idx. induction names as [|name rest IH]; intros idx; cbn [update_each].
  - apply framed_ret; typeclasses eauto.
  - apply framed_bind; [typeclasses eauto|apply framed_lift; typeclasses eauto|intros data_size].
    apply framed_bind; [typeclasses eauto|apply framed_lift; typeclasses eauto|intros sensor_data].
    apply framed_bind; [typeclasses eauto|apply framed_get_self; typeclasses eauto|intros st].
    apply framed_bind; [typeclasses eauto|apply framed_lift; typeclasses eauto|intros s].
    apply framed_bind; [typeclasses eauto| |intros _; apply IH].
    apply framed_modify. intros st'. by repeat split.
Qed.




#[global] Instance polls_kept_preorder : PreOrder polls_kept.
Proof. unfold polls_kept. typeclasses eauto. Qed.

#[global] Instance polls_used_preorder : PreOrder polls_used.
Proof.
  split.
  - intros l. by unfold polls_used.
  - intros l1 l2 l3 H12 H23. unfold polls_used in *. by etrans.
Qed.

#[global] Instance background_preorder (P : relation (list Poll)) `{!PreOrder P}
    (W : Written -> Prop) (F : Channel -> bool -> Prop) : PreOrder (background P W F).
Proof.
  split.
  - intros st. split; try done; [by left|]. by exists [].
  - intros st1 st2 st3 H12 H23. destruct H12, H23. split; try congruence.
    + intros c Hc. rewrite bg_counter1, bg_counter0; done.
    + intros c. destruct (bg_flags1 c) as [E|E]; [rewrite E; apply bg_flags0|by right].
    + by etrans.
    + by etrans.
    + destruct bg_written0 as (n1 & E1 & F1), bg_written1 as (n2 & E2 & F2).
      exists (n2 ++ n1). rewrite E2, E1, app_assoc. split; [done|by apply Forall_app].
Qed.

Lemma background_mono (P P' : relation (list Poll)) (W W' : Written -> Prop)
    (F F' : Channel -> bool -> Prop) (st st' : Mambo) :
  (forall l l', P l l' -> P' l l') ->
  (forall w, W w -> W' w) -> (forall c b, F c b -> F' c b) ->
  background P W F st st' -> background P' W' F' st st'.
Proof.
  intros HP HW HF []. split; try done.
  - intros c. destruct (bg_flags0 c); [by left|right; auto].
  - by apply HP.
  - destruct bg_written0 as (n & E & Hn). exists n. split; [done|].
    eapply Forall_impl; eauto.
Qed.

Lemma quiet_background (P : relation (list Poll)) `{!PreOrder P} (W : Written -> Prop)
    (F : Channel -> bool -> Prop) (st st' : Mambo) :
  quiet st st' -> background P W F st st'.
Proof.
  intros (Hd & Hc & Hf & ? & ? & ? & ? & ?). split; try done; try by rewrite Hd.
  - intros c _. by rewrite Hc.
  - intros c. left. by rewrite Hf.
  - exists []. by rewrite Hd.
Qed.

Lemma link_only_background (P : relation (list Poll)) `{!PreOrder P} (W : Written -> Prop)
    (F : Channel -> bool -> Prop) (st st' : Mambo) :
  link_only W st st' -> background P W F st st'.
Proof.
  intros (l & news & Hl & Hn & ->). split; try done.
  - intros c. by left.
  - by exists news.
Qed.

Lemma increment_ack_counter_background (P : relation (list Poll)) `{!PreOrder P}
    (W : Written -> Prop) (F : Channel -> bool -> Prop) :
  framed (background P W F) (increment_send_counter ACK_COMMAND).
Proof.
  apply framed_modify. intros st. split; try done.
  - intros c Hc. cbn. unfold dict_set. by rewrite decide_False.
  - intros c. by left.
  - by exists [].
Qed.

(** [self.send_characteristics[c]] is the characteristic of the channel [c]. *)
Lemma framed_send_characteristic_bind {A} (R : relation Mambo) `{!PreOrder R} (c : Channel)
    (f : Channel -> M A) :
  framed R (f c) -> framed R (send_characteristic c ≫= f).
Proof.
  intros Hf st. unfold send_characteristic. munfold.
  destruct (send_characteristics st c); cbn; [apply Hf|reflexivity].
Qed.

Lemma ack_packet_background (F : Channel -> bool -> Prop) (packet_id : Z) :
  framed (background polls_kept is_background_write F) (_ack_packet packet_id).
Proof.
  unfold _ack_packet.
  apply framed_bind; [typeclasses eauto| |intros _].
  { apply increment_ack_counter_background; typeclasses eauto. }
  apply framed_bind; [typeclasses eauto|apply framed_get_self; typeclasses eauto|intros st].
  apply framed_bind; [typeclasses eauto|apply framed_lift; typeclasses eauto|intros packet].
  apply framed_send_characteristic_bind; [typeclasses eauto|].
  eapply framed_mono; [|apply safe_ble_write_framed].
  intros st1 st2 H. apply link_only_background; [typeclasses eauto|].
  eapply link_only_mono; [|exact H]. by intros w [->|Hw]; [|destruct w].
Qed.

Lemma update_sensors_background (F : Channel -> bool -> Prop) (data : list byte) (ack : bool) :
  framed (background polls_kept is_background_write F) (_update_sensors data ack).
Proof.
  unfold _update_sensors.
  apply framed_bind; [typeclasses eauto|apply framed_lift; typeclasses eauto|intros header].
  apply framed_bind; [typeclasses eauto| |intros r].
  { eapply framed_mono; [apply quiet_background; typeclasses eauto|apply parse_sensor_tuple_quiet]. }
  apply framed_bind; [typeclasses eauto| |intros _].
  { destruct r as [[names data_sizes]|]; [|apply framed_ret; typeclasses eauto].
    eapply framed_mono; [apply quiet_background; typeclasses eauto|apply update_each_quiet]. }
  destruct header as [[[[[a k] p] c] i] e].
  destruct ack; [apply ack_packet_background|apply framed_ret; typeclasses eauto].
Qed.

Lemma set_command_received_background (P : relation (list Poll)) `{!PreOrder P}
    (W : Written -> Prop) (F : Channel -> bool -> Prop) (c : Channel) (val : bool) :
  F c val -> framed (background P W F) (_set_command_received c val).
Proof.
  intros HF. apply framed_modify. intros st. split; try done.
  - intros c'. cbn. unfold dict_set. destruct (decide (c' = c)) as [->|]; [by right|by left].
  - by exists [].
Qed.


Lemma handleNotification_background (handle_map : gmap Z string) (cHandle : Z)
    (data : list byte) :
  framed (background polls_kept is_background_write (flags_of_handle handle_map cHandle))
         (handleNotification handle_map cHandle data).
Proof.
  intros st. unfold handleNotification, flags_of_handle.
  unfold mbind at 3 4. unfold M_bind at 1 2, lift.
  destruct (handle_map !! cHandle) as [hex|]; cbn [mbind option_bind]; [|reflexivity].
  destruct (characteristic_receive_uuids hex) as [channel|] eqn:E; [|reflexivity].
  cbv beta iota.
  destruct (String.eqb_spec channel "ACK_DRONE_DATA"); [apply update_sensors_background|].
  destruct (String.eqb_spec channel "NO_ACK_DRONE_DATA"); [apply update_sensors_background|].
  destruct (String.eqb_spec channel "ACK_COMMAND_SENT") as [Hc|].
  { subst channel. apply set_command_received_background; [typeclasses eauto|]. split; [done|by left]. }
  destruct (String.eqb_spec channel "ACK_HIGH_PRIORITY") as [Hc|].
  { subst channel. apply set_command_received_background; [typeclasses eauto|]. split; [done|by right]. }
  reflexivity.
Qed.


Lemma waitForNotifications_background (p : Poll) :
  framed (background polls_kept is_background_write is_ack_flag) (waitForNotifications p).
Proof.
  destruct p as [| |cHandle data|]; cbn [waitForNotifications];
    try (apply framed_ret || apply framed_raise); try typeclasses eauto.
  apply framed_bind; [typeclasses eauto|apply framed_get_self; typeclasses eauto|intros st].
  apply framed_bind; [typeclasses eauto| |intros _; apply framed_ret; typeclasses eauto].
  destruct (delegate (drone st)) as [handle_map|]; [|apply framed_ret; typeclasses eauto].
  eapply framed_mono; [|apply handleNotification_background].
  intros st1 st2. apply background_mono; [done..|].
  intros c b [-> [[-> _]|[-> _]]]; (split; [done|]); [by left|by right].
Qed.

Lemma reconnect_background (F : Channel -> bool -> Prop) (num_retries : Z) :
  framed (background polls_kept is_background_write F) (_reconnect num_retries).
Proof.
  eapply framed_mono; [|apply (reconnect_framed is_handle_write); auto].
  intros st1 st2 H. apply link_only_background; [typeclasses eauto|].
  eapply link_only_mono; [|exact H]. by intros [].
Qed.

Lemma next_poll_background (W : Written -> Prop) (F : Channel -> bool -> Prop) :
  framed (background polls_used W F) next_poll.
Proof.
  intros st. unfold next_poll. munfold.
  destruct (poll_script (drone st)) as [|p rest] eqn:E; cbn; [reflexivity|].
  split; cbn; try done.
  - intros c. by left.
  - rewrite E. unfold polls_used. by apply suffix_cons_r.
  - by exists [].
Qed.

Lemma kept_used (W : Written -> Prop) (F : Channel -> bool -> Prop) (st st' : Mambo) :
  background polls_kept W F st st' -> background polls_used W F st st'.
Proof.
  apply background_mono; try done. intros l l' <-. by unfold polls_used.
Qed.

Lemma smart_sleep_loop_background (fuel : nat) :
  framed (background polls_used is_background_write is_ack_flag) (smart_sleep_loop fuel).
Proof.
  induction fuel as [|fuel IH]; cbn [smart_sleep_loop].
  - apply framed_bind; [typeclasses eauto|apply next_poll_background|intros [[]|]];
      try (apply framed_ret || apply framed_out_of_fuel); typeclasses eauto.
  - apply framed_bind; [typeclasses eauto|apply next_poll_background|intros [p|]];
      [|apply framed_ret; typeclasses eauto].
    assert (framed (background polls_used is_background_write is_ack_flag)
              (try_except (waitForNotifications p;; mret ()) (_reconnect 3;; mret ());;
               smart_sleep_loop fuel)) as H.
    { apply framed_bind; [typeclasses eauto| |intros _; exact IH].
      apply framed_try_except; [typeclasses eauto| |].
      - apply framed_bind; [typeclasses eauto| |intros _; apply framed_ret; typeclasses eauto].
        eapply framed_mono; [apply kept_used|apply waitForNotifications_background].
      - apply framed_bind; [typeclasses eauto| |intros _; apply framed_ret; typeclasses eauto].
        eapply framed_mono; [apply kept_used|apply reconnect_background]. }
    destruct p; [apply framed_ret; typeclasses eauto|exact H..].
Qed.

Lemma smart_sleep_background (timeout : Z) :
  framed (background polls_used is_background_write is_ack_flag) (smart_sleep timeout).
Proof.
  unfold smart_sleep.
  apply framed_bind; [typeclasses eauto|apply framed_get_self; typeclasses eauto|intros st].
  apply smart_sleep_loop_background.
Qed.

(** ** The fuel of the loops

    A loop of the model is given as much fuel as the script it uses up is
    long: the script of the link for [_safe_ble_write], whose answers are
    finitely many failures followed by success, and the script of rounds for
    the timed loops.  So none of them runs out of fuel.  This says nothing
    about a link that stays down for ever, which a script cannot describe:
    in the source [_safe_ble_write] has no bound (see
    [safe_ble_write_loop_link_down]). *)


Lemma total_ret {A} (a : A) : total (mret a).
Proof. by intros st. Qed.

Lemma total_lift {A} (r : result A) : total (lift r).
Proof. intros st. by destruct r. Qed.

Lemma total_raise {A} (e : exn) : total (@raise A e).
Proof. by intros st. Qed.

Lemma total_get_self : total get_self.
Proof. by intros st. Qed.

Lemma total_modify (g : Mambo -> Mambo) : total (modify g).
Proof. by intros st. Qed.

Lemma total_bind {A B} (m : M A) (f : A -> M B) :
  total m -> (forall a, total (f a)) -> total (m ≫= f).
Proof.
  intros Hm Hf st. specialize (Hm st). unfold mbind, M_bind.
  destruct (m st) as [[a|e|] st1]; cbn in *; [apply Hf|done..].
Qed.

Lemma total_try_except_BTLE {A} (body handler : M A) :
  total body -> total handler -> total (try_except_BTLE body handler).
Proof.
  intros Hb Hh st. specialize (Hb st). unfold try_except_BTLE.
  destruct (body st) as [[a|[]|] st1]; cbn in *; first [done|apply Hh].
Qed.

Lemma total_try_except {A} (body handler : M A) :
  total body -> total handler -> total (try_except body handler).
Proof.
  intros Hb Hh st. specialize (Hb st). unfold try_except.
  destruct (body st) as [[a|e|] st1]; cbn in *; first [done|apply Hh].
Qed.

Ltac total_step :=
  lazymatch goal with
  | |- total (mret _) => apply total_ret
  | |- total (lift _) => apply total_lift
  | |- total (raise _) => apply total_raise
  | |- total get_self => apply total_get_self
  | |- total (modify _) => apply total_modify
  | |- total (_ ≫= _) => apply total_bind; [|intros ?]
  | |- total (try_except_BTLE _ _) => apply total_try_except_BTLE
  | |- total (try_except _ _) => apply total_try_except
  | |- total (match ?x with _ => _ end) => destruct x
  | |- total (let (_, _) := ?x in _) => destruct x
  | |- total (if ?b then _ else _) => destruct b
  end.

Create HintDb total discriminated.

Ltac total_auto := repeat first [total_step | solve [auto 1 with total]].

Lemma link_call_total : total link_call.
Proof. unfold link_call. total_auto. Qed.
#[local] Hint Resolve link_call_total : total.

Lemma characteristic_write_total (c : Channel) (packet : list byte) :
  total (characteristic_write c packet).
Proof. unfold characteristic_write, log_written. total_auto. Qed.
#[local] Hint Resolve characteristic_write_total : total.

Lemma perform_handshake_loop_total (handles : list Z) : total (perform_handshake_loop handles).
Proof.
  induction handles as [|handle rest IH]; cbn [perform_handshake_loop];
    unfold drone_writeCharacteristic, log_written; total_auto.
Qed.
#[local] Hint Resolve perform_handshake_loop_total : total.

Lemma perform_handshake_total : total _perform_handshake.
Proof. unfold _perform_handshake. total_auto. Qed.
#[local] Hint Resolve perform_handshake_total : total.

Lemma reconnect_loop_total (fuel : nat) (try_num num_retries : Z) :
  num_retries - try_num <= Z.of_nat fuel ->
  total (reconnect_loop fuel try_num num_retries).
Proof.
  revert try_num. induction fuel as [|fuel IH]; intros try_num Hfuel; cbn [reconnect_loop];
    destruct (try_num <? num_retries) eqn:E; unfold drone_connect; total_auto.
  - apply Z.ltb_lt in E. lia.
  - apply IH. lia.
Qed.

Lemma reconnect_total (num_retries : Z) : total (_reconnect num_retries).
Proof.
  unfold _reconnect. total_step; [apply reconnect_loop_total; lia|]. total_auto.
Qed.
#[local] Hint Resolve reconnect_total : total.

(** A write either succeeds or raises BTLEException after using up an
    answer of the link script. *)
Lemma characteristic_write_cases (c : Channel) (packet : list byte) (st : Mambo) :
  (exists st1, characteristic_write c packet st = (Ret tt, st1))
  \/ (exists st1, characteristic_write c packet st = (Raise BTLEException, st1)
                  /\ (length (link_script (drone st1)) < length (link_script (drone st)))%nat).
Proof.
  unfold characteristic_write, link_call, log_written. munfold.
  destruct (link_script (drone st)) as [|[] rest] eqn:E; cbn;
    first [solve [eauto] | right; eexists; split; [reflexivity|cbn; lia]].
Qed.

Lemma safe_ble_write_loop_total (fuel : nat) (c : Channel) (packet : list byte) (st : Mambo) :
  (length (link_script (drone st)) < fuel)%nat ->
  (safe_ble_write_loop fuel c packet st).1 <> OutOfFuel.
Proof.
  revert st. induction fuel as [|fuel IH]; intros st Hfuel; [lia|].
  cbn [safe_ble_write_loop]. unfold mbind at 1, M_bind at 1, try_except_BTLE.
  unfold mbind at 1, M_bind at 1.
  destruct (characteristic_write_cases c packet st) as [[st1 E]|(st1 & E & Hlt)]; rewrite E; cbn.
  - done.
  - unfold mbind at 1, M_bind at 1.
    pose proof (reconnect_total 3 st1) as Htotal.
    pose proof (reconnect_framed is_handle_write 3 (fun _ H => H) st1) as (l & news & Hl & _ & E2).
    destruct (_reconnect 3 st1) as [[b|e|] st2]; cbn in *; [|done..].
    apply IH. subst st2. cbn. apply suffix_length in Hl. lia.
Qed.

Lemma safe_ble_write_total (c : Channel) (packet : list byte) : total (_safe_ble_write c packet).
Proof.
  intros st. unfold _safe_ble_write. munfold. apply safe_ble_write_loop_total. lia.
Qed.

#[local] Hint Resolve safe_ble_write_total : total.

Lemma send_characteristic_total (c : Channel) : total (send_characteristic c).
Proof. unfold send_characteristic. total_auto. Qed.
#[local] Hint Resolve send_characteristic_total : total.

Lemma ack_packet_total (packet_id : Z) : total (_ack_packet packet_id).
Proof. unfold _ack_packet, increment_send_counter. total_auto. Qed.
#[local] Hint Resolve ack_packet_total : total.

Lemma scan_args_total (cmd_name : string) (args : list XmlArg) : total (scan_args cmd_name args).
Proof.
  induction args as [|arg_child rest IH]; cbn [scan_args]; total_auto.
Qed.
#[local] Hint Resolve scan_args_total : total.

Lemma search_sensor_tuple_total (project : XmlProject) (key : Z * Z * Z * Z) :
  total (search_sensor_tuple project key).
Proof.
  unfold search_sensor_tuple, describe_cmd. destruct key as [[[p c] i] e]. total_auto.
Qed.
#[local] Hint Resolve search_sensor_tuple_total : total.

Lemma parse_sensor_tuple_total (sensor_tuple : Z * Z * Z * Z * Z * Z) :
  total (_parse_sensor_tuple sensor_tuple).
Proof.
  unfold _parse_sensor_tuple, read_xml. destruct sensor_tuple as [[[[[a k] p] c] i] e].
  total_auto.
Qed.
#[local] Hint Resolve parse_sensor_tuple_total : total.

Lemma update_each_total (names : list string) (idx : nat) (data_sizes : list (option string))
    (data : list byte) :
  total (update_each names idx data_sizes data).
Proof.
  revert idx. induction names as [|name rest IH]; intros idx; cbn [update_each]; total_auto.
Qed.
#[local] Hint Resolve update_each_total : total.

Lemma update_sensors_total (data : list byte) (ack : bool) : total (_update_sensors data ack).
Proof. unfold _update_sensors. total_auto. Qed.
#[local] Hint Resolve update_sensors_total : total.

Lemma handleNotification_total (handle_map : gmap Z string) (cHandle : Z) (data : list byte) :
  total (handleNotification handle_map cHandle data).
Proof. unfold handleNotification, _set_command_received. total_auto. Qed.
#[local] Hint Resolve handleNotification_total : total.

Lemma waitForNotifications_total (p : Poll) : total (waitForNotifications p).
Proof. destruct p; cbn [waitForNotifications]; total_auto. Qed.
#[local] Hint Resolve waitForNotifications_total : total.

Lemma next_poll_total : total next_poll.
Proof. unfold next_poll. total_auto. Qed.
#[local] Hint Resolve next_poll_total : total.

(** One round of [smart_sleep] after the clock was read. *)
Lemma sleep_round_total (p : Poll) :
  total (try_except (waitForNotifications p;; mret ()) (_reconnect 3;; mret ())).
Proof. total_auto. Qed.

Lemma sleep_round_background (p : Poll) :
  framed (background polls_kept is_background_write is_ack_flag)
         (try_except (waitForNotifications p;; mret ()) (_reconnect 3;; mret ())).
Proof.
  apply framed_try_except; [typeclasses eauto| |].
  - apply framed_bind; [typeclasses eauto| |intros _; apply framed_ret; typeclasses eauto].
    apply waitForNotifications_background.
  - apply framed_bind; [typeclasses eauto| |intros _; apply framed_ret; typeclasses eauto].
    apply reconnect_background.
Qed.

Lemma next_poll_cases (st : Mambo) :
  (poll_script (drone st) = [] /\ next_poll st = (Ret None, st))
  \/ (exists p rest, poll_script (drone st) = p :: rest
        /\ next_poll st = (Ret (Some p), set_drone (set_poll_script rest (drone st)) st)).
Proof.
  unfold next_poll. munfold. destruct (poll_script (drone st)) as [|p rest]; eauto 6.
Qed.

Lemma smart_sleep_loop_total (fuel : nat) (st : Mambo) :
  (length (poll_script (drone st)) <= fuel)%nat ->
  (smart_sleep_loop fuel st).1 <> OutOfFuel.
Proof.
  revert st. induction fuel as [|fuel IH]; intros st Hfuel.
  - destruct (next_poll_cases st) as [[E1 E2]|(p & rest & E1 & E2)].
    + cbn [smart_sleep_loop]. unfold mbind, M_bind. by rewrite E2.
    + rewrite E1 in Hfuel. cbn in Hfuel. lia.
  - cbn [smart_sleep_loop]. unfold mbind at 1, M_bind at 1.
    destruct (next_poll_cases st) as [[E1 E2]|(p & rest & E1 & E2)]; rewrite E2; [done|].
    assert (((try_except (waitForNotifications p;; mret ()) (_reconnect 3;; mret ());;
              smart_sleep_loop fuel) (set_drone (set_poll_script rest (drone st)) st)).1
            <> OutOfFuel) as H; [|by destruct p].
    unfold mbind at 1, M_bind at 1.
    pose proof (sleep_round_total p (set_drone (set_poll_script rest (drone st)) st)) as Ht.
    pose proof (sleep_round_background p (set_drone (set_poll_script rest (drone st)) st)) as Hb.
    destruct (try_except _ _ _) as [[u|e|] st2]; cbn in *; [|done..].
    apply IH. destruct Hb. unfold polls_kept in *. cbn in *. rewrite <- bg_poll0.
    rewrite E1 in Hfuel. cbn in Hfuel. lia.
Qed.

Lemma smart_sleep_total (timeout : Z) : total (smart_sleep timeout).
Proof.
  intros st. unfold smart_sleep. munfold. by apply smart_sleep_loop_total.
Qed.

(** ** On a link that never fails *)


Lemma returns_ret {A} (a : A) (st : Mambo) (Q : A -> Mambo -> Prop) :
  Q a st -> returns (mret a) st Q.
Proof. intros H. by exists a, st. Qed.

Lemma returns_bind {A B} (m : M A) (f : A -> M B) (st : Mambo) (Q : B -> Mambo -> Prop) :
  returns m st (fun a st1 => returns (f a) st1 Q) -> returns (m ≫= f) st Q.
Proof.
  intros (a & st1 & E & b & st2 & E2 & HQ). exists b, st2. split; [|done].
  unfold mbind, M_bind. by rewrite E.
Qed.

Lemma returns_get_bind {A} (f : Mambo -> M A) (st : Mambo) (Q : A -> Mambo -> Prop) :
  returns (f st) st Q -> returns (get_self ≫= f) st Q.
Proof. intros (a & st1 & E & HQ). by exists a, st1. Qed.

Lemma returns_modify (g : Mambo -> Mambo) (st : Mambo) (Q : unit -> Mambo -> Prop) :
  Q tt (g st) -> returns (modify g) st Q.
Proof. intros H. by exists tt, (g st). Qed.

Lemma returns_lift {A} (a : A) (st : Mambo) (Q : A -> Mambo -> Prop) :
  Q a st -> returns (lift (Ok a)) st Q.
Proof. intros H. by exists a, st. Qed.

Lemma returns_weaken {A} (m : M A) (st : Mambo) (Q Q' : A -> Mambo -> Prop) :
  returns m st Q -> (forall a st', Q a st' -> Q' a st') -> returns m st Q'.
Proof. intros (a & st1 & E & HQ) H. exists a, st1. auto. Qed.

Lemma returns_framed {A} (R : relation Mambo) (m : M A) (st : Mambo)
    (Q : A -> Mambo -> Prop) :
  framed R m -> returns m st Q -> returns m st (fun a st' => R st st' /\ Q a st').
Proof.
  intros Hf (a & st1 & E & HQ). exists a, st1. split; [done|]. split; [|done].
  specialize (Hf st). by rewrite E in Hf.
Qed.

Lemma returns_try_except_BTLE {A} (body handler : M A) (st : Mambo)
    (Q : A -> Mambo -> Prop) :
  returns body st Q -> returns (try_except_BTLE body handler) st Q.
Proof.
  intros (a & st1 & E & HQ). exists a, st1. split; [|done].
  unfold try_except_BTLE. by rewrite E.
Qed.

Lemma link_ok_suffix (st st' : Mambo) :
  link_script (drone st') `suffix_of` link_script (drone st) -> link_ok st -> link_ok st'.
Proof.
  unfold link_ok. intros [k ->] H. by apply Forall_app in H as [_ H].
Qed.

Lemma link_ok_link_only (W : Written -> Prop) (st st' : Mambo) :
  link_only W st st' -> link_ok st -> link_ok st'.
Proof. intros (l & news & Hl & _ & ->). by apply link_ok_suffix. Qed.

Lemma link_ok_background (P : relation (list Poll)) (W : Written -> Prop)
    (F : Channel -> bool -> Prop) (st st' : Mambo) :
  background P W F st st' -> link_ok st -> link_ok st'.
Proof. intros []. by apply link_ok_suffix. Qed.

Lemma link_call_ok (st : Mambo) :
  link_ok st ->
  returns link_call st (fun _ st' => link_only (fun _ => False) st st' /\ link_ok st').
Proof.
  intros Hok.
  eapply returns_weaken;
    [apply (returns_framed (link_only (fun _ => False)) _ _ (fun _ _ => True));
     [apply link_call_framed|]|].
  - unfold returns, link_ok, link_call in *. munfold.
    destruct (link_script (drone st)) as [|failed rest]; [by eexists _, _|].
    apply Forall_cons in Hok as [-> _]. by eexists _, _.
  - cbn. intros _ st' [H _]. split; [done|]. by eapply link_ok_link_only.
Qed.

(** A call into the peripheral goes through and logs [w]. *)
Lemma logged_call_ok (w : Written) (st : Mambo) :
  link_ok st ->
  returns (link_call;; log_written w) st
          (fun _ st' => link_only (eq w) st st' /\ link_ok st'
                        /\ written (drone st') = w :: written (drone st)).
Proof.
  intros Hok. apply returns_bind.
  eapply returns_weaken; [by apply link_call_ok|].
  cbn. intros _ st1 [(l & news & Hl & Hn & ->) Hok1].
  destruct news as [|? ?]; [|by apply Forall_cons in Hn as [[] _]].
  apply returns_modify. cbn. repeat split; [|done].
  exists l, [w]. split; [done|]. split; [by apply Forall_singleton|done].
Qed.

Lemma perform_handshake_loop_ok (handles : list Z) (st : Mambo) :
  link_ok st ->
  returns (perform_handshake_loop handles) st (fun _ st' => link_ok st').
Proof.
  revert st. induction handles as [|handle rest IH]; intros st Hok.
  - by apply returns_ret.
  - cbn [perform_handshake_loop]. apply returns_bind, returns_lift, returns_bind.
    eapply returns_weaken; [by apply logged_call_ok|].
    cbn. intros _ st1 (_ & Hok1 & _). by apply IH.
Qed.

Lemma reconnect_ok (st : Mambo) :
  link_ok st -> returns (_reconnect 3) st (fun _ st' => link_ok st').
Proof.
  intros Hok. unfold _reconnect. apply returns_bind.
  change (Z.to_nat (3 - 1)) with 2%nat. cbn [reconnect_loop].
  change (1 <? 3) with true. cbv iota.
  apply returns_bind, returns_try_except_BTLE, returns_bind.
  eapply returns_weaken; [by apply link_call_ok|].
  cbn. intros _ st1 [_ Hok1]. do 2 apply returns_ret.
  apply returns_bind. unfold _perform_handshake. apply returns_get_bind.
  eapply returns_weaken; [by apply perform_handshake_loop_ok|].
  cbn. intros _ st2 Hok2. by apply returns_ret.
Qed.

(** The write goes through at the first try. *)
Lemma safe_ble_write_ok (c : Channel) (packet : list byte) (st : Mambo) :
  link_ok st ->
  returns (_safe_ble_write c packet) st
          (fun _ st' => link_only (eq (ToCharacteristic c packet)) st st' /\ link_ok st'
                        /\ written (drone st') = ToCharacteristic c packet :: written (drone st)).
Proof.
  intros Hok. unfold _safe_ble_write. apply returns_get_bind.
  cbn [safe_ble_write_loop]. apply returns_bind, returns_try_except_BTLE, returns_bind.
  eapply returns_weaken; [by apply logged_call_ok|].
  cbn. intros _ st1 H. by do 2 apply returns_ret.
Qed.

Lemma run_outcome {A : Type} (m : M A) (st : Mambo) (o : outcome A) :
  (m st).1 = o -> m st = (o, (m st).2).
Proof. destruct (m st) as [o' st']. simpl. intros ->. reflexivity. Qed.

(** *** One wait for notifications *)

Lemma is_command_ack_delegate (st st' : Mambo) (p : Poll) :
  delegate (drone st') = delegate (drone st) -> is_command_ack st' p = is_command_ack st p.
Proof.
  intros H. unfold is_command_ack, poll_is_on, channel_of_handle. by rewrite H.
Qed.

Lemma waitForNotifications_background_at (p : Poll) (st : Mambo) :
  background polls_kept is_background_write (flags_of_poll st p) st
             (waitForNotifications p st).2.
Proof.
  destruct p as [| |cHandle data|]; cbn [waitForNotifications]; try reflexivity.
  unfold mbind at 1, M_bind at 1. cbn [get_self].
  unfold mbind at 1, M_bind at 1.
  destruct (delegate (drone st)) as [hm|] eqn:Ed; [|reflexivity].
  pose proof (handleNotification_background hm cHandle data st) as H.
  destruct (handleNotification hm cHandle data st) as [[u|e|] st1]; cbn in *;
    (eapply background_mono; [done|done| |exact H]);
    intros c b [-> [[-> Hc]|[-> _]]]; (split; [done|]); try (by right);
    left; (split; [done|]);
    unfold is_command_ack, poll_is_on, channel_of_handle; rewrite Ed; cbn;
    by apply bool_decide_eq_true_2.
Qed.

Lemma waitForNotifications_command_ack (p : Poll) (st : Mambo) :
  is_command_ack st p = true ->
  returns (waitForNotifications p) st
          (fun _ st' => command_received st' SEND_WITH_ACK = true).
Proof.
  unfold is_command_ack, poll_is_on, channel_of_handle.
  destruct p as [| |cHandle data|]; try discriminate.
  intros H. apply bool_decide_eq_true_1 in H.
  cbn [waitForNotifications]. apply returns_get_bind.
  destruct (delegate (drone st)) as [hm|]; [|discriminate]. cbn [mbind option_bind] in H.
  destruct (hm !! cHandle) as [hex|] eqn:Eh; [|discriminate]. cbn [mbind option_bind] in H.
  apply returns_bind. unfold handleNotification. rewrite Eh.
  apply returns_bind, returns_lift. rewrite H. apply returns_bind, returns_lift.
  cbn [String.eqb Ascii.eqb Bool.eqb andb].
  apply returns_modify, returns_ret. cbn. unfold dict_set. by rewrite decide_True.
Qed.

(** One round of [smart_sleep]: the wait, and the reconnection when the wait
    or the handling of the notification raised. *)
Lemma sleep_round_ok (p : Poll) (st : Mambo) :
  link_ok st ->
  returns (try_except (waitForNotifications p;; mret ()) (_reconnect 3;; mret ())) st
          (fun _ st' =>
             background polls_kept is_background_write is_ack_flag st st'
             /\ link_ok st'
             /\ command_received st' SEND_WITH_ACK
                = (if is_command_ack st p then true else command_received st SEND_WITH_ACK)).
Proof.
  intros Hok.
  eapply returns_weaken;
    [apply (returns_framed _ _ _
              (fun _ st' => command_received st' SEND_WITH_ACK
                            = (if is_command_ack st p then true
                               else command_received st SEND_WITH_ACK))
              (sleep_round_background p))|].
  2: { cbn. intros u st' [Hb H]. split; [exact Hb|]. split; [by eapply link_ok_background|].
       exact H. }
  destruct (is_command_ack st p) eqn:Eack.
  - destruct (waitForNotifications_command_ack p st Eack) as (b & st1 & E & Hflag).
    exists tt, st1. split; [|done].
    unfold try_except, mbind, M_bind. by rewrite E.
  - pose proof (waitForNotifications_background_at p st) as Hb.
    pose proof (waitForNotifications_total p st) as Ht.
    assert (forall st1, background polls_kept is_background_write (flags_of_poll st p) st st1 ->
                        command_received st1 SEND_WITH_ACK = command_received st SEND_WITH_ACK)
      as Hkeep.
    { intros st1 []. destruct (bg_flags0 SEND_WITH_ACK) as [|[_ [[_ Hc]|]]]; try done.
      congruence. }
    unfold returns, try_except. unfold mbind at 1, M_bind at 1.
    destruct (waitForNotifications p st) as [[b|e|] st1]; cbn in *; [|clear Ht|done].
    + exists tt, st1. split; [done|]. by apply Hkeep.
    + apply returns_bind.
      eapply returns_weaken;
        [apply (returns_framed _ _ _ (fun _ st' => link_ok st')
                  (reconnect_background (flags_of_poll st p) 3));
         apply reconnect_ok; by eapply link_ok_background|].
      cbn. intros _ st2 [Hb2 _]. apply returns_ret. apply Hkeep. by etrans.
Qed.

(** *** [smart_sleep] *)

Lemma existsb_command_ack_delegate (st st' : Mambo) (polls : list Poll) :
  delegate (drone st') = delegate (drone st) ->
  existsb (is_command_ack st') polls = existsb (is_command_ack st) polls.
Proof.
  intros H. induction polls as [|p rest IH]; [done|].
  cbn. by rewrite IH, (is_command_ack_delegate st st').
Qed.

Lemma smart_sleep_loop_ok (fuel : nat) (st : Mambo) :
  link_ok st ->
  (length (poll_script (drone st)) <= fuel)%nat ->
  returns (smart_sleep_loop fuel) st
          (fun _ st' =>
             poll_script (drone st') = after_wait (poll_script (drone st))
             /\ command_received st' SEND_WITH_ACK
                = (if existsb (is_command_ack st) (rounds_of_wait (poll_script (drone st)))
                   then true else command_received st SEND_WITH_ACK)).
Proof.
  revert st. induction fuel as [|fuel IH]; intros st Hok Hfuel.
  - destruct (poll_script (drone st)) as [|p rest] eqn:E; [|cbn in Hfuel; lia].
    destruct (next_poll_cases st) as [[_ E2]|(p & rest & E1 & _)]; [|congruence].
    cbn [smart_sleep_loop]. apply returns_bind. exists None, st. split; [done|].
    apply returns_ret. by rewrite E.
  - cbn [smart_sleep_loop]. apply returns_bind.
    destruct (next_poll_cases st) as [[E1 E2]|(p & rest & E1 & E2)].
    { exists None, st. split; [done|]. apply returns_ret. by rewrite E1. }
    exists (Some p), (set_drone (set_poll_script rest (drone st)) st). split; [done|].
    rewrite E1. set (st1 := set_drone (set_poll_script rest (drone st)) st).
    assert (returns (try_except (waitForNotifications p;; mret ()) (_reconnect 3;; mret ());;
                     smart_sleep_loop fuel) st1
              (fun _ st' =>
                 poll_script (drone st') = after_wait rest
                 /\ command_received st' SEND_WITH_ACK
                    = (if is_command_ack st p || existsb (is_command_ack st) (rounds_of_wait rest)
                       then true else command_received st SEND_WITH_ACK))) as Hround.
    { apply returns_bind.
      eapply returns_weaken; [apply (sleep_round_ok p st1); exact Hok|].
      cbn beta. intros _ st2 (Hb & Hok2 & Hflag2).
      destruct Hb. unfold polls_kept in bg_poll0. cbn in bg_poll0.
      eapply returns_weaken; [apply IH; [exact Hok2|]|].
      { rewrite <- bg_poll0. rewrite E1 in Hfuel. cbn in Hfuel. lia. }
      cbn beta. intros _ st' (Hpoll & Hflag). rewrite <- bg_poll0 in *.
      split; [exact Hpoll|].
      rewrite Hflag, Hflag2.
      rewrite (existsb_command_ack_delegate st st2) by (by rewrite bg_delegate0).
      rewrite (is_command_ack_delegate st st1) by done.
      change (command_received st1 SEND_WITH_ACK) with (command_received st SEND_WITH_ACK).
      by destruct (is_command_ack st p),
                  (existsb (is_command_ack st) (rounds_of_wait rest)). }
    destruct p; cbn [rounds_of_wait after_wait existsb]; try exact Hround.
    apply returns_ret. done.
Qed.

Lemma smart_sleep_ok (timeout : Z) (st : Mambo) :
  link_ok st ->
  returns (smart_sleep timeout) st
          (fun _ st' =>
             background polls_used is_background_write is_ack_flag st st'
             /\ link_ok st'
             /\ poll_script (drone st') = after_wait (poll_script (drone st))
             /\ command_received st' SEND_WITH_ACK
                = (if existsb (is_command_ack st) (rounds_of_wait (poll_script (drone st)))
                   then true else command_received st SEND_WITH_ACK)).
Proof.
  intros Hok.
  eapply returns_weaken;
    [eapply returns_framed; [apply (smart_sleep_background timeout)|];
     unfold smart_sleep; apply returns_get_bind; by apply smart_sleep_loop_ok|].
  cbn beta. intros _ st' (Hb & Hpoll & Hflag).
  split; [done|]. split; [by eapply link_ok_background|]. done.
Qed.

(** *** Scripts of rounds *)




Lemma Forall_rounds_of_wait (P : Poll -> Prop) (polls : list Poll) :
  Forall P polls -> Forall P (rounds_of_wait polls).
Proof.
  induction 1 as [|p polls Hp H IH]; [done|]. destruct p; cbn; by try constructor.
Qed.

Lemma Forall_after_wait (P : Poll -> Prop) (polls : list Poll) :
  Forall P polls -> Forall P (after_wait polls).
Proof.
  induction 1 as [|p polls Hp H IH]; [done|]. by destruct p.
Qed.

Lemma existsb_none {A} (f : A -> bool) (l : list A) :
  Forall (fun a => f a = false) l -> existsb f l = false.
Proof. induction 1 as [|a l Ha H IH]; [done|]. cbn. by rewrite Ha, IH. Qed.

Lemma Forall_not_command_ack (st st' : Mambo) (polls : list Poll) :
  delegate (drone st') = delegate (drone st) ->
  Forall (fun p => is_command_ack st p = false) polls ->
  Forall (fun p => is_command_ack st' p = false) polls.
Proof.
  intros Hd H. eapply Forall_impl; [exact H|].
  intros p Hp. cbn beta in *. by rewrite (is_command_ack_delegate st st').
Qed.

(** *** What is written on a channel *)

Lemma writes_on_app (c : Channel) (l1 l2 : list Written) :
  writes_on c (l1 ++ l2) = writes_on c l1 ++ writes_on c l2.
Proof.
  induction l1 as [|[c' packet|handle value] l1 IH]; cbn; [done| |done].
  destruct (decide (c' = c)); cbn; by rewrite IH.
Qed.

Lemma writes_on_background (c : Channel) (news : list Written) :
  c <> ACK_COMMAND -> Forall is_background_write news -> writes_on c news = [].
Proof.
  intros Hc. induction 1 as [|[c' packet|handle value] news Hw H IH]; cbn; [done| |done].
  cbn in Hw. subst c'. by rewrite decide_False.
Qed.

(** *** One attempt of [_send_command_packet_ack]: a write and a wait *)

Lemma send_characteristic_ok (c : Channel) (st : Mambo) (Q : Channel -> Mambo -> Prop) :
  send_characteristics st c = true -> Q c st -> returns (send_characteristic c) st Q.
Proof.
  intros H HQ. unfold send_characteristic. apply returns_get_bind. rewrite H.
  by apply returns_ret.
Qed.

Lemma attempt_ok (packet : list byte) (st : Mambo) :
  ready st ->
  returns (characteristic ← send_characteristic SEND_WITH_ACK;
           _safe_ble_write characteristic packet;; smart_sleep 500) st
          (fun _ st' =>
             ready st'
             /\ delegate (drone st') = delegate (drone st)
             /\ acked_writes st' = packet :: acked_writes st
             /\ poll_script (drone st') = after_wait (poll_script (drone st))
             /\ command_received st' SEND_WITH_ACK
                = (if existsb (is_command_ack st) (rounds_of_wait (poll_script (drone st)))
                   then true else command_received st SEND_WITH_ACK)).
Proof.
  intros (Hok & Hsend & Hretries).
  apply returns_bind, send_characteristic_ok; [done|].
  apply returns_bind.
  eapply returns_weaken; [by apply safe_ble_write_ok|].
  cbn beta. intros _ st1 ((l & news & Hl & Hn & ->) & Hok1 & Hw1).
  eapply returns_weaken; [by apply smart_sleep_ok|].
  cbn beta. intros _ st2 (Hb & Hok2 & Hpoll & Hflag). destruct Hb. cbn in *.
  split; [|split; [done|split; [|done]]].
  - split; [done|]. split; congruence.
  - unfold acked_writes. destruct bg_written0 as (news2 & -> & Hn2).
    rewrite writes_on_app, (writes_on_background _ news2) by done.
    cbn. rewrite Hw1. cbn. by rewrite decide_True.
Qed.

(** *** The retry loop of [_send_command_packet_ack] *)

Lemma send_loop_step (fuel : nat) (try_num : Z) (packet : list byte) (st : Mambo)
    (Q : unit -> Mambo -> Prop) :
  ready st ->
  try_num < 3 ->
  command_received st SEND_WITH_ACK = false ->
  returns (characteristic ← send_characteristic SEND_WITH_ACK;
           _safe_ble_write characteristic packet;; smart_sleep 500) st
          (fun _ st1 => returns (send_command_packet_ack_loop fuel (try_num + 1) packet) st1 Q) ->
  returns (send_command_packet_ack_loop (S fuel) try_num packet) st Q.
Proof.
  intros (_ & _ & Hretries) Htry Hflag H.
  cbn [send_command_packet_ack_loop]. apply returns_get_bind.
  rewrite Hretries, Hflag.
  replace (try_num <? 3) with true by (symmetry; by apply Z.ltb_lt).
  cbn [andb negb].
  destruct H as (u & st1 & E & b & st2 & E2 & HQ). exists b, st2. split; [|done].
  unfold mbind, M_bind in *.
  destruct (send_characteristic SEND_WITH_ACK st) as [[c|e|] st0]; try discriminate.
  destruct (_safe_ble_write c packet st0) as [[u0|e|] st0']; try discriminate.
  destruct (smart_sleep 500 st0') as [[u1|e|] st0'']; try discriminate.
  injection E as _ ->. done.
Qed.

Lemma send_loop_done (fuel : nat) (try_num : Z) (packet : list byte) (st : Mambo)
    (Q : unit -> Mambo -> Prop) :
  max_packet_retries st <= try_num \/ command_received st SEND_WITH_ACK = true ->
  Q tt st ->
  returns (send_command_packet_ack_loop fuel try_num packet) st Q.
Proof.
  intros H HQ. exists tt, st. split; [|done].
  assert ((try_num <? max_packet_retries st) && negb (command_received st SEND_WITH_ACK)
          = false) as E.
  { destruct H as [H| ->]; [|by rewrite andb_false_r].
    apply andb_false_iff. left. by apply Z.ltb_ge. }
  destruct fuel; cbn [send_command_packet_ack_loop]; unfold mbind, M_bind, get_self;
    by rewrite E.
Qed.

Lemma replicate_app_cons {A} (n : nat) (x : A) (l : list A) :
  replicate n x ++ x :: l = x :: replicate n x ++ l.
Proof. induction n as [|n IH]; [done|]. cbn. by rewrite IH. Qed.

(** No ack arrives: every attempt of the budget is made. *)
Lemma send_loop_unacked (packet : list byte) (n : nat) :
  forall (fuel : nat) (try_num : Z) (st : Mambo),
    ready st ->
    command_received st SEND_WITH_ACK = false ->
    Forall (fun p => is_command_ack st p = false) (poll_script (drone st)) ->
    try_num + Z.of_nat n = 3 ->
    (n <= fuel)%nat ->
    returns (send_command_packet_ack_loop fuel try_num packet) st
            (fun _ st' => command_received st' SEND_WITH_ACK = false
                          /\ acked_writes st' = replicate n packet ++ acked_writes st).
Proof.
  induction n as [|n IH]; intros fuel try_num st Hready Hflag Hpolls Htry Hfuel.
  - apply send_loop_done; [|done]. left. destruct Hready as (_ & _ & ->). lia.
  - destruct fuel as [|fuel]; [lia|].
    apply send_loop_step; [done|lia|done|].
    eapply returns_weaken; [by apply attempt_ok|].
    cbn beta. intros _ st1 (Hready1 & Hd & Hw & Hp & Hf).
    rewrite existsb_none in Hf by (by apply Forall_rounds_of_wait).
    eapply returns_weaken; [apply (IH fuel (try_num + 1) st1); try done; try lia|].
    + congruence.
    + rewrite Hp. apply Forall_after_wait. by apply (Forall_not_command_ack st).
    + cbn beta. intros _ st' [Hf' Hw']. split; [done|].
      rewrite Hw', Hw. by rewrite replicate_app_cons.
Qed.


(** *** C1 and C2: [_send_command_packet_ack] *)

Lemma send_command_packet_ack_returns (packet : list byte) (st : Mambo)
    (Q : bool -> Mambo -> Prop) :
  returns (send_command_packet_ack_loop (Z.to_nat (max_packet_retries st)) 0 packet)
          (set_command_received (dict_set (command_received st) SEND_WITH_ACK false) st)
          (fun _ st' => Q (command_received st' SEND_WITH_ACK) st') ->
  returns (_send_command_packet_ack packet) st Q.
Proof.
  intros H. unfold _send_command_packet_ack.
  apply returns_bind, returns_modify, returns_get_bind, returns_bind.
  eapply returns_weaken; [exact H|].
  cbn beta. intros _ st' HQ. by apply returns_get_bind, returns_ret.
Qed.

Lemma returns_run {A} (m : M A) (st : Mambo) (Q : A -> Mambo -> Prop) :
  returns m st Q -> exists a, (m st).1 = Ret a /\ Q a (m st).2.
Proof. intros (a & st' & E & HQ). exists a. by rewrite E. Qed.

(** ** C8: the fields of a frame *)

Lemma attr_of_name_inv (name : string) (a : sensor_attr) :
  attr_of_name name = Some a -> name = name_of_attr a.
Proof.
  unfold attr_of_name.
  repeat match goal with
         | |- context [String.eqb name ?l] =>
             destruct (String.eqb_spec name l) as [E|_]; [intros [= <-]; exact E|]
         end.
  by intros [=].
Qed.

Lemma attr_of_name_injective (name name' : string) (a : sensor_attr) :
  attr_of_name name = Some a -> attr_of_name name' = Some a -> name = name'.
Proof.
  intros H H'. apply attr_of_name_inv in H, H'. congruence.
Qed.

Lemma sensor_value_store (name : string) (value : pyval) (s : MamboSensors) :
  sensor_value (store name value s) name = Some value.
Proof.
  unfold sensor_value, store. destruct (attr_of_name name) as [a|] eqn:E; cbn.
  - by rewrite decide_True.
  - by rewrite lookup_insert_eq.
Qed.

Lemma sensor_value_store_other (name name' : string) (value : pyval) (s : MamboSensors) :
  name <> name' ->
  sensor_value (store name' value s) name = sensor_value s name.
Proof.
  intros Hne. unfold sensor_value, store.
  destruct (attr_of_name name) as [a|] eqn:E, (attr_of_name name') as [a'|] eqn:E'; cbn;
    try done.
  - destruct (decide (a = a')) as [->|]; [|done].
    by destruct Hne; apply (attr_of_name_injective _ _ a').
  - by rewrite lookup_insert_ne.
Qed.

#[global] Instance same_sensors_preorder : PreOrder same_sensors.
Proof.
  split; [done|]. intros st1 st2 st3 H12 H23. unfold same_sensors in *. congruence.
Qed.

Lemma ack_packet_same_sensors (packet_id : Z) : framed same_sensors (_ack_packet packet_id).
Proof.
  unfold _ack_packet.
  apply framed_bind; [typeclasses eauto| |intros _].
  { by apply framed_modify. }
  apply framed_bind; [typeclasses eauto|apply framed_get_self; typeclasses eauto|intros st].
  apply framed_bind; [typeclasses eauto|apply framed_lift; typeclasses eauto|intros packet].
  apply framed_send_characteristic_bind; [typeclasses eauto|].
  eapply framed_mono; [|apply safe_ble_write_framed].
  by intros st1 st2 (l & news & _ & _ & ->).
Qed.

Lemma scan_args_same_sensors (cmd_name : string) (args : list XmlArg) :
  framed same_sensors (scan_args cmd_name args).
Proof.
  induction args as [|arg_child rest IH]; cbn [scan_args].
  - apply framed_ret; typeclasses eauto.
  - apply framed_bind; [typeclasses eauto| |intros _].
    + destruct (String.eqb _ _); [|apply framed_ret; typeclasses eauto].
      apply framed_bind; [typeclasses eauto|apply framed_lift; typeclasses eauto|intros names].
      by apply framed_modify.
    + apply framed_bind; [typeclasses eauto|exact IH|intros r].
      apply framed_ret; typeclasses eauto.
Qed.

Lemma search_sensor_tuple_same_sensors (project : XmlProject) (key : Z * Z * Z * Z) :
  framed same_sensors (search_sensor_tuple project key).
Proof.
  unfold search_sensor_tuple. destruct key as [[[p c] i] e].
  destruct (p =? project_id project); [|apply framed_ret; typeclasses eauto].
  apply framed_bind; [typeclasses eauto|apply framed_lift; typeclasses eauto|intros classes].
  apply framed_bind; [typeclasses eauto|apply framed_lift; typeclasses eauto|intros [cmd_child|]];
    [|apply framed_ret; typeclasses eauto].
  apply framed_bind; [typeclasses eauto| |intros r].
  { unfold describe_cmd. destruct (cmd_arg cmd_child) eqn:E.
    - apply framed_ret; typeclasses eauto.
    - apply scan_args_same_sensors. }
  apply framed_bind; [typeclasses eauto| |intros _; apply framed_ret; typeclasses eauto].
  by apply framed_modify.
Qed.

Lemma read_xml_same_sensors (which : Mambo -> XmlProject) :
  framed same_sensors (read_xml which).
Proof.
  unfold read_xml.
  apply framed_bind; [typeclasses eauto| |intros _].
  - by apply framed_modify.
  - apply framed_bind; [typeclasses eauto|apply framed_get_self; typeclasses eauto|intros st].
    apply framed_ret; typeclasses eauto.
Qed.

Lemma parse_sensor_tuple_same_sensors (sensor_tuple : Z * Z * Z * Z * Z * Z) :
  framed same_sensors (_parse_sensor_tuple sensor_tuple).
Proof.
  unfold _parse_sensor_tuple. destruct sensor_tuple as [[[[[a k] p] c] i] e].
  apply framed_bind; [typeclasses eauto|apply framed_get_self; typeclasses eauto|intros st].
  destruct (sensor_tuple_cache st !! _); [apply framed_ret; typeclasses eauto|].
  apply framed_bind; [typeclasses eauto|apply read_xml_same_sensors|intros minidrone].
  apply framed_bind;
    [typeclasses eauto|apply search_sensor_tuple_same_sensors|intros [found|]];
    [apply framed_ret; typeclasses eauto|].
  apply framed_bind; [typeclasses eauto|apply read_xml_same_sensors|intros common].
  apply framed_bind;
    [typeclasses eauto|apply search_sensor_tuple_same_sensors|intros [found|]];
    [apply framed_ret; typeclasses eauto|].
  apply framed_bind; [typeclasses eauto| |intros _; apply framed_ret; typeclasses eauto].
  by apply framed_modify.
Qed.

Lemma update_each_head_fails (data : list byte) (data_sizes : list (option string))
    (name : string) (rest : list string) (idx : nat) (st : Mambo) (e : exn) :
  field_value data data_sizes (sensor_tuple_cache_enum st) idx name = Err e ->
  update_each (name :: rest) idx data_sizes data st = (Raise e, st).
Proof.
  unfold field_value. cbn [update_each].
  unfold mbind, M_bind, lift, get_self, modify, update.
  destruct (data_sizes !! idx) as [data_size|]; cbn; [|by intros [= <-]].
  destruct (unpack_sensor_data data_size data) as [sensor_data|]; cbn; [|by intros [= <-]].
  by intros ->.
Qed.

(** The loop of [_update_sensors]: the fields before the first one whose
    value cannot be computed are stored, each with its own value, and the
    loop ends there with the exception of that field; nothing else changes. *)
Lemma update_each_run (data : list byte) (data_sizes : list (option string))
    (names : list string) :
  forall (idx k : nat) (st : Mambo),
    NoDup names ->
    (forall j name, (j < k)%nat -> names !! j = Some name ->
       exists value,
         field_value data data_sizes (sensor_tuple_cache_enum st) (idx + j) name = Ok value) ->
    (k = length names
     \/ exists name e,
          names !! k = Some name
          /\ field_value data data_sizes (sensor_tuple_cache_enum st) (idx + k) name = Err e) ->
    let st2 := (update_each names idx data_sizes data st).2 in
    st2 = set_sensors (sensors st2) st
    /\ (forall name, name ∉ take k names ->
          sensor_value (sensors st2) name = sensor_value (sensors st) name)
    /\ (forall j name, (j < k)%nat -> names !! j = Some name ->
          exists value,
            field_value data data_sizes (sensor_tuple_cache_enum st) (idx + j) name = Ok value
            /\ sensor_value (sensors st2) name = Some value)
    /\ (update_each names idx data_sizes data st).1
       = match names !! k with
         | Some name =>
             match field_value data data_sizes (sensor_tuple_cache_enum st) (idx + k) name with
             | Err e => Raise e
             | Ok _ => Ret tt
             end
         | None => Ret tt
         end.
Proof.
  induction names as [|name rest IH]; intros idx k st Hnodup Hfirst Hlast st2.
  { subst st2. cbn. destruct st. repeat split; try done; intros j n Hj Hn; by destruct j. }
  apply NoDup_cons in Hnodup as [Hname Hnodup].
  destruct k as [|k].
  { destruct Hlast as [Hk|(name' & e & Hk & He)]; [done|].
    injection Hk as <-. rewrite Nat.add_0_r in He.
    subst st2. rewrite (update_each_head_fails _ _ _ _ _ _ _ He).
    cbn [lookup list_lookup take fst snd]. rewrite Nat.add_0_r, He.
    split; [by destruct st|]. split; [done|]. split; [|done]. intros j n Hj. lia. }
  destruct (Hfirst 0%nat name ltac:(lia) eq_refl) as (value & Hvalue).
  rewrite Nat.add_0_r in Hvalue.
  subst st2. cbn [update_each]. unfold mbind, M_bind, lift, get_self, modify, update.
  pose proof Hvalue as Hv. unfold field_value in Hv.
  destruct (data_sizes !! idx) as [data_size|]; cbn in Hv |- *; [|done].
  destruct (unpack_sensor_data data_size data) as [sensor_data|]; cbn in Hv |- *; [|done].
  rewrite Hv. cbn.
  set (st1 := set_sensors (store name value (sensors st)) st).
  specialize (IH (S idx) k st1 Hnodup).
  assert (sensor_tuple_cache_enum st1 = sensor_tuple_cache_enum st) as Hcache by done.
  rewrite Hcache in IH.
  destruct IH as (Hst & Hother & Heach & Hout).
  { intros j n Hj Hn. replace (S idx + j)%nat with (idx + S j)%nat by lia.
    apply (Hfirst (S j)); [lia|done]. }
  { destruct Hlast as [Hk|(n & e & Hk & He)].
    - left. cbn in Hk. lia.
    - right. exists n, e. split; [done|].
      by replace (S idx + k)%nat with (idx + S k)%nat by lia. }
  split; [|split; [|split]].
  - rewrite Hst at 1. by destruct st.
  - intros n Hn. cbn [take] in Hn. apply not_elem_of_cons in Hn as [Hne Hn].
    rewrite Hother by done. cbn. by apply sensor_value_store_other.
  - intros [|j] n Hj Hn.
    + injection Hn as <-. exists value. rewrite Nat.add_0_r. split; [done|].
      rewrite Hother; [cbn; by apply sensor_value_store|].
      intros Hin. apply Hname. apply elem_of_take in Hin as (i & Hi & _).
      by eapply list_elem_of_lookup_2.
    + destruct (Heach j n ltac:(lia) Hn) as (v & H1 & H2).
      exists v. by replace (idx + S j)%nat with (S idx + j)%nat by lia.
  - rewrite Hout. cbn [lookup list_lookup].
    by replace (idx + S k)%nat with (S idx + k)%nat by lia.
Qed.

Lemma leading_fields_spec (data : list byte) (data_sizes : list (option string))
    (sensor_enum : gmap string (list string)) (names : list string) :
  forall idx : nat,
    let k := leading_fields data data_sizes sensor_enum idx names in
    (forall j name, (j < k)%nat -> names !! j = Some name ->
       exists value, field_value data data_sizes sensor_enum (idx + j) name = Ok value)
    /\ (k = length names
        \/ exists name e,
             names !! k = Some name
             /\ field_value data data_sizes sensor_enum (idx + k) name = Err e).
Proof.
  induction names as [|name rest IH]; intros idx; cbn [leading_fields].
  { split; [intros j name Hj; lia|by left]. }
  destruct (field_value data data_sizes sensor_enum idx name) as [value|e] eqn:E.
  - destruct (IH (S idx)) as [Hfirst Hlast]. cbn zeta in *. split.
    + intros [|j] n Hj Hn.
      * injection Hn as <-. exists value. by rewrite Nat.add_0_r.
      * replace (idx + S j)%nat with (S idx + j)%nat by lia. apply Hfirst; [lia|done].
    + destruct Hlast as [Hk|(n & e & Hn & He)]; [left; cbn; lia|].
      right. exists n, e. split; [done|].
      by replace (idx + S (leading_fields data data_sizes sensor_enum (S idx) rest))%nat
        with (S idx + leading_fields data data_sizes sensor_enum (S idx) rest)%nat by lia.
  - split; [intros j n Hj; lia|]. right. exists name, e. by rewrite Nat.add_0_r.
Qed.

(** C8, as the code has it.  Let the header of a frame resolve to a command
    with the declared fields [names] (all different), and let [k] be the
    number of fields the loop gets through: the fields before the first one
    whose value -- unpacked for the data size of the field and translated
    when the field is an enum ([field_value]) -- cannot be computed.  Each of
    these [k] fields, not only the first, is stored under its name with its
    value.  When there is a field [k], its exception leaves
    [_update_sensors], and that field and the fields after it are as
    before; when there is none, every declared field is stored (and without
    an ack to send [_update_sensors] returns). *)
Theorem C8_every_declared_field_is_stored (data : list byte) (ack : bool) (st st1 : Mambo)
    (header : Z * Z * Z * Z * Z * Z) (names : list string)
    (data_sizes : list (option string)) :
  unpack_header data = Ok header ->
  _parse_sensor_tuple header st = (Ret (Some (names, data_sizes)), st1) ->
  NoDup names ->
  let k := leading_fields data data_sizes (sensor_tuple_cache_enum st1) 0 names in
  (forall j name, (j < k)%nat -> names !! j = Some name ->
     exists value,
       field_value data data_sizes (sensor_tuple_cache_enum st1) j name = Ok value
       /\ sensor_value (sensors (_update_sensors data ack st).2) name = Some value)
  /\ (forall j name, (k <= j)%nat -> names !! j = Some name ->
        sensor_value (sensors (_update_sensors data ack st).2) name
        = sensor_value (sensors st) name)
  /\ (forall name,
        names !! k = Some name ->
        exists e,
          field_value data data_sizes (sensor_tuple_cache_enum st1) k name = Err e
          /\ (_update_sensors data ack st).1 = Raise e)
  /\ (k = length names -> ack = false -> (_update_sensors data ack st).1 = Ret tt).
Proof.
  intros Hheader Hparse Hnodup k.
  destruct (leading_fields_spec data data_sizes (sensor_tuple_cache_enum st1) names 0)
    as [Hfirst Hlast].
  cbn zeta in Hfirst, Hlast. cbn [Nat.add] in Hfirst, Hlast. fold k in Hfirst, Hlast.
  pose proof (parse_sensor_tuple_same_sensors header st) as Hsame.
  rewrite Hparse in Hsame. unfold same_sensors in Hsame. cbn in Hsame.
  pose proof (update_each_run data data_sizes names 0 k st1 Hnodup Hfirst Hlast)
    as (Hst & Hother & Heach & Hout).
  cbn zeta in Hst, Hother, Heach, Hout. cbn [Nat.add] in Heach, Hout.
  destruct header as [[[[[a pid] p] c] i] e0].
  assert (_update_sensors data ack st
          = match update_each names 0 data_sizes data st1 with
            | (Ret _, st2) => (if ack then _ack_packet pid else mret tt) st2
            | (Raise e, st2) => (Raise e, st2)
            | (OutOfFuel, st2) => (OutOfFuel, st2)
            end) as Hrun.
  { unfold _update_sensors. rewrite Hheader.
    unfold mbind at 1, M_bind at 1, lift.
    unfold mbind at 1, M_bind at 1. rewrite Hparse.
    unfold mbind at 1, M_bind at 1.
    by destruct (update_each names 0 data_sizes data st1) as [[[]|e|] st2]. }
  assert (sensors (_update_sensors data ack st).2
          = sensors (update_each names 0 data_sizes data st1).2) as Hsensors.
  { rewrite Hrun.
    destruct (update_each names 0 data_sizes data st1) as [[[]|e|] st2]; try done.
    destruct ack; [|done]. apply (ack_packet_same_sensors pid st2). }
  rewrite Hsensors. split; [exact Heach|]. split; [|split].
  - intros j name Hj Hname. rewrite Hother, Hsame; [done|].
    intros Hin. apply list_elem_of_lookup in Hin as (i' & Hi).
    pose proof (lookup_lt_Some _ _ _ Hi) as Hlt. rewrite length_take in Hlt.
    rewrite lookup_take_lt in Hi by lia.
    assert (i' = j) by (eapply NoDup_lookup; eauto). lia.
  - intros name Hname.
    destruct Hlast as [Hk|(n & e & Hn & He)].
    { apply lookup_lt_Some in Hname. lia. }
    rewrite Hname in Hn. injection Hn as <-. exists e. split; [exact He|].
    rewrite Hname, He in Hout. rewrite Hrun.
    by destruct (update_each names 0 data_sizes data st1) as [[[]|e'|] st2];
      cbn in Hout; try done; injection Hout as ->.
  - intros Hk ->. rewrite lookup_ge_None_2 in Hout by lia. rewrite Hrun.
    by destruct (update_each names 0 data_sizes data st1) as [[[]|e'|] st2].
Qed.

Lemma C8_claw_state_witness :
  let names := ["ClawState_id"; "ClawState_state"; "ClawState_list_flags"]%string in
  let data_sizes := [Some "u8"; Some "enum"; Some "u8"]%string in
  let st := sample_connected [] [] in
  let st1 := (_parse_sensor_tuple (2, 5, 2, 15, 1, 0) st).2 in
  let k := leading_fields sample_claw_frame data_sizes (sensor_tuple_cache_enum st1) 0 names in
  (forall j name, (j < k)%nat -> names !! j = Some name ->
     exists value,
       field_value sample_claw_frame data_sizes (sensor_tuple_cache_enum st1) j name = Ok value
       /\ sensor_value (sensors (_update_sensors sample_claw_frame false st).2) name
          = Some value)
  /\ (forall j name, (k <= j)%nat -> names !! j = Some name ->
        sensor_value (sensors (_update_sensors sample_claw_frame false st).2) name
        = sensor_value (sensors st) name)
  /\ (forall name,
        names !! k = Some name ->
        exists e,
          field_value sample_claw_frame data_sizes (sensor_tuple_cache_enum st1) k name = Err e
          /\ (_update_sensors sample_claw_frame false st).1 = Raise e)
  /\ (k = length names -> false = false ->
      (_update_sensors sample_claw_frame false st).1 = Ret tt).
Proof.
  cbv zeta.
  apply (C8_every_declared_field_is_stored
           sample_claw_frame false (sample_connected [] [])
           (_parse_sensor_tuple (2, 5, 2, 15, 1, 0) (sample_connected [] [])).2
           (2, 5, 2, 15, 1, 0)
           ["ClawState_id"; "ClawState_state"; "ClawState_list_flags"]%string
           [Some "u8"; Some "enum"; Some "u8"]%string).
  - vm_compute. reflexivity.
  - apply (run_outcome (_parse_sensor_tuple (2, 5, 2, 15, 1, 0)) (sample_connected [] [])).
    vm_compute. reflexivity.
  - apply (bool_decide_unpack _). vm_compute. exact I.
Defined.

(** In the ClawState frame of the witness the loop gets through all three
    fields, and the state and the flags are stored as well as the id. *)
Lemma claw_frame_stores_three_fields :
  let names := ["ClawState_id"; "ClawState_state"; "ClawState_list_flags"]%string in
  let data_sizes := [Some "u8"; Some "enum"; Some "u8"]%string in
  let st := sample_connected [] [] in
  let st1 := (_parse_sensor_tuple (2, 5, 2, 15, 1, 0) st).2 in
  _parse_sensor_tuple (2, 5, 2, 15, 1, 0) st = (Ret (Some (names, data_sizes)), st1)
  /\ leading_fields sample_claw_frame data_sizes (sensor_tuple_cache_enum st1) 0 names = 3%nat
  /\ leading_fields sample_claw_frame_4 data_sizes (sensor_tuple_cache_enum st1) 0 names
     = 1%nat.
Proof.
  cbv zeta. split; [|split]; [|vm_compute; reflexivity..].
  apply (run_outcome (_parse_sensor_tuple (2, 5, 2, 15, 1, 0)) (sample_connected [] [])).
  vm_compute. reflexivity.
Qed.

(** The same command in a frame whose first byte of data is 4: the id is
    stored, the state -- unpacked from the same byte -- is the index 4 of a
    list of four members, [update] raises IndexError, and the state and the
    flags are left as they were. *)
Lemma claw_frame_with_id_4_stops_at_the_state :
  let st := sample_connected [] [] in
  let st' := (_update_sensors sample_claw_frame_4 false st).2 in
  (_update_sensors sample_claw_frame_4 false st).1 = Raise IndexError
  /\ sensor_value (sensors st') "ClawState_id" = Some (PyInt 4)
  /\ sensor_value (sensors st') "ClawState_state" = sensor_value (sensors st) "ClawState_state"
  /\ sensor_value (sensors st') "ClawState_list_flags"
     = sensor_value (sensors st) "ClawState_list_flags".
Proof. vm_compute. repeat split. Qed.

(** The claim as stated fails.  In the ClawState frame the state field is
    given the byte of the id field (2, "CLOSED") and the flags field too; in
    the MassStorageInfoStateListChanged frame the size field (2 in the frame)
    is given 513, the four bytes from offset 6 on, and so is the used size. *)
Lemma C8_remaining_fields_are_overwritten :
  let st := sample_connected [] [] in
  let st1 := (_update_sensors sample_claw_frame false st).2 in
  let st2 := (_update_sensors sample_mass_storage_frame false st).2 in
  (_update_sensors sample_claw_frame false st).1 = Ret tt
  /\ sensor_value (sensors st) "ClawState_state" = Some PyNone
  /\ sensor_value (sensors st1) "ClawState_id" = Some (PyInt 2)
  /\ sensor_value (sensors st1) "ClawState_state" = Some (PyStr "CLOSED")
  /\ sensor_value (sensors st1) "ClawState_list_flags" = Some (PyInt 2)
  /\ (_update_sensors sample_mass_storage_frame false st).1 = Ret tt
  /\ sensor_value (sensors st) "MassStorageInfoStateListChanged_size" = None
  /\ sensor_value (sensors st2) "MassStorageInfoStateListChanged_mass_storage_id"
     = Some (PyInt 1)
  /\ sensor_value (sensors st2) "MassStorageInfoStateListChanged_size" = Some (PyInt 513)
  /\ sensor_value (sensors st2) "MassStorageInfoStateListChanged_used_size"
     = Some (PyInt 513).
Proof. vm_compute. repeat split. Qed.

(** ** Frames: what [struct.pack] puts where *)

Lemma struct_pack_cons (f : int_format) (v : Z) (rest : list (int_format * Z))
    (packet : list byte) :
  struct_pack ((f, v) :: rest) = Ok packet ->
  exists tail, fmt_min f <= v <= fmt_max f
               /\ struct_pack rest = Ok tail
               /\ packet = le_encode (fmt_width f) v ++ tail.
Proof.
  cbn [struct_pack]. unfold pack_int.
  destruct (fmt_min f <=? v) eqn:E1; [|done].
  destruct (v <=? fmt_max f) eqn:E2; [|done].
  cbn. destruct (struct_pack rest) as [tail|e]; [|done].
  cbn. intros [= <-]. exists tail. apply Z.leb_le in E1, E2. done.
Qed.

(** The second field of a frame, when it is an unsigned byte after an
    unsigned byte, is read back by [sequence_byte]. *)
Lemma sequence_byte_pack (a b : Z) (rest : list (int_format * Z)) (packet : list byte) :
  struct_pack ((fmt_B, a) :: (fmt_B, b) :: rest) = Ok packet ->
  sequence_byte packet = Some b.
Proof.
  intros H. apply struct_pack_cons in H as (t1 & _ & H & ->).
  apply struct_pack_cons in H as (t2 & Hb & _ & ->).
  unfold sequence_byte. cbn. rewrite Z_of_byte_of_Z.
  f_equal. apply Z.mod_small. cbn in Hb. lia.
Qed.

Lemma signed_byte_round_trip (v : Z) :
  -128 <= v <= 127 ->
  (if 127 <? v mod 256 then v mod 256 - 256 else v mod 256) = v.
Proof.
  intros H. destruct (Z.ltb_spec 127 (v mod 256)) as [Hm|Hm].
  - destruct (Z.neg_nonneg_cases v) as [Hv|Hv].
    + rewrite <- (Z_mod_plus_full v 1 256), Z.mod_small; lia.
    + rewrite Z.mod_small in Hm; lia.
  - destruct (Z.neg_nonneg_cases v) as [Hv|Hv].
    + rewrite <- (Z_mod_plus_full v 1 256), Z.mod_small in Hm; lia.
    + rewrite Z.mod_small; lia.
Qed.

(** A PCMD frame is read back by [pcmd_arguments]. *)
Lemma pcmd_arguments_pack (counter : Z) (command_tuple : Z * Z * Z)
    (my_roll my_pitch my_yaw my_vertical : Z) (packet : list byte) :
  pcmd_packet counter command_tuple my_roll my_pitch my_yaw my_vertical = Ok packet ->
  pcmd_arguments packet = Ok (my_roll, my_pitch, my_yaw, my_vertical).
Proof.
  destruct command_tuple as [[project myclass] cmd]. unfold pcmd_packet. intros H.
  repeat (apply struct_pack_cons in H as (? & ? & H & ->)).
  repeat match goal with
         | Hr : fmt_min fmt_B <= _ <= fmt_max fmt_B |- _ => clear Hr
         | Hr : fmt_min fmt_I <= _ <= fmt_max fmt_I |- _ => clear Hr
         | Hr : fmt_min fmt_b <= _ <= fmt_max fmt_b |- _ => cbn in Hr
         end.
  unfold pcmd_arguments, unpack_int, bytes_at.
  cbn [fmt_width le_encode app length Nat.leb Nat.add firstn skipn result_map result_bind
       le_decode fmt_signed andb fmt_max].
  rewrite !Z_of_byte_of_Z, !Z.add_0_r.
  change (2 ^ (8 * Z.of_nat 1 - 1) - 1) with 127.
  change (2 ^ (8 * Z.of_nat 1)) with 256.
  change (256 * 0) with 0. rewrite ?Z.add_0_r.
  by rewrite !signed_byte_round_trip by lia.
Qed.

Lemma pcmd_packet_fits (counter : Z) (command_tuple : Z * Z * Z)
    (my_roll my_pitch my_yaw my_vertical : Z) :
  is_byte counter ->
  (let '(project, myclass, cmd) := command_tuple in
   is_byte project /\ is_byte myclass /\ is_byte cmd) ->
  -128 <= my_roll <= 127 -> -128 <= my_pitch <= 127 ->
  -128 <= my_yaw <= 127 -> -128 <= my_vertical <= 127 ->
  exists packet,
    pcmd_packet counter command_tuple my_roll my_pitch my_yaw my_vertical = Ok packet.
Proof.
  destruct command_tuple as [[project myclass] cmd]. unfold is_byte, pcmd_packet.
  intros Hc (Hp & Hm & Hd) Hr Hi Hy Hv. cbn [struct_pack].
  rewrite !pack_int_fits by (cbn; lia). cbn. by eexists.
Qed.

(** ** [_ensure_fly_command_in_range] *)

Lemma ensure_fly_command_in_range_clamp (value : Z) :
  _ensure_fly_command_in_range value = clamp value.
Proof.
  unfold _ensure_fly_command_in_range, clamp.
  destruct (Z.ltb_spec value (-100)); [lia|].
  destruct (Z.gtb_spec value 100); lia.
Qed.

Lemma clamp_range (v : Z) : -100 <= clamp v <= 100.
Proof. unfold clamp. lia. Qed.

Lemma clamp_in_range (v : Z) : -100 <= v <= 100 -> clamp v = v.
Proof. unfold clamp. lia. Qed.

(** ** The counters *)

Lemma incremented_range (c : Z) : is_byte (incremented c).
Proof.
  unfold is_byte, incremented. pose proof (Z.mod_pos_bound (c + 1) 256). lia.
Qed.

Lemma iter_incremented (n : nat) (c : Z) :
  0 <= c < 256 -> Nat.iter n incremented c = (c + Z.of_nat n) mod 256.
Proof.
  intros Hc. induction n as [|n IH].
  - cbn. rewrite Z.add_0_r, Z.mod_small; lia.
  - change (Nat.iter (S n) incremented c) with (incremented (Nat.iter n incremented c)).
    rewrite IH. unfold incremented.
    rewrite Zplus_mod_idemp_l. f_equal. lia.
Qed.

Lemma incremented_wraps (c : Z) : 0 <= c < 256 -> Nat.iter 256 incremented c = c.
Proof.
  intros Hc. rewrite iter_incremented by done.
  change (Z.of_nat 256) with (1 * 256). rewrite Z_mod_plus_full. apply Z.mod_small. lia.
Qed.

(** ** What the senders write *)

#[global] Instance writes_only_preorder (W : Written -> Prop) : PreOrder (writes_only W).
Proof.
  split.
  - intros st. by exists [].
  - intros st1 st2 st3 (n1 & E1 & F1) (n2 & E2 & F2).
    exists (n2 ++ n1). rewrite E2, E1, app_assoc. split; [done|by apply Forall_app].
Qed.

Lemma background_writes_only (P : relation (list Poll)) (W W' : Written -> Prop)
    (F : Channel -> bool -> Prop) (st st' : Mambo) :
  (forall w, W w -> W' w) -> background P W F st st' -> writes_only W' st st'.
Proof.
  intros HW []. destruct bg_written0 as (news & E & Hn). exists news.
  split; [done|]. eapply Forall_impl; eauto.
Qed.

Lemma quiet_writes_only (W : Written -> Prop) (st st' : Mambo) :
  quiet st st' -> writes_only W st st'.
Proof. intros (Hd & _). exists []. by rewrite Hd. Qed.

Lemma Forall_carries_writes_on (channel : Channel) (P : list byte -> Prop)
    (news : list Written) :
  Forall (carries channel P) news -> Forall P (writes_on channel news).
Proof.
  induction 1 as [|[c packet|handle value] news Hw H IH]; cbn; [done| |done].
  destruct (decide (c = channel)) as [Hc|Hc]; [|done].
  apply Forall_cons. split; [by apply Hw|done].
Qed.

Lemma writes_on_none (channel : Channel) (news : list Written) :
  Forall (carries channel (fun _ => False)) news -> writes_on channel news = [].
Proof.
  intros H. apply Forall_carries_writes_on in H. by destruct H.
Qed.

Lemma send_write_carries (channel : Channel) (P : list byte -> Prop) (packet : list byte)
    (w : Written) :
  channel <> ACK_COMMAND -> P packet -> is_send_write channel packet w -> carries channel P w.
Proof.
  intros Hc HP [->|Hw]; [by intros _|]. destruct w as [c p|]; [|done].
  cbn in *. by intros ->.
Qed.

Lemma background_write_carries (channel : Channel) (P : list byte -> Prop) (w : Written) :
  channel <> ACK_COMMAND -> is_background_write w -> carries channel P w.
Proof. intros Hc Hw. destruct w as [c p|]; [|done]. cbn in *. by intros ->. Qed.

Lemma safe_write_carries (channel : Channel) (P : list byte -> Prop) (packet : list byte)
    (w : Written) :
  P packet -> safe_write_of channel packet w -> carries channel P w.
Proof. intros HP [->|Hw]; [by intros _|]. by destruct w. Qed.

(** *** Resolving a command changes neither the link nor a counter *)

Lemma search_command_tuple_quiet (project : XmlProject) (myclass cmd : string) :
  framed quiet (search_command_tuple project myclass cmd).
Proof.
  unfold search_command_tuple.
  apply framed_bind; [typeclasses eauto|apply framed_lift; typeclasses eauto|intros classes].
  apply framed_bind; [typeclasses eauto|apply framed_lift; typeclasses eauto|intros r].
  destruct r as [[class_id cmd_id]|]; [|apply framed_ret; typeclasses eauto].
  apply framed_bind; [typeclasses eauto| |intros _; apply framed_ret; typeclasses eauto].
  apply framed_modify. intros st. by repeat split.
Qed.

Lemma get_command_tuple_quiet (myclass cmd : string) :
  framed quiet (_get_command_tuple myclass cmd).
Proof.
  unfold _get_command_tuple.
  apply framed_bind; [typeclasses eauto|apply framed_get_self; typeclasses eauto|intros st].
  destruct (command_tuple_cache st !! (myclass, cmd)); [apply framed_ret; typeclasses eauto|].
  apply framed_bind; [typeclasses eauto|apply read_xml_quiet|intros minidrone].
  apply framed_bind; [typeclasses eauto|apply search_command_tuple_quiet|intros r].
  destruct r; [apply framed_ret; typeclasses eauto|].
  apply framed_bind; [typeclasses eauto|apply read_xml_quiet|intros common].
  apply search_command_tuple_quiet.
Qed.

(** *** The write of a packet and the wait for its ack *)

Lemma safe_ble_write_background (P : relation (list Poll)) `{!PreOrder P}
    (F : Channel -> bool -> Prop) (c : Channel) (packet : list byte) :
  framed (background P (is_send_write c packet) F) (_safe_ble_write c packet).
Proof.
  eapply framed_mono; [|apply safe_ble_write_framed].
  intros st1 st2 H. apply link_only_background; [typeclasses eauto|].
  eapply link_only_mono; [|exact H].
  intros w [->|Hw]; [by left|right; by destruct w].
Qed.

Lemma send_command_packet_ack_loop_background (fuel : nat) (try_num : Z) (packet : list byte) :
  framed (background polls_used (is_send_write SEND_WITH_ACK packet) (fun _ _ => True))
         (send_command_packet_ack_loop fuel try_num packet).
Proof.
  revert try_num. induction fuel as [|fuel IH]; intros try_num;
    cbn [send_command_packet_ack_loop];
    (apply framed_bind; [typeclasses eauto|apply framed_get_self; typeclasses eauto|intros st]);
    destruct ((try_num <? max_packet_retries st) && negb (command_received st SEND_WITH_ACK));
    try (apply framed_ret || apply framed_out_of_fuel); try typeclasses eauto.
  apply framed_send_characteristic_bind; [typeclasses eauto|].
  apply framed_bind; [typeclasses eauto|apply safe_ble_write_background; typeclasses eauto|intros _].
  apply framed_bind; [typeclasses eauto| |intros _; apply IH].
  eapply framed_mono; [|apply (smart_sleep_background 500)].
  intros st1 st2. apply background_mono; [done| |done]. intros w Hw. by right.
Qed.

Lemma send_command_packet_ack_background (packet : list byte) :
  framed (background polls_used (is_send_write SEND_WITH_ACK packet) (fun _ _ => True))
         (_send_command_packet_ack packet).
Proof.
  unfold _send_command_packet_ack.
  apply framed_bind; [typeclasses eauto| |intros _].
  { apply set_command_received_background; [typeclasses eauto|done]. }
  apply framed_bind; [typeclasses eauto|apply framed_get_self; typeclasses eauto|intros st].
  apply framed_bind; [typeclasses eauto|apply send_command_packet_ack_loop_background|intros _].
  apply framed_bind; [typeclasses eauto|apply framed_get_self; typeclasses eauto|intros st'].
  apply framed_ret; typeclasses eauto.
Qed.

(** *** The counter and the frames *)

Lemma sent_with_refl (channel : Channel) (counter : Z) (st : Mambo) :
  sent_with channel counter st st.
Proof. split; [done|reflexivity]. Qed.

Lemma background_sent_with (channel : Channel) (packet : list byte) (counter : Z)
    (P : relation (list Poll)) (F : Channel -> bool -> Prop) (st st' : Mambo) :
  channel <> ACK_COMMAND -> sequence_byte packet = Some counter ->
  background P (is_send_write channel packet) F st st' ->
  sent_with channel counter st st'.
Proof.
  intros Hc Hs Hb. split; [by apply (bg_counter _ _ _ _ _ Hb)|].
  eapply background_writes_only; [|exact Hb].
  intros w Hw. by eapply send_write_carries.
Qed.

Lemma link_only_sent_with (channel : Channel) (packet : list byte) (counter : Z)
    (st st' : Mambo) :
  sequence_byte packet = Some counter ->
  link_only (safe_write_of channel packet) st st' ->
  sent_with channel counter st st'.
Proof.
  intros Hs (l & news & Hl & Hn & ->). split; [done|].
  exists news. split; [done|]. eapply Forall_impl; [exact Hn|].
  intros w Hw. by eapply safe_write_carries.
Qed.

(** A method that increments the counter of [channel] and then only sends
    frames with the counter it finds. *)
Lemma sends_incremented_after_increment {A} (channel : Channel) (rest : M A) :
  (forall st, sent_with channel (characteristic_send_counter st channel) st (rest st).2) ->
  sends_incremented channel (increment_send_counter channel;; rest).
Proof.
  intros H st. unfold increment_send_counter. munfold.
  match goal with |- context [rest ?s] => specialize (H s) as [Hc (news & E & Hn)] end.
  exists news. split; [exact E|]. cbn in Hc, Hn. unfold dict_set in Hc, Hn.
  rewrite decide_True in Hc, Hn by done. split; [exact Hc|].
  by apply Forall_carries_writes_on.
Qed.

(** A method that starts by resolving its command. *)
Lemma sends_incremented_bind_quiet {A B} (channel : Channel) (m : M A) (f : A -> M B) :
  framed quiet m -> (forall a, sends_incremented channel (f a)) ->
  sends_incremented_once channel m (m ≫= f).
Proof.
  intros Hm Hf st. specialize (Hm st). unfold mbind, M_bind.
  destruct (m st) as [[a|e|] st1]; cbn in Hm |- *; destruct Hm as (Hd & Hc & _).
  - destruct (Hf a st1) as (news & E & H). exists news. by rewrite <- Hd, <- Hc.
  - by rewrite Hd, Hc.
  - by rewrite Hd, Hc.
Qed.

Lemma ack_packet_sends_incremented (packet_id : Z) :
  sends_incremented ACK_COMMAND (_ack_packet packet_id).
Proof.
  apply sends_incremented_after_increment. intros st. munfold.
  destruct (struct_pack _) as [packet|e] eqn:E; [|apply sent_with_refl].
  unfold send_characteristic. munfold.
  destruct (send_characteristics st ACK_COMMAND); [|apply sent_with_refl].
  eapply link_only_sent_with; [by eapply sequence_byte_pack|apply safe_ble_write_framed].
Qed.

(** The common end of the senders on SEND_WITH_ACK. *)
Lemma send_packet_sent_with (fields : list (int_format * Z)) (st : Mambo) :
  sent_with SEND_WITH_ACK (characteristic_send_counter st SEND_WITH_ACK) st
    ((packet ← lift (struct_pack ((fmt_B, data_types DATA_WITH_ACK)
                                  :: (fmt_B, characteristic_send_counter st SEND_WITH_ACK)
                                  :: fields));
      _send_command_packet_ack packet) st).2.
Proof.
  munfold. destruct (struct_pack _) as [packet|e] eqn:E; [|apply sent_with_refl].
  eapply background_sent_with; [done|by eapply sequence_byte_pack|].
  apply send_command_packet_ack_background.
Qed.

Lemma send_noparam_sends_incremented (command_tuple : option (Z * Z * Z)) :
  sends_incremented SEND_WITH_ACK (_send_noparam_command_packet_ack command_tuple).
Proof.
  apply sends_incremented_after_increment. intros st.
  destruct command_tuple as [[[project myclass] cmd]|]; [|apply sent_with_refl].
  apply send_packet_sent_with.
Qed.

Lemma send_enum_sends_incremented (command_tuple : Z * Z * Z) (enum_value : Z)
    (usb_id : pyval) :
  sends_incremented SEND_WITH_ACK (_send_enum_command_packet_ack command_tuple enum_value usb_id).
Proof.
  apply sends_incremented_after_increment. intros st.
  destruct command_tuple as [[project myclass] cmd].
  destruct usb_id; try apply sent_with_refl.
  apply send_packet_sent_with.
Qed.

Lemma turn_degrees_sends_incremented (degrees : Z) :
  sends_incremented_once SEND_WITH_ACK (_get_command_tuple "Animations" "Cap")
    (turn_degrees degrees).
Proof.
  apply sends_incremented_bind_quiet; [apply get_command_tuple_quiet|intros command_tuple].
  apply sends_incremented_after_increment. intros st.
  destruct command_tuple as [[[project myclass] cmd]|]; [|apply sent_with_refl].
  apply send_packet_sent_with.
Qed.

Lemma turn_on_auto_takeoff_sends_incremented :
  sends_incremented_once SEND_WITH_ACK (_get_command_tuple "Piloting" "AutoTakeOffMode")
    turn_on_auto_takeoff.
Proof.
  apply sends_incremented_bind_quiet; [apply get_command_tuple_quiet|intros command_tuple].
  apply sends_incremented_after_increment. intros st.
  destruct command_tuple as [[[project myclass] cmd]|]; [|apply sent_with_refl].
  apply send_packet_sent_with.
Qed.

(** ** [fly_direct] *)

Lemma fly_direct_send_background (p : Poll) (packet : list byte) :
  framed (background polls_kept (is_send_write SEND_NO_ACK packet) is_ack_flag)
         (characteristic ← send_characteristic SEND_NO_ACK;
          _safe_ble_write characteristic packet;;
          waitForNotifications p;;
          mret tt).
Proof.
  apply framed_send_characteristic_bind; [typeclasses eauto|].
  apply framed_bind; [typeclasses eauto|apply safe_ble_write_background; typeclasses eauto|intros _].
  apply framed_bind; [typeclasses eauto| |intros _; apply framed_ret; typeclasses eauto].
  eapply framed_mono; [|apply waitForNotifications_background].
  intros st1 st2. apply background_mono; [done| |done]. intros w Hw. by right.
Qed.

Lemma pcmd_packet_sequence_byte (counter : Z) (command_tuple : Z * Z * Z)
    (my_roll my_pitch my_yaw my_vertical : Z) (packet : list byte) :
  pcmd_packet counter command_tuple my_roll my_pitch my_yaw my_vertical = Ok packet ->
  sequence_byte packet = Some counter.
Proof.
  destruct command_tuple as [[project myclass] cmd]. apply sequence_byte_pack.
Qed.

(** One round increments the counter of SEND_NO_ACK and writes a frame with
    the new value. *)
Lemma fly_direct_round_sends_incremented (p : Poll) (command_tuple : option (Z * Z * Z))
    (my_roll my_pitch my_yaw my_vertical : Z) :
  sends_incremented SEND_NO_ACK
    (fly_direct_round p command_tuple my_roll my_pitch my_yaw my_vertical).
Proof.
  apply sends_incremented_after_increment. intros st. munfold.
  destruct command_tuple as [t|]; [|apply sent_with_refl]. cbn [command_tuple_items].
  destruct (pcmd_packet _ _ _ _ _ _) as [packet|e] eqn:E; [|apply sent_with_refl].
  eapply background_sent_with; [done|by eapply pcmd_packet_sequence_byte|].
  apply (fly_direct_send_background p packet).
Qed.

(** Whatever happens in a round, a frame written on SEND_NO_ACK carries the
    four values the round was given. *)
Lemma fly_direct_round_writes (p : Poll) (command_tuple : option (Z * Z * Z))
    (my_roll my_pitch my_yaw my_vertical : Z) :
  framed (writes_only (carries SEND_NO_ACK (fun packet =>
            pcmd_arguments packet = Ok (my_roll, my_pitch, my_yaw, my_vertical))))
         (fly_direct_round p command_tuple my_roll my_pitch my_yaw my_vertical).
Proof.
  intros st. unfold fly_direct_round, increment_send_counter. munfold.
  destruct command_tuple as [t|]; [|by exists []]. cbn [command_tuple_items].
  cbv beta iota.
  destruct (pcmd_packet _ _ _ _ _ _) as [packet|e] eqn:E; [|by exists []].
  pose proof (fly_direct_send_background p packet
                (set_characteristic_send_counter
                   (dict_set (characteristic_send_counter st) SEND_NO_ACK
                      (incremented (characteristic_send_counter st SEND_NO_ACK))) st)) as Hb.
  eapply background_writes_only in Hb as (news & Hw & Hn).
  - exists news. split; [exact Hw|exact Hn].
  - intros w Hw. eapply send_write_carries; [done| |exact Hw].
    by eapply pcmd_arguments_pack.
Qed.

Lemma fly_direct_loop_writes (fuel : nat) (command_tuple : option (Z * Z * Z))
    (my_roll my_pitch my_yaw my_vertical : Z) :
  framed (writes_only (carries SEND_NO_ACK (fun packet =>
            pcmd_arguments packet = Ok (my_roll, my_pitch, my_yaw, my_vertical))))
         (fly_direct_loop fuel command_tuple my_roll my_pitch my_yaw my_vertical).
Proof.
  assert (forall W, framed (writes_only W) next_poll) as Hnext.
  { intros W. eapply framed_mono; [|apply (next_poll_background W (fun _ _ => True))].
    intros st1 st2. by apply background_writes_only. }
  induction fuel as [|fuel IH]; cbn [fly_direct_loop];
    (apply framed_bind; [typeclasses eauto|apply Hnext|intros [[]|]]);
    try (apply framed_ret || apply framed_out_of_fuel); try typeclasses eauto.
  all: apply framed_bind; [typeclasses eauto|apply fly_direct_round_writes|intros _; exact IH].
Qed.

(** Whatever the link and the rounds do, a frame that [fly_direct] writes on
    SEND_NO_ACK carries the clamped values. *)
Lemma fly_direct_writes_clamped (roll pitch yaw vertical_movement duration : Z) (st : Mambo) :
  exists news,
    written (drone (fly_direct roll pitch yaw vertical_movement duration st).2)
    = news ++ written (drone st)
    /\ Forall (fun packet =>
                 pcmd_arguments packet
                 = Ok (clamp roll, clamp pitch, clamp yaw, clamp vertical_movement))
              (writes_on SEND_NO_ACK news).
Proof.
  assert (framed (writes_only (carries SEND_NO_ACK (fun packet =>
            pcmd_arguments packet
            = Ok (clamp roll, clamp pitch, clamp yaw, clamp vertical_movement))))
            (fly_direct roll pitch yaw vertical_movement duration)) as H.
  { unfold fly_direct. rewrite !ensure_fly_command_in_range_clamp.
    apply framed_bind; [typeclasses eauto| |intros command_tuple].
    { eapply framed_mono; [apply quiet_writes_only|apply get_command_tuple_quiet]. }
    apply framed_bind; [typeclasses eauto|apply framed_get_self; typeclasses eauto|intros st'].
    apply fly_direct_loop_writes. }
  destruct (H st) as (news & E & Hn). exists news. split; [exact E|].
  by apply Forall_carries_writes_on.
Qed.

(** *** A flight that nothing disturbs *)

Lemma fly_direct_round_ok (command_tuple : Z * Z * Z)
    (my_roll my_pitch my_yaw my_vertical : Z) (st : Mambo) :
  link_ok st ->
  send_characteristics st SEND_NO_ACK = true ->
  (let '(project, myclass, cmd) := command_tuple in
   is_byte project /\ is_byte myclass /\ is_byte cmd) ->
  -128 <= my_roll <= 127 -> -128 <= my_pitch <= 127 ->
  -128 <= my_yaw <= 127 -> -128 <= my_vertical <= 127 ->
  returns (fly_direct_round Silence (Some command_tuple) my_roll my_pitch my_yaw my_vertical) st
    (fun _ st' =>
       link_ok st'
       /\ send_characteristics st' SEND_NO_ACK = true
       /\ poll_script (drone st') = poll_script (drone st)
       /\ characteristic_send_counter st' SEND_NO_ACK
          = incremented (characteristic_send_counter st SEND_NO_ACK)
       /\ exists packet,
            pcmd_packet (incremented (characteristic_send_counter st SEND_NO_ACK))
                        command_tuple my_roll my_pitch my_yaw my_vertical = Ok packet
            /\ written (drone st') = ToCharacteristic SEND_NO_ACK packet :: written (drone st)).
Proof.
  intros Hok Hsend Ht Hr Hp Hy Hv.
  destruct (pcmd_packet_fits (incremented (characteristic_send_counter st SEND_NO_ACK))
              command_tuple my_roll my_pitch my_yaw my_vertical) as [packet E]; try done.
  { apply incremented_range. }
  unfold fly_direct_round, increment_send_counter.
  apply returns_bind, returns_modify. apply returns_get_bind.
  cbn [characteristic_send_counter set_characteristic_send_counter].
  unfold dict_set at 1. rewrite decide_True by done.
  apply returns_bind, returns_lift. rewrite E. apply returns_bind, returns_lift.
  apply returns_bind, send_characteristic_ok; [done|].
  apply returns_bind.
  eapply returns_weaken; [by apply safe_ble_write_ok|].
  cbn beta. intros _ st1 ((l & news & Hl & Hn & ->) & Hok1 & Hw1).
  cbn [waitForNotifications]. apply returns_bind, returns_ret, returns_ret.
  cbn in *. unfold dict_set. rewrite decide_True by done.
  repeat split; try done. by exists packet.
Qed.

Lemma fly_direct_loop_ok (command_tuple : Z * Z * Z)
    (my_roll my_pitch my_yaw my_vertical : Z) (fuel : nat) (st : Mambo) :
  link_ok st ->
  send_characteristics st SEND_NO_ACK = true ->
  (let '(project, myclass, cmd) := command_tuple in
   is_byte project /\ is_byte myclass /\ is_byte cmd) ->
  -128 <= my_roll <= 127 -> -128 <= my_pitch <= 127 ->
  -128 <= my_yaw <= 127 -> -128 <= my_vertical <= 127 ->
  Forall (eq Silence) (rounds_of_wait (poll_script (drone st))) ->
  (length (poll_script (drone st)) <= fuel)%nat ->
  returns (fly_direct_loop fuel (Some command_tuple) my_roll my_pitch my_yaw my_vertical) st
    (fun _ st' =>
       poll_script (drone st') = after_wait (poll_script (drone st))
       /\ characteristic_send_counter st' SEND_NO_ACK
          = Nat.iter (length (rounds_of_wait (poll_script (drone st)))) incremented
                     (characteristic_send_counter st SEND_NO_ACK)
       /\ exists news,
            writes_on SEND_NO_ACK (written (drone st'))
            = news ++ writes_on SEND_NO_ACK (written (drone st))
            /\ length news = length (rounds_of_wait (poll_script (drone st)))
            /\ Forall (fun packet =>
                         pcmd_arguments packet
                         = Ok (my_roll, my_pitch, my_yaw, my_vertical)) news).
Proof.
  intros Hok Hsend Ht Hr Hp Hy Hv. revert st Hok Hsend.
  induction fuel as [|fuel IH]; intros st Hok Hsend Hrounds Hfuel.
  - destruct (poll_script (drone st)) as [|p rest] eqn:E; [|cbn in Hfuel; lia].
    destruct (next_poll_cases st) as [[_ E2]|(p & rest & E1 & _)]; [|congruence].
    cbn [fly_direct_loop]. apply returns_bind. exists None, st. split; [done|].
    apply returns_ret. split; [done|]. split; [done|]. by exists [].
  - cbn [fly_direct_loop]. apply returns_bind.
    destruct (next_poll_cases st) as [[E1 E2]|(p & rest & E1 & E2)].
    { exists None, st. split; [done|]. apply returns_ret. rewrite E1.
      split; [done|]. split; [done|]. by exists []. }
    exists (Some p), (set_drone (set_poll_script rest (drone st)) st). split; [done|].
    rewrite E1 in *. set (st1 := set_drone (set_poll_script rest (drone st)) st).
    destruct p; cbn [rounds_of_wait after_wait length] in *.
    + apply returns_ret. split; [done|]. split; [done|]. by exists [].
    + apply Forall_cons in Hrounds as [_ Hrounds].
      apply returns_bind.
      eapply returns_weaken; [by apply (fly_direct_round_ok command_tuple _ _ _ _ st1)|].
      cbn beta. intros _ st2 (Hok2 & Hsend2 & Hpoll2 & Hc2 & packet & E & Hw2).
      cbn in Hpoll2.
      eapply returns_weaken; [apply IH; [exact Hok2|exact Hsend2|by rewrite Hpoll2|]|].
      { rewrite Hpoll2. lia. }
      cbn beta. intros _ st' (Hpoll & Hc & news & Hw & Hlen & Hn).
      rewrite Hpoll2 in *. split; [exact Hpoll|]. split.
      { rewrite Hc, Hc2. cbn [characteristic_send_counter st1 set_drone].
        by rewrite Nat.iter_succ_r. }
      exists (news ++ [packet]). rewrite Hw, Hw2. cbn. rewrite decide_True by done.
      split; [by rewrite <- app_assoc|]. split.
      { rewrite length_app. cbn. lia. }
      apply Forall_app. split; [done|]. apply Forall_singleton.
      by eapply pcmd_arguments_pack.
    + by apply Forall_cons in Hrounds as [[=] _].
    + by apply Forall_cons in Hrounds as [[=] _].
Qed.

(** C4.  [_ensure_fly_command_in_range] clamps to [-100, 100]: 150 gives
    100, -150 gives -100, 37 is left as it is.  On a session that can send
    on SEND_NO_ACK and resolves Piloting/PCMD to three bytes, over a link
    that never fails and with rounds in which no notification arrives,
    [fly_direct] returns for every roll, pitch, yaw and vertical movement,
    in range or not; it writes one frame on SEND_NO_ACK in each round before
    the time is up, and each of these frames carries the four clamped
    values. *)
Theorem C4_fly_direct_clamps (roll pitch yaw vertical_movement duration : Z)
    (command_tuple : Z * Z * Z) (st : Mambo) :
  link_ok st ->
  send_characteristics st SEND_NO_ACK = true ->
  (_get_command_tuple "Piloting" "PCMD" st).1 = Ret (Some command_tuple) ->
  (let '(project, myclass, cmd) := command_tuple in
   is_byte project /\ is_byte myclass /\ is_byte cmd) ->
  Forall (eq Silence) (rounds_of_wait (poll_script (drone st))) ->
  _ensure_fly_command_in_range 150 = 100
  /\ _ensure_fly_command_in_range (-150) = -100
  /\ _ensure_fly_command_in_range 37 = 37
  /\ (forall value, _ensure_fly_command_in_range value = Z.max (-100) (Z.min 100 value))
  /\ returns (fly_direct roll pitch yaw vertical_movement duration) st
       (fun _ st' =>
          exists news,
            writes_on SEND_NO_ACK (written (drone st'))
            = news ++ writes_on SEND_NO_ACK (written (drone st))
            /\ length news = length (rounds_of_wait (poll_script (drone st)))
            /\ Forall (fun packet =>
                         pcmd_arguments packet
                         = Ok (clamp roll, clamp pitch, clamp yaw, clamp vertical_movement))
                      news).
Proof.
  intros Hok Hsend Hcmd Ht Hrounds.
  do 3 (split; [reflexivity|]). split; [apply ensure_fly_command_in_range_clamp|].
  unfold fly_direct. rewrite !ensure_fly_command_in_range_clamp.
  apply returns_bind.
  pose proof (get_command_tuple_quiet "Piloting" "PCMD" st) as Hq.
  destruct (_get_command_tuple "Piloting" "PCMD" st) as [o st1] eqn:E.
  cbn in Hcmd, Hq. subst o. destruct Hq as (Hd & _ & _ & Hs & _).
  exists (Some command_tuple), st1. split; [done|].
  apply returns_get_bind.
  eapply returns_weaken.
  { apply (fly_direct_loop_ok command_tuple); try done.
    - unfold link_ok. by rewrite Hd.
    - by rewrite Hs.
    - pose proof (clamp_range roll). lia.
    - pose proof (clamp_range pitch). lia.
    - pose proof (clamp_range yaw). lia.
    - pose proof (clamp_range vertical_movement). lia.
    - by rewrite Hd. }
  cbn beta. intros _ st' (_ & _ & news & Hw & Hlen & Hn).
  rewrite Hd in *. by exists news.
Qed.

Lemma C4_fly_direct_150_witness :
  let st := sample_connected [] [Silence; Silence; Deadline; Silence] in
  _ensure_fly_command_in_range 150 = 100
  /\ _ensure_fly_command_in_range (-150) = -100
  /\ _ensure_fly_command_in_range 37 = 37
  /\ (forall value, _ensure_fly_command_in_range value = Z.max (-100) (Z.min 100 value))
  /\ returns (fly_direct 150 (-150) 37 0 200) st
       (fun _ st' =>
          exists news,
            writes_on SEND_NO_ACK (written (drone st'))
            = news ++ writes_on SEND_NO_ACK (written (drone st))
            /\ length news = length (rounds_of_wait (poll_script (drone st)))
            /\ Forall (fun packet =>
                         pcmd_arguments packet
                         = Ok (clamp 150, clamp (-150), clamp 37, clamp 0))
                      news).
Proof.
  apply (C4_fly_direct_clamps 150 (-150) 37 0 200 (2, 0, 2)
           (sample_connected [] [Silence; Silence; Deadline; Silence])).
  - vm_compute. constructor.
  - vm_compute. reflexivity.
  - vm_compute. reflexivity.
  - vm_compute. repeat split; discriminate.
  - vm_compute. repeat constructor.
Defined.

(** ** The counters of the send channels *)

Lemma iter_increment_send_counter (channel : Channel) (n : nat) (st : Mambo) :
  characteristic_send_counter
    (Nat.iter n (fun s => (increment_send_counter channel s).2) st) channel
  = Nat.iter n incremented (characteristic_send_counter st channel).
Proof.
  induction n as [|n IH]; [done|].
  change (Nat.iter (S n) incremented (characteristic_send_counter st channel))
    with (incremented (Nat.iter n incremented (characteristic_send_counter st channel))).
  rewrite <- IH. cbn. unfold dict_set. by rewrite decide_True.
Qed.

(** On a link that never fails the retry loop ends, after as many writes
    of the packet as the budget leaves, and after one at least if it starts
    with the flag down. *)
Lemma send_loop_returns (packet : list byte) (fuel : nat) :
  forall (try_num : Z) (st : Mambo),
    ready st ->
    (Z.to_nat (3 - try_num) <= fuel)%nat ->
    returns (send_command_packet_ack_loop fuel try_num packet) st
      (fun _ st' =>
         exists k,
           (k <= Z.to_nat (3 - try_num))%nat
           /\ (try_num < 3 -> command_received st SEND_WITH_ACK = false -> (1 <= k)%nat)
           /\ acked_writes st' = replicate k packet ++ acked_writes st).
Proof.
  induction fuel as [|fuel IH]; intros try_num st Hready Hfuel.
  - apply send_loop_done.
    { left. destruct Hready as (_ & _ & ->). lia. }
    exists 0%nat. split; [lia|]. split; [lia|done].
  - destruct (decide (try_num < 3)) as [Htry|Htry].
    2: { apply send_loop_done.
         { left. destruct Hready as (_ & _ & ->). lia. }
         exists 0%nat. split; [lia|]. split; [lia|done]. }
    destruct (command_received st SEND_WITH_ACK) eqn:Hflag.
    { apply send_loop_done; [by right|].
      exists 0%nat. split; [lia|]. split; [done|done]. }
    apply send_loop_step; [done..|].
    eapply returns_weaken; [by apply attempt_ok|].
    cbn beta. intros _ st1 (Hready1 & _ & Hw & _).
    eapply returns_weaken; [apply (IH (try_num + 1) st1 Hready1); lia|].
    cbn beta. intros _ st' (k & Hk & _ & Hw').
    exists (S k). split; [lia|]. split; [lia|].
    rewrite Hw', Hw. by rewrite replicate_app_cons.
Qed.

(** On a link that never fails, a command without parameters is sent: the
    method returns, having written its frame at least once and at most
    three times, and the frame carries the incremented counter. *)
Lemma send_noparam_returns (command_tuple : Z * Z * Z) (st : Mambo) :
  ready st ->
  (let '(project, myclass, cmd) := command_tuple in
   is_byte project /\ is_byte myclass /\ is_byte cmd) ->
  returns (_send_noparam_command_packet_ack (Some command_tuple)) st
    (fun _ st' =>
       characteristic_send_counter st' SEND_WITH_ACK
       = incremented (characteristic_send_counter st SEND_WITH_ACK)
       /\ exists packet k,
            (1 <= k <= 3)%nat
            /\ sequence_byte packet
               = Some (incremented (characteristic_send_counter st SEND_WITH_ACK))
            /\ acked_writes st' = replicate k packet ++ acked_writes st).
Proof.
  destruct command_tuple as [[project myclass] cmd].
  intros Hready (Hp & Hm & Hc). unfold is_byte in *.
  pose proof (incremented_range (characteristic_send_counter st SEND_WITH_ACK)) as Hi.
  unfold is_byte in Hi.
  unfold _send_noparam_command_packet_ack, increment_send_counter.
  apply returns_bind, returns_modify.
  set (st1 := set_characteristic_send_counter _ st).
  assert (characteristic_send_counter st1 SEND_WITH_ACK
          = incremented (characteristic_send_counter st SEND_WITH_ACK)) as Hc1.
  { unfold st1. cbn. unfold dict_set. by rewrite decide_True. }
  assert (ready st1) as Hready1.
  { destruct Hready as (H1 & H2 & H3). by repeat split. }
  assert (acked_writes st1 = acked_writes st) as Hw1 by done.
  clearbody st1. apply returns_get_bind. rewrite Hc1.
  cbn [command_tuple_items]. apply returns_bind, returns_lift.
  destruct (struct_pack _) as [packet|e] eqn:E.
  2: { exfalso. revert E. cbn [struct_pack]. rewrite !pack_int_fits by (cbn; lia). done. }
  apply returns_bind, returns_lift.
  eapply returns_weaken.
  { eapply returns_framed; [apply (send_command_packet_ack_background packet)|].
    apply (send_command_packet_ack_returns packet st1
             (fun _ st' => exists k, (1 <= k <= 3)%nat
                                     /\ acked_writes st' = replicate k packet ++ acked_writes st1)).
    eapply returns_weaken; [apply send_loop_returns|].
    - destruct Hready1 as (H1 & H2 & H3). by repeat split.
    - destruct Hready1 as (_ & _ & H3). rewrite H3. cbn. lia.
    - cbn beta. intros _ st' (k & Hk & Hk1 & Hw). exists k. split; [|exact Hw].
      split; [|cbn in Hk; lia]. apply Hk1; [lia|]. cbn. unfold dict_set.
      by rewrite decide_True. }
  cbn beta. intros b st' (Hb & k & Hk & Hw).
  split.
  { by rewrite (bg_counter _ _ _ _ _ Hb). }
  exists packet, k. split; [done|].
  split; [by eapply sequence_byte_pack|]. by rewrite Hw, Hw1.
Qed.

(** ** [struct]: what is packed is what is unpacked *)

Lemma length_le_encode (width : nat) (v : Z) : length (le_encode width v) = width.
Proof.
  revert v. induction width as [|w IH]; intros v; [done|]. cbn. by rewrite IH.
Qed.

Lemma le_decode_encode (width : nat) (v : Z) :
  le_decode (le_encode width v) = v mod 2 ^ (8 * Z.of_nat width).
Proof.
  revert v. induction width as [|w IH]; intros v.
  - cbn. by rewrite Z.mod_1_r.
  - cbn [le_encode le_decode]. rewrite IH, Z_of_byte_of_Z.
    replace (2 ^ (8 * Z.of_nat (S w))) with (256 * 2 ^ (8 * Z.of_nat w)).
    + rewrite Z.rem_mul_r; [done|lia|]. apply Z.pow_pos_nonneg; lia.
    + rewrite Nat2Z.inj_succ.
      replace (8 * Z.succ (Z.of_nat w)) with (8 + 8 * Z.of_nat w) by lia.
      rewrite Z.pow_add_r by lia. done.
Qed.

Lemma bytes_at_middle (pre mid post : list byte) :
  bytes_at (pre ++ mid ++ post) (length pre) (length mid) = Ok mid.
Proof.
  unfold bytes_at.
  replace (length pre + length mid <=? length (pre ++ mid ++ post))%nat with true.
  - by rewrite drop_app_length, take_app_length.
  - symmetry. apply Nat.leb_le. rewrite !length_app. lia.
Qed.

(** An integer that fits its format is read back from where it was packed. *)
Lemma unpack_int_encode (f : int_format) (v : Z) (pre post : list byte) :
  fmt_min f <= v <= fmt_max f ->
  unpack_int f (pre ++ le_encode (fmt_width f) v ++ post) (length pre) = Ok v.
Proof.
  intros Hv. unfold unpack_int.
  rewrite <- (length_le_encode (fmt_width f) v) at 2.
  rewrite bytes_at_middle. unfold result_map, result_bind. f_equal.
  rewrite le_decode_encode.
  assert (forall M, 0 < M -> 0 <= v < M -> v mod M = v) as Hsmall.
  { intros M HM Hr. by apply Z.mod_small. }
  assert (forall M, 0 < M -> - M <= v < 0 -> v mod M = v + M) as Hneg.
  { intros M HM Hr. rewrite <- (Z_mod_plus_full v 1 M). rewrite Z.mod_small; lia. }
  destruct f; cbn in Hv |- *;
    (destruct (Z.neg_nonneg_cases v) as [Hs|Hs];
     [first [rewrite Hneg by lia | lia] | rewrite Hsmall by lia]);
    try match goal with |- context [?a <? ?b] => destruct (Z.ltb_spec a b) end; lia.
Qed.

(** ** Which exceptions a method can raise *)

Section raises_only_rules.
Context (E : exn -> Prop).

Lemma raises_only_ret {A} (a : A) : raises_only E (mret a).
Proof. by intros st e. Qed.

Lemma raises_only_lift {A} (r : result A) :
  (forall e, r = Err e -> E e) -> raises_only E (lift r).
Proof. intros H st e. destruct r; cbn; [done|]. intros [= <-]. by apply H. Qed.

Lemma raises_only_raise {A} (e : exn) : E e -> raises_only E (@raise A e).
Proof. intros H st e'. cbn. by intros [= <-]. Qed.

Lemma raises_only_out_of_fuel {A} : raises_only E (@out_of_fuel A).
Proof. by intros st e. Qed.

Lemma raises_only_get_self : raises_only E get_self.
Proof. by intros st e. Qed.

Lemma raises_only_modify (g : Mambo -> Mambo) : raises_only E (modify g).
Proof. by intros st e. Qed.

Lemma raises_only_bind {A B} (m : M A) (f : A -> M B) :
  raises_only E m -> (forall a, raises_only E (f a)) -> raises_only E (m ≫= f).
Proof.
  intros Hm Hf st e. specialize (Hm st). unfold mbind, M_bind.
  destruct (m st) as [[a|e'|] st1]; cbn in *; [apply Hf| |done].
  intros [= <-]. by apply Hm.
Qed.

Lemma raises_only_try_except_BTLE {A} (body handler : M A) :
  raises_only (fun e => e = BTLEException \/ E e) body ->
  raises_only E handler ->
  raises_only E (try_except_BTLE body handler).
Proof.
  intros Hb Hh st e. specialize (Hb st). unfold try_except_BTLE.
  destruct (body st) as [[a|e'|] st1] eqn:Eb; cbn in *; [done| |done].
  destruct (Hb e' eq_refl) as [->|He]; [apply Hh|].
  destruct e'; try apply Hh; cbn; by intros [= <-].
Qed.

Lemma raises_only_try_except {A} (body handler : M A) :
  raises_only E handler -> raises_only E (try_except body handler).
Proof.
  intros Hh st e. unfold try_except.
  destruct (body st) as [[a|e'|] st1]; cbn; [done|apply Hh|done].
Qed.
End raises_only_rules.

Lemma raises_only_mono {A} (E E' : exn -> Prop) (m : M A) :
  (forall e, E e -> E' e) -> raises_only E m -> raises_only E' m.
Proof. intros H Hm st e He. by eapply H, Hm. Qed.

Ltac raises_step :=
  lazymatch goal with
  | |- raises_only _ (mret _) => apply raises_only_ret
  | |- raises_only _ (lift (Ok _)) => apply raises_only_lift; intros ? [=]
  | |- raises_only _ out_of_fuel => apply raises_only_out_of_fuel
  | |- raises_only _ get_self => apply raises_only_get_self
  | |- raises_only _ (modify _) => apply raises_only_modify
  | |- raises_only _ (_ ≫= _) => apply raises_only_bind; [|intros ?]
  | |- raises_only _ (match ?x with _ => _ end) => destruct x
  | |- raises_only _ (let (_, _) := ?x in _) => destruct x
  | |- raises_only _ (if ?b then _ else _) => destruct b
  end.

(** *** The link raises BTLEException and nothing else *)

Lemma link_call_raises : raises_only (eq BTLEException) link_call.
Proof.
  unfold link_call. repeat raises_step. by apply raises_only_raise.
Qed.

Lemma characteristic_write_raises (c : Channel) (packet : list byte) :
  raises_only (eq BTLEException) (characteristic_write c packet).
Proof.
  unfold characteristic_write, log_written. raises_step; [apply link_call_raises|].
  raises_step.
Qed.

Lemma perform_handshake_raises : raises_only (eq BTLEException) _perform_handshake.
Proof.
  unfold _perform_handshake. raises_step; [raises_step|].
  induction (handshake_characteristics a) as [|handle rest IH]; cbn [perform_handshake_loop].
  - raises_step.
  - raises_step; [apply raises_only_lift; by intros e [=]|].
    raises_step; [|exact IH].
    unfold drone_writeCharacteristic, log_written.
    raises_step; [apply link_call_raises|raises_step].
Qed.

Lemma reconnect_loop_raises (fuel : nat) (try_num num_retries : Z) :
  raises_only (eq BTLEException) (reconnect_loop fuel try_num num_retries).
Proof.
  revert try_num. induction fuel as [|fuel IH]; intros try_num; cbn [reconnect_loop];
    (destruct (try_num <? num_retries); [|by raises_step]); [by raises_step|].
  raises_step; [|destruct a; [raises_step|apply IH]].
  apply raises_only_try_except_BTLE; [|raises_step].
  unfold drone_connect. raises_step; [|raises_step].
  eapply raises_only_mono; [|apply link_call_raises]. by left.
Qed.

Lemma reconnect_raises (num_retries : Z) :
  raises_only (eq BTLEException) (_reconnect num_retries).
Proof.
  unfold _reconnect. raises_step; [apply reconnect_loop_raises|].
  raises_step; [|raises_step]. destruct a; [apply perform_handshake_raises|raises_step].
Qed.

(** [_safe_ble_write] lets nothing out but the BTLEException of a
    handshake that fails while it reconnects. *)
Lemma safe_ble_write_raises (c : Channel) (packet : list byte) :
  raises_only (eq BTLEException) (_safe_ble_write c packet).
Proof.
  unfold _safe_ble_write. raises_step; [raises_step|].
  induction (S (length (link_script (drone a)))) as [|fuel IH]; cbn [safe_ble_write_loop].
  - raises_step.
  - raises_step; [|destruct a0; [raises_step|exact IH]].
    apply raises_only_try_except_BTLE.
    + raises_step; [|raises_step].
      eapply raises_only_mono; [|apply characteristic_write_raises]. by left.
    + raises_step; [apply reconnect_raises|raises_step].
Qed.

(** ** [_safe_ble_write]: the packet is written once *)

Lemma characteristic_write_outcomes (c : Channel) (packet : list byte) (st : Mambo) :
  (exists st1, characteristic_write c packet st = (Ret tt, st1)
               /\ written (drone st1) = ToCharacteristic c packet :: written (drone st))
  \/ (exists st1, characteristic_write c packet st = (Raise BTLEException, st1)
                  /\ written (drone st1) = written (drone st)).
Proof.
  unfold characteristic_write, link_call, log_written. munfold.
  destruct (link_script (drone st)) as [|[] rest] eqn:E; cbn; eauto.
Qed.

Lemma safe_ble_write_loop_log (fuel : nat) (c : Channel) (packet : list byte) :
  forall (st st' : Mambo) (o : outcome unit),
    safe_ble_write_loop fuel c packet st = (o, st') ->
    exists news,
      Forall is_handle_write news
      /\ written (drone st')
         = match o with
           | Ret _ => ToCharacteristic c packet :: news ++ written (drone st)
           | _ => news ++ written (drone st)
           end.
Proof.
  induction fuel as [|fuel IH]; intros st st' o H.
  { injection H as <- <-. by exists []. }
  cbn [safe_ble_write_loop] in H. unfold mbind, M_bind, try_except_BTLE in H.
  destruct (characteristic_write_outcomes c packet st) as [(st1 & E & Hw)|(st1 & E & Hw)];
    rewrite E in H; cbn in H.
  { injection H as <- <-. exists []. by rewrite Hw. }
  pose proof (reconnect_framed is_handle_write 3 (fun _ H => H) st1)
    as (l & news1 & _ & Hn1 & E1).
  destruct (_reconnect 3 st1) as [[b|e|] st2]; cbn in E1, H.
  - destruct (IH _ _ _ H) as (news2 & Hn2 & E2). exists (news2 ++ news1).
    split; [by apply Forall_app|]. rewrite E2. subst st2. cbn. rewrite Hw.
    destruct o; by rewrite <- app_assoc.
  - injection H as <- <-. exists news1. subst st2. cbn. by rewrite Hw.
  - injection H as <- <-. exists news1. subst st2. cbn. by rewrite Hw.
Qed.

(** While the link stays down the loop of [_safe_ble_write] goes on: a
    round uses up three answers of the link (the write and the two
    connection attempts of [_reconnect(3)]), writes nothing and leaves the
    loop where it was. *)
Lemma safe_ble_write_loop_link_down (c : Channel) (packet : list byte) (n : nat) :
  forall (st : Mambo) (rest : list bool),
    link_script (drone st) = replicate (3 * n) true ++ rest ->
    safe_ble_write_loop n c packet st
    = (OutOfFuel, set_drone (set_link_script rest (drone st)) st).
Proof.
  induction n as [|n IH]; intros st rest Hscript.
  { cbn in Hscript |- *. unfold out_of_fuel. f_equal. rewrite <- Hscript.
    by destruct st as [[]]. }
  replace (3 * S n)%nat with (S (S (S (3 * n)))) in Hscript by lia.
  cbn [replicate app] in Hscript.
  cbn [safe_ble_write_loop].
  unfold mbind at 1, M_bind at 1, try_except_BTLE.
  unfold characteristic_write at 1. unfold mbind at 1, M_bind at 1.
  unfold mbind at 1, M_bind at 1.
  rewrite (link_call_failed st _ Hscript).
  set (st1 := set_drone (set_link_script (true :: true :: replicate (3 * n) true ++ rest)
                                         (drone st)) st).
  assert (_reconnect 3 st1
          = (Ret false,
             set_drone (set_link_script (replicate (3 * n) true ++ rest) (drone st)) st)) as Hr.
  { unfold _reconnect. change (Z.to_nat (3 - 1)) with 2%nat. cbn [reconnect_loop].
    change (1 <? 3) with true. change (1 + 1 <? 3) with true. cbv iota.
    unfold drone_connect.
    unfold mbind at 1, M_bind at 1. unfold mbind at 1, M_bind at 1.
    unfold try_except_BTLE at 1. unfold mbind at 1, M_bind at 1.
    rewrite (link_call_failed st1 (true :: replicate (3 * n) true ++ rest) eq_refl).
    cbn [mret M_ret]. cbv iota.
    set (st2 := set_drone (set_link_script (true :: replicate (3 * n) true ++ rest)
                                           (drone st1)) st1).
    unfold mbind at 1, M_bind at 1. unfold try_except_BTLE at 1.
    unfold mbind at 1, M_bind at 1.
    rewrite (link_call_failed st2 (replicate (3 * n) true ++ rest) eq_refl).
    cbn [mret M_ret]. cbv iota. change (1 + 1 + 1 <? 3) with false. cbv iota.
    unfold mbind, M_bind. cbn. done. }
  unfold mbind at 1, M_bind at 1. rewrite Hr. cbn [mret M_ret]. cbv iota.
  rewrite (IH _ rest); [|done]. done.
Qed.

(** What [_safe_ble_write] has written.  When it returns, the packet has
    reached its characteristic exactly once, as the last write, and whatever
    it wrote before is the handshake of a reconnection.  It raises nothing
    but the BTLEException of a handshake that fails, and then -- as at any
    moment before it has ended -- the packet is not written.  There is no
    retry bound: a link that fails for the next [3 * n] calls keeps the loop
    going for [n] rounds, with nothing written. *)
Theorem safe_ble_write_writes_once (c : Channel) (packet : list byte) (st : Mambo) :
  (exists news,
     Forall is_handle_write news
     /\ match (_safe_ble_write c packet st).1 with
        | Ret _ =>
            written (drone (_safe_ble_write c packet st).2)
            = ToCharacteristic c packet :: news ++ written (drone st)
        | Raise e =>
            e = BTLEException
            /\ written (drone (_safe_ble_write c packet st).2) = news ++ written (drone st)
        | OutOfFuel =>
            written (drone (_safe_ble_write c packet st).2) = news ++ written (drone st)
        end)
  /\ forall (n : nat) (rest : list bool),
       link_script (drone st) = replicate (3 * n) true ++ rest ->
       safe_ble_write_loop n c packet st
       = (OutOfFuel, set_drone (set_link_script rest (drone st)) st).
Proof.
  split; [|intros n rest; apply safe_ble_write_loop_link_down].
  pose proof (safe_ble_write_raises c packet st) as Hr.
  unfold _safe_ble_write in *. unfold mbind, M_bind, get_self in *.
  destruct (safe_ble_write_loop _ c packet st) as [o st'] eqn:E.
  destruct (safe_ble_write_loop_log _ _ _ _ _ _ E) as (news & Hn & Hw).
  exists news. split; [done|]. cbn in *.
  destruct o as [[]|e|]; [done| |done].
  split; [symmetry; by apply Hr|done].
Qed.

(** ** Looking a command up: the errors and what is left alone *)

Lemma children_error {A} (l : list A) (e : exn) :
  children l = Err e -> e = AttributeError.
Proof. destruct l; cbn; congruence. Qed.

Lemma find_class_cmd_error (myclass cmd : string) (classes : list XmlClass) (e : exn) :
  find_class_cmd myclass cmd classes = Err e -> e = AttributeError.
Proof.
  induction classes as [|child rest IH]; cbn [find_class_cmd]; [done|].
  destruct (String.eqb _ _); [|done].
  destruct (children (class_cmd child)) as [subchildren|e'] eqn:E; cbn.
  - by destruct (find_cmd cmd subchildren).
  - intros [= <-]. by eapply children_error.
Qed.

Lemma find_arg_enum_error (enum_name : string) (args : list XmlArg) (e : exn) :
  find_arg_enum enum_name args = Err e -> e = AttributeError.
Proof.
  induction args as [|arg_child rest IH]; cbn [find_arg_enum]; [done|].
  destruct (String.eqb _ _); [|done].
  destruct (children (arg_enum arg_child)) as [enums|e'] eqn:E; cbn.
  - by destruct (find_enum enum_name 0 enums).
  - intros [= <-]. by eapply children_error.
Qed.

Lemma find_cmd_enum_error (cmd enum_name : string) (subchildren : list XmlCmd) (e : exn) :
  find_cmd_enum cmd enum_name subchildren = Err e -> e = AttributeError.
Proof.
  induction subchildren as [|subchild rest IH]; cbn [find_cmd_enum]; [done|].
  destruct (String.eqb _ _); [|done].
  destruct (children (cmd_arg subchild)) as [args|e'] eqn:E; cbn.
  2: { intros [= <-]. by eapply children_error. }
  destruct (find_arg_enum enum_name args) as [[enum_id|]|e'] eqn:E2; cbn; [done|done|].
  intros [= <-]. by eapply find_arg_enum_error.
Qed.

Lemma find_class_cmd_enum_error (myclass cmd enum_name : string) (classes : list XmlClass)
    (e : exn) :
  find_class_cmd_enum myclass cmd enum_name classes = Err e -> e = AttributeError.
Proof.
  induction classes as [|child rest IH]; cbn [find_class_cmd_enum]; [done|].
  destruct (String.eqb _ _); [|done].
  destruct (children (class_cmd child)) as [subchildren|e'] eqn:E; cbn.
  2: { intros [= <-]. by eapply children_error. }
  destruct (find_cmd_enum cmd enum_name subchildren) as [[[cmd_id' enum_id]|]|e'] eqn:E2;
    cbn; [done|done|].
  intros [= <-]. by eapply find_cmd_enum_error.
Qed.

Lemma find_class_cmd_by_id_error (myclass_id cmd_id' : Z) (classes : list XmlClass) (e : exn) :
  find_class_cmd_by_id myclass_id cmd_id' classes = Err e -> e = AttributeError.
Proof.
  induction classes as [|c rest IH]; cbn [find_class_cmd_by_id]; [done|].
  destruct (_ =? _); [|done].
  destruct (children (class_cmd c)) as [cmds|e'] eqn:E; cbn.
  - by destruct (find_cmd_by_id cmd_id' cmds).
  - intros [= <-]. by eapply children_error.
Qed.

Lemma read_xml_raises (E : exn -> Prop) (which : Mambo -> XmlProject) :
  raises_only E (read_xml which).
Proof. unfold read_xml. repeat raises_step. Qed.

Lemma search_command_tuple_raises (project : XmlProject) (myclass cmd : string) :
  raises_only (eq AttributeError) (search_command_tuple project myclass cmd).
Proof.
  unfold search_command_tuple.
  raises_step; [apply raises_only_lift; intros e H; symmetry; by eapply children_error|].
  raises_step; [apply raises_only_lift; intros e H; symmetry; by eapply find_class_cmd_error|].
  repeat raises_step.
Qed.

Lemma get_command_tuple_raises (myclass cmd : string) :
  raises_only (eq AttributeError) (_get_command_tuple myclass cmd).
Proof.
  unfold _get_command_tuple. raises_step; [raises_step|].
  raises_step; [raises_step|].
  raises_step; [apply read_xml_raises|].
  raises_step; [apply search_command_tuple_raises|].
  raises_step; [raises_step|].
  raises_step; [apply read_xml_raises|apply search_command_tuple_raises].
Qed.

Lemma search_command_tuple_with_enum_raises (project : XmlProject)
    (myclass cmd enum_name : string) :
  raises_only (eq AttributeError)
              (search_command_tuple_with_enum project myclass cmd enum_name).
Proof.
  unfold search_command_tuple_with_enum.
  raises_step; [apply raises_only_lift; intros e H; symmetry; by eapply children_error|].
  raises_step;
    [apply raises_only_lift; intros e H; symmetry; by eapply find_class_cmd_enum_error|].
  repeat raises_step.
Qed.

Lemma get_command_tuple_with_enum_raises (myclass cmd enum_name : string) :
  raises_only (eq AttributeError) (_get_command_tuple_with_enum myclass cmd enum_name).
Proof.
  unfold _get_command_tuple_with_enum. raises_step; [raises_step|].
  raises_step; [raises_step|].
  raises_step; [apply read_xml_raises|].
  raises_step; [apply search_command_tuple_with_enum_raises|].
  raises_step; [raises_step|].
  raises_step; [apply read_xml_raises|apply search_command_tuple_with_enum_raises].
Qed.

Lemma get_command_tuple_total (myclass cmd : string) : total (_get_command_tuple myclass cmd).
Proof.
  unfold _get_command_tuple, search_command_tuple, read_xml. total_auto.
Qed.

Lemma get_command_tuple_with_enum_total (myclass cmd enum_name : string) :
  total (_get_command_tuple_with_enum myclass cmd enum_name).
Proof.
  unfold _get_command_tuple_with_enum, search_command_tuple_with_enum, read_xml. total_auto.
Qed.

#[global] Instance resolving_preorder : PreOrder resolving.
Proof.
  split.
  - intros st. split; reflexivity.
  - intros st1 st2 st3 [H1 H2] [H3 H4]. split; by etrans.
Qed.

Lemma resolving_modify (g : Mambo -> Mambo) :
  (forall st, resolving st (g st)) -> framed resolving (modify g).
Proof. intros H. by apply framed_modify. Qed.

Lemma read_xml_resolving (which : Mambo -> XmlProject) : framed resolving (read_xml which).
Proof.
  unfold read_xml.
  apply framed_bind; [typeclasses eauto| |intros _].
  { apply framed_modify. intros st. by repeat split. }
  apply framed_bind; [typeclasses eauto|apply framed_get_self; typeclasses eauto|intros st].
  apply framed_ret; typeclasses eauto.
Qed.

Lemma search_command_tuple_resolving (project : XmlProject) (myclass cmd : string) :
  framed resolving (search_command_tuple project myclass cmd).
Proof.
  unfold search_command_tuple.
  apply framed_bind; [typeclasses eauto|apply framed_lift; typeclasses eauto|intros classes].
  apply framed_bind; [typeclasses eauto|apply framed_lift; typeclasses eauto|intros r].
  destruct r as [[class_id cmd_id]|]; [|apply framed_ret; typeclasses eauto].
  apply framed_bind; [typeclasses eauto| |intros _; apply framed_ret; typeclasses eauto].
  apply framed_modify. intros st. by repeat split.
Qed.

Lemma get_command_tuple_resolving (myclass cmd : string) :
  framed resolving (_get_command_tuple myclass cmd).
Proof.
  unfold _get_command_tuple.
  apply framed_bind; [typeclasses eauto|apply framed_get_self; typeclasses eauto|intros st].
  destruct (command_tuple_cache st !! (myclass, cmd)); [apply framed_ret; typeclasses eauto|].
  apply framed_bind; [typeclasses eauto|apply read_xml_resolving|intros minidrone].
  apply framed_bind; [typeclasses eauto|apply search_command_tuple_resolving|intros r].
  destruct r; [apply framed_ret; typeclasses eauto|].
  apply framed_bind; [typeclasses eauto|apply read_xml_resolving|intros common].
  apply search_command_tuple_resolving.
Qed.

Lemma search_command_tuple_with_enum_resolving (project : XmlProject)
    (myclass cmd enum_name : string) :
  framed resolving (search_command_tuple_with_enum project myclass cmd enum_name).
Proof.
  unfold search_command_tuple_with_enum.
  apply framed_bind; [typeclasses eauto|apply framed_lift; typeclasses eauto|intros classes].
  apply framed_bind; [typeclasses eauto|apply framed_lift; typeclasses eauto|intros r].
  destruct r as [[[class_id cmd_id] enum_id]|]; [|apply framed_ret; typeclasses eauto].
  apply framed_bind; [typeclasses eauto| |intros _; apply framed_ret; typeclasses eauto].
  apply framed_modify. intros st. by repeat split.
Qed.

Lemma get_command_tuple_with_enum_resolving (myclass cmd enum_name : string) :
  framed resolving (_get_command_tuple_with_enum myclass cmd enum_name).
Proof.
  unfold _get_command_tuple_with_enum.
  apply framed_bind; [typeclasses eauto|apply framed_get_self; typeclasses eauto|intros st].
  destruct (command_tuple_cache_enum st !! (myclass, cmd, enum_name));
    [apply framed_ret; typeclasses eauto|].
  apply framed_bind; [typeclasses eauto|apply read_xml_resolving|intros minidrone].
  apply framed_bind;
    [typeclasses eauto|apply search_command_tuple_with_enum_resolving|intros r].
  destruct r; [apply framed_ret; typeclasses eauto|].
  apply framed_bind; [typeclasses eauto|apply read_xml_resolving|intros common].
  apply search_command_tuple_with_enum_resolving.
Qed.

(** ** The USB accessories *)

Lemma usb_accessory_raises (cmd enum_name : string) (id : sensor_attr) (st : Mambo) :
  attr (sensors st) id <> PyNone ->
  raises_unsent (usb_accessory cmd enum_name id) st.
Proof.
  intros Hid. unfold raises_unsent.
  destruct (usb_accessory cmd enum_name id st) as [o st'] eqn:E. cbn [fst snd].
  unfold usb_accessory in E. unfold mbind, M_bind in E.
  pose proof (get_command_tuple_with_enum_total "UsbAccessory" cmd enum_name st) as Ht.
  pose proof (get_command_tuple_with_enum_raises "UsbAccessory" cmd enum_name st) as Hr.
  pose proof (get_command_tuple_with_enum_resolving "UsbAccessory" cmd enum_name st)
    as [(Hd & _) Hs].
  destruct (_get_command_tuple_with_enum "UsbAccessory" cmd enum_name st)
    as [[[[[[project myclass] cmd_id'] enum_id]|]|e|] st1]; cbn in Ht, Hr, Hd, Hs.
  - unfold same_sensors in Hs. unfold get_self in E. rewrite Hs in E.
    unfold _send_enum_command_packet_ack, increment_send_counter in E.
    unfold mbind, M_bind, modify, get_self, raise in E.
    exists TypeError.
    destruct (attr (sensors st) id); [done|injection E as <- <-; auto..].
  - injection E as <- <-. exists TypeError. auto.
  - injection E as <- <-. exists e. rewrite <- (Hr e eq_refl). auto.
  - done.
Qed.

(** [open_claw], [close_claw] and [fire_gun] never send their command.  The
    accessory id they pass on is not [None] (it is 0 in a new
    [MamboSensors]), and with an id [_send_enum_command_packet_ack] calls
    [_debug_print] with nine arguments: the three methods end in TypeError
    (AttributeError if the XML lacks an element the search reads), with
    nothing written and no call into the link. *)
Theorem usb_accessories_never_send (st : Mambo) :
  attr (sensors st) claw_id <> PyNone ->
  attr (sensors st) gun_id <> PyNone ->
  raises_unsent open_claw st /\ raises_unsent close_claw st /\ raises_unsent fire_gun st.
Proof.
  intros Hclaw Hgun. repeat split; by apply usb_accessory_raises.
Qed.

Lemma usb_accessories_never_send_witness :
  raises_unsent open_claw (accessory_connected [])
  /\ raises_unsent close_claw (accessory_connected [])
  /\ raises_unsent fire_gun (accessory_connected []).
Proof.
  apply usb_accessories_never_send; vm_compute; discriminate.
Defined.

(** ** Commands on SEND_WITH_ACK: what reaches the drone *)

Lemma ready_background (P : relation (list Poll)) (W : Written -> Prop)
    (F : Channel -> bool -> Prop) (st st' : Mambo) :
  background P W F st st' -> ready st -> ready st'.
Proof.
  intros Hb (Hok & Hsend & Hretries). split; [by eapply link_ok_background|].
  destruct Hb. split; congruence.
Qed.

Lemma ready_resolving (st st' : Mambo) : resolving st st' -> ready st -> ready st'.
Proof.
  intros [(Hd & _ & _ & Hs & _ & Hr & _) _] (Hok & Hsend & Hretries).
  unfold ready, link_ok. rewrite Hd, Hs, Hr. done.
Qed.

(** On a link that never fails [_send_command_packet_ack] returns, having
    written the packet at least once and at most three times. *)
Lemma send_command_packet_ack_delivers (packet : list byte) (st : Mambo) :
  ready st ->
  returns (_send_command_packet_ack packet) st
    (fun _ st' =>
       ready st'
       /\ characteristic_send_counter st' SEND_WITH_ACK
          = characteristic_send_counter st SEND_WITH_ACK
       /\ exists k, (1 <= k <= 3)%nat
                    /\ acked_writes st' = replicate k packet ++ acked_writes st).
Proof.
  intros Hready.
  eapply returns_weaken.
  { eapply returns_framed; [apply (send_command_packet_ack_background packet)|].
    apply (send_command_packet_ack_returns packet st
             (fun _ st' => exists k, (1 <= k <= 3)%nat
                                     /\ acked_writes st' = replicate k packet ++ acked_writes st)).
    eapply returns_weaken; [apply send_loop_returns|].
    - destruct Hready as (H1 & H2 & H3). by repeat split.
    - destruct Hready as (_ & _ & H3). rewrite H3. cbn. lia.
    - cbn beta. intros _ st' (k & Hk & Hk1 & Hw). exists k. split; [|exact Hw].
      split; [|cbn in Hk; lia]. apply Hk1; [lia|]. cbn. unfold dict_set.
      by rewrite decide_True. }
  cbn beta. intros b st' (Hb & k & Hk & Hw).
  split; [by eapply ready_background|].
  split; [by rewrite (bg_counter _ _ _ _ _ Hb)|]. by exists k.
Qed.

Lemma ready_increment (channel : Channel) (st : Mambo) :
  ready st -> ready (increment_send_counter channel st).2.
Proof. intros (H1 & H2 & H3). by repeat split. Qed.

Lemma pack_int_out_of_range (f : int_format) (v : Z) :
  v < fmt_min f \/ fmt_max f < v -> pack_int f v = Err StructError.
Proof.
  intros H. unfold pack_int.
  destruct (Z.leb_spec (fmt_min f) v); [|done].
  destruct (Z.leb_spec v (fmt_max f)); [lia|done].
Qed.

(** [turn_degrees] sends [degrees] as it is given: any value that fits 16
    signed bits is packed after the header and read back from offset 6 of
    every frame written, with no clamping to the (-180, 180) of the
    docstring.  A value that does not fit raises [struct.error] before
    anything is written. *)
Theorem turn_degrees_sends_degrees_as_given (degrees : Z) (command_tuple : Z * Z * Z)
    (st : Mambo) :
  ready st ->
  (_get_command_tuple "Animations" "Cap" st).1 = Ret (Some command_tuple) ->
  (let '(project, myclass, cmd) := command_tuple in
   is_byte project /\ is_byte myclass /\ is_byte cmd) ->
  (-32768 <= degrees <= 32767 ->
   returns (turn_degrees degrees) st
     (fun _ st' =>
        exists packet k,
          (1 <= k <= 3)%nat
          /\ carries_int16 degrees packet
          /\ acked_writes st' = replicate k packet ++ acked_writes st))
  /\ (degrees < -32768 \/ 32767 < degrees ->
      (turn_degrees degrees st).1 = Raise StructError
      /\ written (drone (turn_degrees degrees st).2) = written (drone st)).
Proof.
  destruct command_tuple as [[project myclass] cmd].
  intros Hready Hcmd (Hp & Hm & Hc). unfold is_byte in *.
  pose proof (get_command_tuple_resolving "Animations" "Cap" st) as Hres.
  pose proof (incremented_range (characteristic_send_counter st SEND_WITH_ACK)) as Hi.
  unfold is_byte in Hi.
  unfold turn_degrees.
  destruct (_get_command_tuple "Animations" "Cap" st) as [o st1] eqn:E.
  cbn in Hcmd, Hres. subst o.
  assert (characteristic_send_counter st1 = characteristic_send_counter st) as Hc1
    by (by destruct Hres as [(_ & ? & _) _]).
  assert (drone st1 = drone st) as Hd1 by (by destruct Hres as [(? & _) _]).
  split.
  - intros Hdeg. apply returns_bind. exists (Some (project, myclass, cmd)), st1.
    split; [done|].
    unfold increment_send_counter. apply returns_bind, returns_modify.
    set (st2 := set_characteristic_send_counter _ st1).
    assert (ready st2) as Hready2.
    { apply (ready_increment SEND_WITH_ACK st1). by eapply ready_resolving. }
    assert (characteristic_send_counter st2 SEND_WITH_ACK
            = incremented (characteristic_send_counter st SEND_WITH_ACK)) as Hc2.
    { unfold st2. cbn. unfold dict_set. rewrite decide_True by done. by rewrite Hc1. }
    assert (acked_writes st2 = acked_writes st) as Hw2.
    { unfold acked_writes, st2. cbn. by rewrite Hd1. }
    clearbody st2. apply returns_get_bind. rewrite Hc2.
    cbn [command_tuple_items]. apply returns_bind, returns_lift.
    destruct (struct_pack _) as [packet|e] eqn:Epack.
    2: { exfalso. revert Epack. cbn [struct_pack].
         rewrite !pack_int_fits by (cbn; lia). done. }
    apply returns_bind, returns_lift.
    eapply returns_weaken; [by apply send_command_packet_ack_delivers|].
    cbn beta. intros _ st' (_ & _ & k & Hk & Hw).
    exists packet, k. split; [done|]. split; [|by rewrite Hw, Hw2].
    repeat (apply struct_pack_cons in Epack as (? & ? & Epack & ->)).
    injection Epack as <-.
    apply (unpack_int_encode fmt_h degrees
             (le_encode 1 4
              ++ le_encode 1 (incremented (characteristic_send_counter st SEND_WITH_ACK))
              ++ le_encode 1 project ++ le_encode 1 myclass
              ++ le_encode 1 cmd ++ le_encode 1 0) []).
    cbn. lia.
  - intros Hdeg. unfold mbind, M_bind, increment_send_counter, modify, get_self, lift.
    rewrite E. cbn [command_tuple_items struct_pack].
    rewrite !pack_int_fits by (cbn; try rewrite Hc1; unfold dict_set;
                               try rewrite decide_True by done; try rewrite Hc1; lia).
    rewrite pack_int_out_of_range by (cbn; lia). cbn. by rewrite Hd1.
Qed.

Lemma turn_degrees_200_witness :
  let st := sample_connected [] [Silence; Deadline; Incoming 32 []; Deadline] in
  (-32768 <= 200 <= 32767 ->
   returns (turn_degrees 200) st
     (fun _ st' =>
        exists packet k,
          (1 <= k <= 3)%nat
          /\ carries_int16 200 packet
          /\ acked_writes st' = replicate k packet ++ acked_writes st))
  /\ (200 < -32768 \/ 32767 < 200 ->
      (turn_degrees 200 st).1 = Raise StructError
      /\ written (drone (turn_degrees 200 st).2) = written (drone st)).
Proof.
  apply (turn_degrees_sends_degrees_as_given 200 (2, 4, 1)).
  - split; [vm_compute; constructor|]. split; vm_compute; reflexivity.
  - vm_compute. reflexivity.
  - vm_compute. repeat split; discriminate.
Defined.

(** ** The handshake *)

Lemma link_call_next (st : Mambo) :
  link_call st
  = match link_script (drone st) with
    | [] => (Ret tt, st)
    | failed :: rest =>
        (if failed : bool then Raise BTLEException else Ret tt,
         set_drone (set_link_script rest (drone st)) st)
    end.
Proof.
  unfold link_call. munfold. by destruct (link_script (drone st)) as [|[] rest].
Qed.

Lemma handshake_step (handle : Z) (rest : list Z) (st : Mambo) :
  perform_handshake_loop (handle :: rest) st
  = match link_script (drone st) with
    | [] =>
        perform_handshake_loop rest
          (set_drone (set_written (handshake_write handle :: written (drone st)) (drone st)) st)
    | true :: script =>
        (Raise BTLEException, set_drone (set_link_script script (drone st)) st)
    | false :: script =>
        perform_handshake_loop rest
          (set_drone (set_written (handshake_write handle :: written (drone st))
                                  (set_link_script script (drone st))) st)
    end.
Proof.
  cbn [perform_handshake_loop]. unfold drone_writeCharacteristic, log_written.
  change (struct_pack [(fmt_B, 1); (fmt_B, 0)]) with (Ok [Byte.x01; Byte.x00]).
  unfold mbind, M_bind, lift, modify. rewrite link_call_next.
  by destruct (link_script (drone st)) as [|[] script].
Qed.

(** The handshake over a link that holds for [k] calls and then fails: the
    first [k] characteristics are written, the exception leaves the loop. *)
Lemma perform_handshake_loop_fails (handles : list Z) :
  forall (k : nat) (rest : list bool) (st : Mambo),
    (k < length handles)%nat ->
    link_script (drone st) = replicate k false ++ true :: rest ->
    perform_handshake_loop handles st
    = (Raise BTLEException,
       set_drone (set_written (handshake_log (take k handles) ++ written (drone st))
                              (set_link_script rest (drone st))) st).
Proof.
  induction handles as [|handle handles IH]; intros k rest st Hk Hscript; [cbn in Hk; lia|].
  rewrite handshake_step, Hscript. destruct k as [|k]; cbn [replicate app].
  - by destruct st as [[]].
  - rewrite (IH k rest); [|cbn in Hk; lia|done]. cbn. f_equal.
    unfold handshake_log. cbn. by rewrite <- app_assoc.
Qed.

Lemma perform_handshake_loop_writes (handles : list Z) :
  forall st : Mambo,
    link_ok st ->
    perform_handshake_loop handles st
    = (Ret tt,
       set_drone (set_written (handshake_log handles ++ written (drone st))
                              (set_link_script (drop (length handles) (link_script (drone st)))
                                               (drone st))) st).
Proof.
  induction handles as [|handle handles IH]; intros st Hok.
  - cbn. by destruct st as [[]].
  - rewrite handshake_step. unfold link_ok in Hok.
    destruct (link_script (drone st)) as [|failed rest] eqn:E.
    + rewrite IH by (unfold link_ok; cbn; by rewrite E). cbn. rewrite E, drop_nil.
      unfold handshake_log. cbn. by rewrite <- app_assoc.
    + apply Forall_cons in Hok as [-> Hok].
      rewrite IH by done. cbn. unfold handshake_log. cbn. by rewrite <- app_assoc.
Qed.

(** [_perform_handshake] writes 0x0100 to the handle two above each
    handshake characteristic, one after the other and nothing else.  When the
    link fails at one of these writes the BTLEException leaves the method,
    with the writes before it done and the rest not attempted. *)
Theorem perform_handshake_writes_each_handle (st : Mambo) (k : nat) (rest : list bool) :
  (link_ok st ->
   _perform_handshake st
   = (Ret tt,
      set_drone (set_written (handshake_log (handshake_characteristics st)
                              ++ written (drone st))
                             (set_link_script
                                (drop (length (handshake_characteristics st))
                                      (link_script (drone st)))
                                (drone st))) st))
  /\ ((k < length (handshake_characteristics st))%nat ->
      link_script (drone st) = replicate k false ++ true :: rest ->
      _perform_handshake st
      = (Raise BTLEException,
         set_drone (set_written (handshake_log (take k (handshake_characteristics st))
                                 ++ written (drone st))
                                (set_link_script rest (drone st))) st)).
Proof.
  unfold _perform_handshake. unfold mbind, M_bind, get_self. split.
  - apply perform_handshake_loop_writes.
  - apply perform_handshake_loop_fails.
Qed.

Lemma perform_handshake_witness :
  _perform_handshake (sample_connected [] [])
  = (Ret tt,
     set_drone (set_written (handshake_log [10; 11; 12; 13; 14; 15; 16; 17; 18; 19]
                             ++ written (drone (sample_connected [] [])))
                            (drone (sample_connected [] []))) (sample_connected [] []))
  /\ (_perform_handshake (sample_connected [false; false; false; false; false; false;
                                            false; false; false; false; false;
                                            false; false; true; false] [])).1
     = Raise BTLEException.
Proof.
  split.
  - rewrite (proj1 (perform_handshake_writes_each_handle (sample_connected [] []) 0 []));
      [reflexivity|]. vm_compute. constructor.
  - rewrite (proj2 (perform_handshake_writes_each_handle
                      (sample_connected [false; false; false; false; false; false;
                                         false; false; false; false; false;
                                         false; false; true; false] []) 2 [false]));
      [reflexivity|vm_compute; lia|reflexivity].
Defined.

(** ** [smart_sleep]: every exception of a round is answered by a reconnection *)

Lemma next_poll_raises (E : exn -> Prop) : raises_only E next_poll.
Proof. unfold next_poll. repeat raises_step. Qed.

Lemma smart_sleep_raises (timeout : Z) :
  raises_only (eq BTLEException) (smart_sleep timeout).
Proof.
  unfold smart_sleep. raises_step; [raises_step|].
  induction (length (poll_script (drone a))) as [|fuel IH]; cbn [smart_sleep_loop].
  - raises_step; [apply next_poll_raises|]. repeat raises_step.
  - raises_step; [apply next_poll_raises|].
    destruct a0 as [p|]; [|raises_step].
    destruct p; [raises_step|..];
      (raises_step; [|exact IH]);
      (apply raises_only_try_except; raises_step; [apply reconnect_raises|raises_step]).
Qed.

(** On a link that never fails [_reconnect] connects at once and repeats
    the handshake. *)
Lemma reconnect_runs (st : Mambo) :
  link_ok st ->
  _reconnect 3 st
  = (Ret true,
     set_drone (set_written (handshake_log (handshake_characteristics st)
                             ++ written (drone st))
                            (set_link_script
                               (drop (S (length (handshake_characteristics st)))
                                     (link_script (drone st)))
                               (drone st))) st).
Proof.
  intros Hok. unfold _reconnect. change (Z.to_nat (3 - 1)) with 2%nat.
  cbn [reconnect_loop]. change (1 <? 3) with true. cbv iota.
  unfold drone_connect, try_except_BTLE, _perform_handshake.
  unfold mbind, M_bind, get_self. rewrite link_call_next.
  unfold link_ok in Hok. destruct (link_script (drone st)) as [|failed script] eqn:E.
  - cbn. rewrite perform_handshake_loop_writes by (unfold link_ok; by rewrite E).
    cbn. rewrite E. by rewrite drop_nil.
  - apply Forall_cons in Hok as [-> Hok]. cbn.
    rewrite perform_handshake_loop_writes by done. cbn. done.
Qed.

(** [smart_sleep] lets no exception out but the BTLEException of a
    handshake that fails while it reconnects; on a link that never fails it
    returns whatever the rounds bring -- a dropped link, a frame too short
    for its header, a handle the delegate does not know -- when the time is
    up. *)
Theorem smart_sleep_outlives_every_round (timeout : Z) (st : Mambo) :
  (forall e, (smart_sleep timeout st).1 = Raise e -> e = BTLEException)
  /\ (link_ok st ->
      (smart_sleep timeout st).1 = Ret tt
      /\ link_ok (smart_sleep timeout st).2
      /\ poll_script (drone (smart_sleep timeout st).2) = after_wait (poll_script (drone st))).
Proof.
  split; [intros e He; symmetry; by apply (smart_sleep_raises timeout st)|].
  intros Hok. destruct (smart_sleep_ok timeout st Hok) as ([] & st' & E & _ & Hok' & Hp & _).
  rewrite E. done.
Qed.

Lemma smart_sleep_outlives_witness :
  let st := sample_connected []
              [Dropped; Incoming 31 [Byte.x02; Byte.x05]; Incoming 99 []; Deadline; Silence] in
  (smart_sleep 1000 st).1 = Ret tt
  /\ link_ok (smart_sleep 1000 st).2
  /\ poll_script (drone (smart_sleep 1000 st).2) = after_wait (poll_script (drone st)).
Proof.
  apply (smart_sleep_outlives_every_round 1000
           (sample_connected []
              [Dropped; Incoming 31 [Byte.x02; Byte.x05]; Incoming 99 []; Deadline; Silence])).
  vm_compute. constructor.
Defined.

(** A round in which the wait for notifications raises, for whatever reason,
    is taken for a lost link: [smart_sleep] connects again and repeats the
    handshake, then goes on. *)
Theorem smart_sleep_round_reconnects (timeout : Z) (p : Poll) (rest : list Poll)
    (st st2 : Mambo) (e : exn) :
  link_ok st ->
  poll_script (drone st) = p :: Deadline :: rest ->
  waitForNotifications p (set_drone (set_poll_script (Deadline :: rest) (drone st)) st)
  = (Raise e, st2) ->
  smart_sleep timeout st
  = (Ret tt,
     set_drone
       (set_poll_script rest
          (set_written (handshake_log (handshake_characteristics st2) ++ written (drone st2))
             (set_link_script
                (drop (S (length (handshake_characteristics st2))) (link_script (drone st2)))
                (drone st2)))) st2).
Proof.
  intros Hok Hscript Hwait.
  set (st1 := set_drone (set_poll_script (Deadline :: rest) (drone st)) st) in *.
  pose proof (waitForNotifications_background p st1) as Hb. rewrite Hwait in Hb. cbn in Hb.
  assert (link_ok st2) as Hok2 by (by eapply link_ok_background).
  assert (poll_script (drone st2) = Deadline :: rest) as Hp2.
  { pose proof (bg_poll _ _ _ _ _ Hb) as Hpoll. unfold polls_kept in Hpoll.
    by rewrite <- Hpoll. }
  unfold smart_sleep. unfold mbind at 1, M_bind at 1, get_self. rewrite Hscript.
  cbn [length]. set (fuel := S (length rest)).
  cbn [smart_sleep_loop]. unfold mbind at 1, M_bind at 1.
  destruct (next_poll_cases st) as [[E1 _]|(p' & rest' & E1 & E2)]; [congruence|].
  rewrite Hscript in E1. injection E1 as <- <-. rewrite E2. fold st1.
  assert (p <> Deadline) as Hp by (intros ->; cbn in Hwait; discriminate).
  assert ((try_except (waitForNotifications p;; mret ()) (_reconnect 3;; mret ());;
           smart_sleep_loop fuel) st1
          = (Ret tt,
             set_drone
               (set_poll_script rest
                  (set_written (handshake_log (handshake_characteristics st2)
                                ++ written (drone st2))
                     (set_link_script
                        (drop (S (length (handshake_characteristics st2)))
                              (link_script (drone st2)))
                        (drone st2)))) st2)) as H;
    [|cbv beta iota; destruct p; [done|exact H..]].
  unfold mbind at 1, M_bind at 1, try_except. unfold mbind at 1, M_bind at 1.
  rewrite Hwait. unfold mbind at 1, M_bind at 1. rewrite reconnect_runs by done.
  cbn [mret M_ret].
  match goal with |- smart_sleep_loop _ ?s = _ => destruct (next_poll_cases s)
    as [[E3 _]|(p' & rest' & E3 & E4)] end.
  { cbn in E3. congruence. }
  cbn in E3. rewrite Hp2 in E3. injection E3 as <- <-.
  subst fuel. cbn [smart_sleep_loop]. unfold mbind, M_bind. rewrite E4. reflexivity.
Qed.

Lemma smart_sleep_short_frame_witness :
  let st := sample_connected [] [Incoming 31 [Byte.x02; Byte.x05]; Deadline; Silence] in
  let st2 := set_drone (set_poll_script [Deadline; Silence] (drone st)) st in
  smart_sleep 1000 st
  = (Ret tt,
     set_drone
       (set_poll_script [Silence]
          (set_written (handshake_log (handshake_characteristics st2) ++ written (drone st2))
             (set_link_script
                (drop (S (length (handshake_characteristics st2))) (link_script (drone st2)))
                (drone st2)))) st2).
Proof.
  apply (smart_sleep_round_reconnects 1000 (Incoming 31 [Byte.x02; Byte.x05]) [Silence]
           (sample_connected [] [Incoming 31 [Byte.x02; Byte.x05]; Deadline; Silence])
           _ StructError).
  - vm_compute. constructor.
  - vm_compute. reflexivity.
  - vm_compute. reflexivity.
Defined.

(** ** Acknowledging telemetry *)

Lemma byte_of_Z_of_byte (b : byte) : byte_of_Z (Z_of_byte b) = b.
Proof.
  unfold byte_of_Z. pose proof (Z_of_byte_range b) as Hb.
  rewrite Z.mod_small by lia. unfold Z_of_byte. rewrite N2Z.id.
  by rewrite Byte.of_to_N.
Qed.

Lemma update_sensors_no_ack_quiet (data : list byte) : framed quiet (_update_sensors data false).
Proof.
  unfold _update_sensors.
  apply framed_bind; [typeclasses eauto|apply framed_lift; typeclasses eauto|intros header].
  apply framed_bind; [typeclasses eauto|apply parse_sensor_tuple_quiet|intros r].
  apply framed_bind; [typeclasses eauto| |intros _].
  { destruct r as [[names data_sizes]|]; [apply update_each_quiet|].
    apply framed_ret; typeclasses eauto. }
  destruct header as [[[[[a k] p] c] i] e]. apply framed_ret; typeclasses eauto.
Qed.

(** With [ack] set the frame is handled as without, and then acknowledged
    with its second byte. *)
Lemma update_sensors_then_ack (data : list byte) (st st1 : Mambo) (id_byte : byte) :
  _update_sensors data false st = (Ret tt, st1) ->
  data !! 1%nat = Some id_byte ->
  _update_sensors data true st = _ack_packet (Z_of_byte id_byte) st1.
Proof.
  intros Hrun Hid. revert Hrun.
  unfold _update_sensors. unfold mbind at 1 4, M_bind at 1 4, lift.
  destruct (unpack_header data) as [[[[[[a k] p] c] i] e]|err] eqn:Eh; [|done].
  assert (k = Z_of_byte id_byte) as ->.
  { unfold unpack_header in Eh.
    destruct data as [|b0 [|b1 [|b2 [|b3 [|b4 [|b5 data]]]]]]; try discriminate.
    change (Some b1 = Some id_byte) in Hid. injection Hid as ->.
    by injection Eh as _ <- _ _ _ _. }
  unfold mbind at 1 3, M_bind at 1 3.
  destruct (_parse_sensor_tuple (a, Z_of_byte id_byte, p, c, i, e) st) as [[r|err|] st2];
    [|done..].
  unfold mbind, M_bind.
  destruct (match r with Some (names, data_sizes) => update_each names 0 data_sizes data
            | None => mret () end st2) as [[[]|err|] st3]; cbn; [|done..].
  by intros [= ->].
Qed.

Lemma ack_packet_runs (packet_id : Z) (st : Mambo) :
  link_ok st ->
  send_characteristics st ACK_COMMAND = true ->
  is_byte packet_id ->
  returns (_ack_packet packet_id) st
    (fun _ st' =>
       sensors st' = sensors st
       /\ link_ok st'
       /\ characteristic_send_counter st' ACK_COMMAND
          = incremented (characteristic_send_counter st ACK_COMMAND)
       /\ written (drone st')
          = ToCharacteristic ACK_COMMAND
              [Byte.x01; byte_of_Z (incremented (characteristic_send_counter st ACK_COMMAND));
               byte_of_Z packet_id] :: written (drone st)).
Proof.
  intros Hok Hsend Hid. unfold is_byte in Hid.
  pose proof (incremented_range (characteristic_send_counter st ACK_COMMAND)) as Hi.
  unfold is_byte in Hi.
  unfold _ack_packet, increment_send_counter.
  apply returns_bind, returns_modify, returns_get_bind.
  cbn [characteristic_send_counter set_characteristic_send_counter].
  unfold dict_set at 1. rewrite decide_True by done.
  cbn [struct_pack]. rewrite !pack_int_fits by (cbn; lia).
  cbn [result_bind result_map fmt_width le_encode app].
  unfold result_map, result_bind.
  apply returns_bind, returns_lift, returns_bind, send_characteristic_ok; [done|].
  eapply returns_weaken; [by apply safe_ble_write_ok|].
  cbn beta. intros _ st' ((l & news & Hl & Hn & ->) & Hok' & Hw).
  cbn in *. unfold dict_set. rewrite decide_True by done. done.
Qed.

(** A data frame on the acknowledged channel (0e) that [_update_sensors]
    can decode is acknowledged once: one frame [1, counter, id] is written
    on ACK_COMMAND, with the counter of ACK_COMMAND incremented and the
    second byte of the data frame as [id].  The same frame on the channel
    without ack (0f) updates the sensors in the same way and writes
    nothing. *)
Theorem acked_data_frame_is_acknowledged (handle_map : gmap Z string) (acked plain : Z)
    (data : list byte) (id_byte : byte) (st st1 : Mambo) :
  link_ok st ->
  send_characteristics st ACK_COMMAND = true ->
  handle_map !! acked = Some "0e"%string ->
  handle_map !! plain = Some "0f"%string ->
  _update_sensors data false st = (Ret tt, st1) ->
  data !! 1%nat = Some id_byte ->
  returns (handleNotification handle_map acked data) st
    (fun _ st' =>
       sensors st' = sensors st1
       /\ characteristic_send_counter st' ACK_COMMAND
          = incremented (characteristic_send_counter st ACK_COMMAND)
       /\ written (drone st')
          = ToCharacteristic ACK_COMMAND
              [Byte.x01; byte_of_Z (incremented (characteristic_send_counter st ACK_COMMAND));
               id_byte] :: written (drone st))
  /\ handleNotification handle_map plain data st = (Ret tt, st1)
  /\ drone st1 = drone st.
Proof.
  intros Hok Hsend Hacked Hplain Hrun Hid.
  pose proof (update_sensors_no_ack_quiet data st) as Hq. rewrite Hrun in Hq.
  cbn [snd] in Hq. destruct Hq as (Hd & Hc & _ & Hs & _).
  split; [|split; [|done]].
  - assert (handleNotification handle_map acked data st = _update_sensors data true st) as E.
    { unfold handleNotification. unfold mbind at 1 2, M_bind at 1 2, lift.
      by rewrite Hacked. }
    unfold returns. rewrite E, (update_sensors_then_ack data st st1 id_byte) by done.
    destruct (ack_packet_runs (Z_of_byte id_byte) st1)
      as (u & st' & Erun & Hsens & _ & Hcount & Hw).
    + unfold link_ok. by rewrite Hd.
    + by rewrite Hs.
    + apply Z_of_byte_range.
    + exists u, st'. split; [done|].
      rewrite byte_of_Z_of_byte in Hw. rewrite Hc in Hcount, Hw. rewrite Hd in Hw. done.
  - unfold handleNotification. unfold mbind at 1 2, M_bind at 1 2, lift.
    by rewrite Hplain.
Qed.

Lemma acked_battery_frame_witness :
  let st := sample_connected [] [] in
  let data := [Byte.x04; Byte.x07; Byte.x00; Byte.x05; Byte.x01; Byte.x00; Byte.x2a] in
  let st1 := (_update_sensors data false st).2 in
  returns (handleNotification (handle_map sample_services) 30 data) st
    (fun _ st' =>
       sensors st' = sensors st1
       /\ characteristic_send_counter st' ACK_COMMAND
          = incremented (characteristic_send_counter st ACK_COMMAND)
       /\ written (drone st')
          = ToCharacteristic ACK_COMMAND
              [Byte.x01; byte_of_Z (incremented (characteristic_send_counter st ACK_COMMAND));
               Byte.x07] :: written (drone st))
  /\ handleNotification (handle_map sample_services) 31 data st = (Ret tt, st1)
  /\ drone st1 = drone st.
Proof.
  apply (acked_data_frame_is_acknowledged (handle_map sample_services) 30 31).
  - vm_compute. constructor.
  - vm_compute. reflexivity.
  - vm_compute. reflexivity.
  - vm_compute. reflexivity.
  - apply run_outcome. vm_compute. reflexivity.
  - reflexivity.
Defined.

(** ** [MamboSensors.update]: what is filed where *)

(** [update] files one value and touches no other sensor: the value is read
    back under the name it was given for, every other name reads as before.
    A name without an enum entry gets the value as it is. *)
Theorem update_files_one_value (name : string) (value : pyval)
    (sensor_enum : gmap string (list string)) (s s' : MamboSensors) :
  update name value sensor_enum s = Ok s' ->
  exists v,
    translate_enum name value sensor_enum = Ok v
    /\ sensor_value s' name = Some v
    /\ (sensor_enum !! name = None -> v = value)
    /\ forall other, other <> name -> sensor_value s' other = sensor_value s other.
Proof.
  unfold update. destruct (translate_enum name value sensor_enum) as [v|e] eqn:E; [|done].
  cbn. intros [= <-]. exists v. split; [done|]. split; [apply sensor_value_store|].
  split.
  - intros Hnone. unfold translate_enum in E. rewrite Hnone in E. congruence.
  - intros other Hne. by apply sensor_value_store_other.
Qed.

Lemma update_files_one_value_witness :
  exists v,
    translate_enum "DroneAltitude_altitude" (PyInt 7) ∅ = Ok v
    /\ sensor_value (store "DroneAltitude_altitude" (PyInt 7) MamboSensors_init)
                    "DroneAltitude_altitude" = Some v
    /\ ((∅ : gmap string (list string)) !! "DroneAltitude_altitude"%string = None
        -> v = PyInt 7)
    /\ forall other, other <> "DroneAltitude_altitude"%string ->
         sensor_value (store "DroneAltitude_altitude" (PyInt 7) MamboSensors_init) other
         = sensor_value MamboSensors_init other.
Proof.
  apply (update_files_one_value "DroneAltitude_altitude" (PyInt 7) ∅ MamboSensors_init).
  reflexivity.
Defined.

Lemma py_list_index_negative {A} (lst : list A) (i : nat) (a : A) :
  lst !! i = Some a ->
  py_list_index lst (PyInt (Z.of_nat i - Z.of_nat (length lst))) = Ok a.
Proof.
  intros H. pose proof (lookup_lt_Some _ _ _ H) as Hlt.
  unfold py_list_index.
  replace (Z.of_nat i - Z.of_nat (length lst) <? 0) with true
    by (symmetry; apply Z.ltb_lt; lia).
  replace (Z.of_nat i - Z.of_nat (length lst) + Z.of_nat (length lst)) with (Z.of_nat i)
    by lia.
  replace (0 <=? Z.of_nat i) with true by (symmetry; apply Z.leb_le; lia).
  replace (Z.of_nat i <? Z.of_nat (length lst)) with true by (symmetry; apply Z.ltb_lt; lia).
  cbn [andb]. by rewrite Nat2Z.id, H.
Qed.

(** For a sensor with an enum entry, [update] replaces an index below the
    number of members by the member name and an index above it by
    "UNKNOWN_ENUM_VALUE".  A negative index is not refused: as in any Python
    list it counts from the end, down to minus the number of members; below
    that [update] raises IndexError. *)
Theorem update_translates_enum_index (name : string) (members : list string)
    (sensor_enum : gmap string (list string)) (s : MamboSensors) :
  sensor_enum !! name = Some members ->
  (forall i member,
     members !! i = Some member ->
     exists s', update name (PyInt (Z.of_nat i)) sensor_enum s = Ok s'
                /\ sensor_value s' name = Some (PyStr member))
  /\ (forall z,
        Z.of_nat (length members) < z ->
        exists s', update name (PyInt z) sensor_enum s = Ok s'
                   /\ sensor_value s' name = Some (PyStr "UNKNOWN_ENUM_VALUE"))
  /\ (forall i member,
        members !! i = Some member ->
        exists s', update name (PyInt (Z.of_nat i - Z.of_nat (length members))) sensor_enum s
                   = Ok s'
                   /\ sensor_value s' name = Some (PyStr member))
  /\ (forall z,
        z < - Z.of_nat (length members) ->
        update name (PyInt z) sensor_enum s = Err IndexError).
Proof.
  intros Hname. repeat split.
  - intros i member Hi. eexists. split; [by eapply update_enum_in_range|].
    apply sensor_value_store.
  - intros z Hz. eexists. split; [by eapply update_enum_above_length|].
    apply sensor_value_store.
  - intros i member Hi. pose proof (lookup_lt_Some _ _ _ Hi) as Hlt.
    unfold update, translate_enum. rewrite Hname. cbn [py_gt_int].
    replace (Z.of_nat (length members) <? Z.of_nat i - Z.of_nat (length members)) with false
      by (symmetry; apply Z.ltb_ge; lia).
    rewrite (py_list_index_negative _ _ _ Hi). cbn. eexists. split; [done|].
    apply sensor_value_store.
  - intros z Hz. unfold update, translate_enum. rewrite Hname. cbn [py_gt_int].
    replace (Z.of_nat (length members) <? z) with false by (symmetry; apply Z.ltb_ge; lia).
    unfold py_list_index.
    replace (z <? 0) with true by (symmetry; apply Z.ltb_lt; lia).
    replace (0 <=? z + Z.of_nat (length members)) with false
      by (symmetry; apply Z.leb_gt; lia).
    done.
Qed.

Lemma update_flying_state_witness :
  (forall i member,
     flying_states !! i = Some member ->
     exists s', update "FlyingStateChanged_state" (PyInt (Z.of_nat i))
                       {[ "FlyingStateChanged_state"%string := flying_states ]}
                       MamboSensors_init = Ok s'
                /\ sensor_value s' "FlyingStateChanged_state" = Some (PyStr member))
  /\ (forall z,
        Z.of_nat (length flying_states) < z ->
        exists s', update "FlyingStateChanged_state" (PyInt z)
                          {[ "FlyingStateChanged_state"%string := flying_states ]}
                          MamboSensors_init = Ok s'
                   /\ sensor_value s' "FlyingStateChanged_state"
                      = Some (PyStr "UNKNOWN_ENUM_VALUE"))
  /\ (forall i member,
        flying_states !! i = Some member ->
        exists s', update "FlyingStateChanged_state"
                          (PyInt (Z.of_nat i - Z.of_nat (length flying_states)))
                          {[ "FlyingStateChanged_state"%string := flying_states ]}
                          MamboSensors_init = Ok s'
                   /\ sensor_value s' "FlyingStateChanged_state" = Some (PyStr member))
  /\ (forall z,
        z < - Z.of_nat (length flying_states) ->
        update "FlyingStateChanged_state" (PyInt z)
               {[ "FlyingStateChanged_state"%string := flying_states ]}
               MamboSensors_init = Err IndexError).
Proof.
  apply (update_translates_enum_index "FlyingStateChanged_state" flying_states).
  reflexivity.
Defined.

(** ** Names and ids in the dictionary *)

Lemma find_cmd_in (cmd : string) (subchildren : list XmlCmd) (id : Z) :
  find_cmd cmd subchildren = Some id -> id ∈ map cmd_id subchildren.
Proof.
  induction subchildren as [|subchild rest IH]; cbn [find_cmd]; [done|].
  destruct (String.eqb _ _).
  - intros [= <-]. cbn. apply elem_of_cons. by left.
  - intros H. cbn. apply elem_of_cons. right. by apply IH.
Qed.

Lemma find_cmd_by_id_of_name (cmd : string) (subchildren : list XmlCmd) (id : Z) :
  NoDup (map cmd_id subchildren) ->
  find_cmd cmd subchildren = Some id ->
  exists cmd_child,
    find_cmd_by_id id subchildren = Some cmd_child
    /\ cmd_name cmd_child = cmd /\ cmd_id cmd_child = id.
Proof.
  induction subchildren as [|subchild rest IH]; cbn [find_cmd find_cmd_by_id map]; [done|].
  intros Hnd. apply NoDup_cons in Hnd as [Hnotin Hnd].
  destruct (String.eqb_spec (cmd_name subchild) cmd) as [Hname|Hname].
  - intros [= <-]. rewrite Z.eqb_refl. by exists subchild.
  - intros Hfind. destruct (Z.eqb_spec (cmd_id subchild) id) as [Hid|Hid].
    + destruct Hnotin. rewrite Hid. by eapply find_cmd_in.
    + by apply IH.
Qed.

Lemma find_class_cmd_in (myclass cmd : string) (classes : list XmlClass) (cid mid : Z) :
  find_class_cmd myclass cmd classes = Ok (Some (cid, mid)) ->
  cid ∈ map class_id classes.
Proof.
  induction classes as [|child rest IH]; cbn [find_class_cmd map]; [done|].
  intros H. apply elem_of_cons.
  destruct (String.eqb _ _); [|right; by apply IH].
  destruct (children (class_cmd child)) as [subchildren|e]; [|done]. cbn in H.
  destruct (find_cmd cmd subchildren); [|right; by apply IH].
  injection H as <- _. by left.
Qed.

(** The ids that a search by name finds lead back, in a search by id, to a
    command of that name -- provided no two classes share an id and no two
    commands of a class do. *)
Theorem ids_lead_back_to_the_command (myclass cmd : string) (classes : list XmlClass)
    (cid mid : Z) :
  NoDup (map class_id classes) ->
  (forall c, c ∈ classes -> NoDup (map cmd_id (class_cmd c))) ->
  find_class_cmd myclass cmd classes = Ok (Some (cid, mid)) ->
  exists cmd_child,
    find_class_cmd_by_id cid mid classes = Ok (Some cmd_child)
    /\ cmd_name cmd_child = cmd /\ cmd_id cmd_child = mid.
Proof.
  induction classes as [|child rest IH];
    cbn [find_class_cmd find_class_cmd_by_id map]; [done|].
  intros Hnd Hcmds Hfind. apply NoDup_cons in Hnd as [Hnotin Hnd].
  assert (find_class_cmd myclass cmd rest = Ok (Some (cid, mid)) ->
          exists cmd_child,
            (if class_id child =? cid
             then result_bind (children (class_cmd child)) (fun cmds =>
                    match find_cmd_by_id mid cmds with
                    | Some cmd_child => Ok (Some cmd_child)
                    | None => find_class_cmd_by_id cid mid rest
                    end)
             else find_class_cmd_by_id cid mid rest) = Ok (Some cmd_child)
            /\ cmd_name cmd_child = cmd /\ cmd_id cmd_child = mid) as Hskip.
  { intros Hrest. destruct (Z.eqb_spec (class_id child) cid) as [Hid|Hid].
    - destruct Hnotin. rewrite Hid. by eapply find_class_cmd_in.
    - apply IH; [done| |done]. intros c Hc. apply Hcmds, elem_of_cons. by right. }
  destruct (String.eqb _ _); [|by apply Hskip].
  destruct (children (class_cmd child)) as [subchildren|e] eqn:Ech; [|done]. cbn in Hfind.
  destruct (find_cmd cmd subchildren) as [id|] eqn:Ecmd; [|by apply Hskip].
  injection Hfind as <- <-. rewrite Z.eqb_refl. cbn.
  assert (subchildren = class_cmd child) as Hsub.
  { destruct (class_cmd child); cbn in Ech; congruence. }
  destruct (find_cmd_by_id_of_name cmd subchildren id) as (x & -> & Hx); [|done|by exists x].
  rewrite Hsub. apply Hcmds, elem_of_cons. by left.
Qed.

Lemma ids_lead_back_witness :
  exists cmd_child,
    find_class_cmd_by_id 0 1 (project_myclass sample_minidrone) = Ok (Some cmd_child)
    /\ cmd_name cmd_child = "TakeOff"%string /\ cmd_id cmd_child = 1.
Proof.
  apply (ids_lead_back_to_the_command "Piloting" "TakeOff").
  - apply (bool_decide_unpack _). vm_compute. exact I.
  - intros c Hc. cbn in Hc. repeat (apply elem_of_cons in Hc as [->|Hc]);
      [apply (bool_decide_unpack _); vm_compute; exact I..|by apply elem_of_nil in Hc].
  - reflexivity.
Defined.

(** ** The header of a command frame *)

(** A command without parameters goes out as a frame of six bytes which the
    header decoder of [_update_sensors] reads back as the data type
    DATA_WITH_ACK, the incremented counter, the three ids of the command and
    a zero. *)
Theorem noparam_frame_header_round_trip (command_tuple : Z * Z * Z) (st : Mambo) :
  ready st ->
  (let '(project, myclass, cmd) := command_tuple in
   is_byte project /\ is_byte myclass /\ is_byte cmd) ->
  returns (_send_noparam_command_packet_ack (Some command_tuple)) st
    (fun _ st' =>
       exists packet k,
         (1 <= k <= 3)%nat
         /\ length packet = 6%nat
         /\ unpack_header packet
            = Ok (let '(project, myclass, cmd) := command_tuple in
                  (data_types DATA_WITH_ACK,
                   incremented (characteristic_send_counter st SEND_WITH_ACK),
                   project, myclass, cmd, 0))
         /\ acked_writes st' = replicate k packet ++ acked_writes st).
Proof.
  destruct command_tuple as [[project myclass] cmd].
  intros Hready (Hp & Hm & Hc). unfold is_byte in *.
  pose proof (incremented_range (characteristic_send_counter st SEND_WITH_ACK)) as Hi.
  unfold is_byte in Hi.
  unfold _send_noparam_command_packet_ack, increment_send_counter.
  apply returns_bind, returns_modify.
  set (st1 := set_characteristic_send_counter _ st).
  assert (characteristic_send_counter st1 SEND_WITH_ACK
          = incremented (characteristic_send_counter st SEND_WITH_ACK)) as Hc1.
  { unfold st1. cbn. unfold dict_set. by rewrite decide_True. }
  assert (ready st1) as Hready1 by (by apply (ready_increment SEND_WITH_ACK st)).
  assert (acked_writes st1 = acked_writes st) as Hw1 by done.
  clearbody st1. apply returns_get_bind. rewrite Hc1.
  cbn [command_tuple_items]. apply returns_bind, returns_lift.
  cbn [struct_pack]. rewrite !pack_int_fits by (cbn; lia).
  cbn [result_bind result_map fmt_width le_encode app]. unfold result_map, result_bind.
  apply returns_bind, returns_lift.
  eapply returns_weaken; [by apply send_command_packet_ack_delivers|].
  cbn beta. intros _ st' (_ & _ & k & Hk & Hw).
  exists [byte_of_Z (data_types DATA_WITH_ACK);
          byte_of_Z (incremented (characteristic_send_counter st SEND_WITH_ACK));
          byte_of_Z project; byte_of_Z myclass; byte_of_Z cmd; byte_of_Z 0], k.
  split; [done|]. split; [reflexivity|]. split; [|by rewrite Hw, Hw1].
  cbn [unpack_header]. rewrite !Z_of_byte_of_Z, !Z.mod_small by (cbn; lia). done.
Qed.

Lemma takeoff_frame_header_witness :
  let st := sample_connected [] [Silence; Deadline; Incoming 32 []; Deadline] in
  returns (_send_noparam_command_packet_ack (Some (2, 0, 1))) st
    (fun _ st' =>
       exists packet k,
         (1 <= k <= 3)%nat
         /\ length packet = 6%nat
         /\ unpack_header packet
            = Ok (data_types DATA_WITH_ACK,
                  incremented (characteristic_send_counter st SEND_WITH_ACK), 2, 0, 1, 0)
         /\ acked_writes st' = replicate k packet ++ acked_writes st).
Proof.
  apply (noparam_frame_header_round_trip (2, 0, 1)).
  - split; [vm_compute; constructor|]. split; vm_compute; reflexivity.
  - vm_compute. repeat split; discriminate.
Defined.

(** ** [safe_takeoff]: the wait for the end of the takeoff *)

(** No state is both "flying" and "hovering": the first half of the
    condition of the second loop always holds. *)
Lemma not_flying_or_not_hovering (st : Mambo) :
  negb (flying_state_is st "flying") || negb (flying_state_is st "hovering") = true.
Proof.
  unfold flying_state_is.
  destruct (decide (attr (sensors st) flying_state = PyStr "flying")) as [E|E].
  - rewrite (bool_decide_eq_false_2 (attr (sensors st) flying_state = PyStr "hovering"));
      [by rewrite orb_true_r|]. by rewrite E.
  - by rewrite (bool_decide_eq_false_2 _ E).
Qed.

Lemma safe_takeoff_wait_runs (clock : list bool) :
  forall (fuel : nat) (st : Mambo),
    link_ok st ->
    (rounds_in_time clock <= fuel)%nat ->
    returns (safe_takeoff_wait fuel clock) st
      (fun clock' st' =>
         clock' = after_time_is_up clock
         /\ link_ok st'
         /\ poll_script (drone st')
            = Nat.iter (rounds_in_time clock) after_wait (poll_script (drone st))
         /\ background polls_used is_background_write is_ack_flag st st').
Proof.
  induction clock as [|in_time rest IH]; intros fuel st Hok Hfuel.
  - destruct fuel; cbn [safe_takeoff_wait]; apply returns_get_bind;
      rewrite not_flying_or_not_hovering; cbn; by apply returns_ret.
  - destruct in_time.
    + destruct fuel as [|fuel]; [cbn in Hfuel; lia|].
      cbn [safe_takeoff_wait]. apply returns_get_bind.
      rewrite not_flying_or_not_hovering. cbn [tick]. cbv iota.
      apply returns_bind.
      eapply returns_weaken; [by apply smart_sleep_ok|].
      cbn beta. intros _ st1 (Hb1 & Hok1 & Hp1 & _).
      eapply returns_weaken; [apply (IH fuel st1 Hok1); cbn in Hfuel; lia|].
      cbn beta. intros clock' st' (-> & Hok' & Hp' & Hb').
      split; [done|]. split; [done|]. split; [|by etrans].
      rewrite Hp', Hp1. cbn [rounds_in_time]. by rewrite Nat.iter_succ_r.
    + destruct fuel; cbn [safe_takeoff_wait]; apply returns_get_bind;
        rewrite not_flying_or_not_hovering; cbn; by apply returns_ret.
Qed.

(** The second loop of [safe_takeoff] does not look at the sensors: its
    test [flying_state != "flying" or flying_state != "hovering"] holds in
    every state, so it sleeps for as long as the clock says that time is
    left, also when the drone reports that it flies.  Called while the drone
    reports "takingoff", [safe_takeoff] sends no command and returns when the
    time is up, not before. *)
Theorem safe_takeoff_waits_for_the_clock (clock : list bool) (st : Mambo) :
  link_ok st ->
  returns (safe_takeoff_wait (length clock) clock) st
    (fun clock' st' =>
       clock' = after_time_is_up clock
       /\ poll_script (drone st')
          = Nat.iter (rounds_in_time clock) after_wait (poll_script (drone st)))
  /\ (flying_state_is st "takingoff" = true ->
      returns (safe_takeoff clock) st
        (fun _ st' =>
           poll_script (drone st')
           = Nat.iter (rounds_in_time clock) after_wait (poll_script (drone st))
           /\ acked_writes st' = acked_writes st)).
Proof.
  intros Hok.
  assert (rounds_in_time clock <= length clock)%nat as Hfuel.
  { induction clock as [|[] rest IH]; cbn; lia. }
  split.
  - eapply returns_weaken; [by apply safe_takeoff_wait_runs|].
    cbn beta. by intros clock' st' (-> & _ & Hp & _).
  - intros Htaking. unfold safe_takeoff. apply returns_bind.
    assert (returns (safe_takeoff_send (length clock) clock) st
              (fun clock' st' => clock' = clock /\ st' = st)) as Hsend.
    { destruct (length clock); cbn [safe_takeoff_send]; apply returns_get_bind;
        rewrite Htaking; cbn; by apply returns_ret. }
    eapply returns_weaken; [exact Hsend|].
    cbn beta. intros clock' st' [-> ->]. apply returns_bind.
    eapply returns_weaken; [by apply safe_takeoff_wait_runs|].
    cbn beta. intros clock' st' (_ & _ & Hp & Hb). apply returns_ret.
    split; [done|]. unfold acked_writes.
    destruct (bg_written _ _ _ _ _ Hb) as (news & -> & Hn).
    by rewrite writes_on_app, (writes_on_background _ news).
Qed.

Lemma safe_takeoff_flying_witness :
  let st := (handleNotification (handle_map sample_services) 31
               [Byte.x02; Byte.x01; Byte.x02; Byte.x03; Byte.x01; Byte.x00; Byte.x03]
               (sample_connected [] [Silence; Deadline; Silence; Deadline; Silence])).2 in
  returns (safe_takeoff_wait 3 [true; true; false]) st
    (fun clock' st' =>
       clock' = after_time_is_up [true; true; false]
       /\ poll_script (drone st')
          = Nat.iter (rounds_in_time [true; true; false]) after_wait (poll_script (drone st)))
  /\ (flying_state_is st "takingoff" = true ->
      returns (safe_takeoff [true; true; false]) st
        (fun _ st' =>
           poll_script (drone st')
           = Nat.iter (rounds_in_time [true; true; false]) after_wait (poll_script (drone st))
           /\ acked_writes st' = acked_writes st)).
Proof.
  apply (safe_takeoff_waits_for_the_clock [true; true; false]).
  vm_compute. constructor.
Defined.

(** ** [safe_land]: the loop ends on "landed" and on nothing else *)

#[global] Instance still_preorder : PreOrder still.
Proof.
  split.
  - by intros st Hc.
  - intros st1 st2 st3 H12 H23 Hc. destruct (H12 Hc) as [Hc2 Hs2].
    destruct (H23 Hc2) as [Hc3 Hs3]. split; [done|congruence].
Qed.

Lemma link_only_still (W : Written -> Prop) (st st' : Mambo) :
  link_only W st st' -> still st st'.
Proof. by intros (l & news & _ & _ & ->) Hc. Qed.

Lemma resolving_still (st st' : Mambo) : resolving st st' -> still st st'.
Proof.
  intros [(Hd & _) Hs] Hc. split; [|done]. unfold calm. by rewrite Hd.
Qed.

Lemma still_modify_flags (g : Mambo -> Mambo) :
  (forall st, drone (g st) = drone st /\ sensors (g st) = sensors st) ->
  framed still (modify g).
Proof.
  intros H. apply framed_modify. intros st Hc. destruct (H st) as [Hd Hs].
  split; [|done]. unfold calm. by rewrite Hd.
Qed.

(** The round that [next_poll] hands out in a calm state is no notification. *)
Lemma still_next_poll_bind {A} (f : option Poll -> M A) :
  (forall p, match p with Incoming _ _ => False | _ => True end -> framed still (f (Some p))) ->
  framed still (f None) ->
  framed still (next_poll ≫= f).
Proof.
  intros Hsome Hnone st Hc. unfold mbind, M_bind.
  destruct (next_poll_cases st) as [[E1 E2]|(p & rest & E1 & E2)]; rewrite E2.
  - by apply Hnone.
  - unfold calm in Hc. rewrite E1 in Hc. apply Forall_cons in Hc as [Hp Hrest].
    destruct (Hsome p Hp (set_drone (set_poll_script rest (drone st)) st)) as [Hc' Hs'];
      [done|]. done.
Qed.

Lemma reconnect_still (num_retries : Z) : framed still (_reconnect num_retries).
Proof.
  eapply framed_mono; [apply (link_only_still is_handle_write)|].
  by apply reconnect_framed.
Qed.

Lemma smart_sleep_still (timeout : Z) : framed still (smart_sleep timeout).
Proof.
  unfold smart_sleep.
  apply framed_bind; [typeclasses eauto|apply framed_get_self; typeclasses eauto|intros st].
  induction (length (poll_script (drone st))) as [|fuel IH]; cbn [smart_sleep_loop];
    apply still_next_poll_bind; try (apply framed_ret; typeclasses eauto);
    (intros [| |cHandle data|] Hp; [apply framed_ret; typeclasses eauto| |done|]);
    try (apply framed_out_of_fuel; typeclasses eauto);
    (apply framed_bind; [typeclasses eauto| |intros _; exact IH]);
    (apply framed_try_except; [typeclasses eauto| |]);
    (apply framed_bind; [typeclasses eauto| |intros _; apply framed_ret; typeclasses eauto]);
    first [apply reconnect_still | cbn [waitForNotifications];
           first [apply framed_ret | apply framed_raise]; typeclasses eauto].
Qed.

Lemma safe_ble_write_still (c : Channel) (packet : list byte) :
  framed still (_safe_ble_write c packet).
Proof.
  eapply framed_mono; [apply (link_only_still (safe_write_of c packet))|].
  apply safe_ble_write_framed.
Qed.

Lemma send_command_packet_ack_still (packet : list byte) :
  framed still (_send_command_packet_ack packet).
Proof.
  unfold _send_command_packet_ack.
  apply framed_bind; [typeclasses eauto| |intros _].
  { unfold _set_command_received. by apply still_modify_flags. }
  apply framed_bind; [typeclasses eauto|apply framed_get_self; typeclasses eauto|intros st].
  apply framed_bind; [typeclasses eauto| |intros _].
  2: { apply framed_bind; [typeclasses eauto|apply framed_get_self; typeclasses eauto|intros ?].
       apply framed_ret; typeclasses eauto. }
  generalize 0. induction (Z.to_nat (max_packet_retries st)) as [|fuel IH]; intros try_num;
    cbn [send_command_packet_ack_loop];
    (apply framed_bind; [typeclasses eauto|apply framed_get_self; typeclasses eauto|intros st0]);
    destruct ((try_num <? max_packet_retries st0) && negb (command_received st0 SEND_WITH_ACK));
    try (apply framed_ret || apply framed_out_of_fuel); try typeclasses eauto.
  apply framed_send_characteristic_bind; [typeclasses eauto|].
  apply framed_bind; [typeclasses eauto|apply safe_ble_write_still|intros _].
  apply framed_bind; [typeclasses eauto|apply smart_sleep_still|intros _; apply IH].
Qed.

Lemma land_still : framed still land.
Proof.
  unfold land.
  apply framed_bind; [typeclasses eauto| |intros command_tuple].
  { eapply framed_mono; [apply resolving_still|apply get_command_tuple_resolving]. }
  unfold _send_noparam_command_packet_ack.
  apply framed_bind; [typeclasses eauto| |intros _].
  { unfold increment_send_counter. by apply still_modify_flags. }
  apply framed_bind; [typeclasses eauto|apply framed_get_self; typeclasses eauto|intros st].
  apply framed_bind; [typeclasses eauto|apply framed_lift; typeclasses eauto|intros [[p c] m]].
  apply framed_bind; [typeclasses eauto|apply framed_lift; typeclasses eauto|intros packet].
  apply send_command_packet_ack_still.
Qed.

Lemma safe_land_loop_landed (fuel : nat) :
  forall st st' : Mambo,
    safe_land_loop fuel st = (Ret tt, st') -> flying_state_is st' "landed" = true.
Proof.
  induction fuel as [|fuel IH]; intros st st'; cbn [safe_land_loop];
    unfold mbind at 1, M_bind at 1, get_self;
    destruct (flying_state_is st "landed") eqn:E; cbn [negb]; try discriminate;
    try (by intros [= <-]).
  unfold mbind, M_bind.
  destruct (smart_sleep 1000 st) as [[[]|e|] st1]; try discriminate.
  destruct (land st1) as [[b|e|] st2]; try discriminate.
  apply IH.
Qed.

Lemma safe_land_loop_goes_on (fuel : nat) :
  forall st : Mambo,
    flying_state_is st "landed" = false -> calm st ->
    (safe_land_loop fuel st).1 <> Ret tt.
Proof.
  induction fuel as [|fuel IH]; intros st Hfly Hcalm; cbn [safe_land_loop];
    unfold mbind at 1, M_bind at 1, get_self; rewrite Hfly; cbn [negb]; [done|].
  unfold mbind at 1, M_bind at 1.
  pose proof (smart_sleep_still 1000 st Hcalm) as [Hc1 Hs1].
  destruct (smart_sleep 1000 st) as [[[]|e|] st1]; cbn in *; [|done..].
  unfold mbind at 1, M_bind at 1.
  pose proof (land_still st1 Hc1) as [Hc2 Hs2].
  destruct (land st1) as [[b|e|] st2]; cbn in *; [|done..].
  apply IH; [|done]. unfold flying_state_is in *. by rewrite Hs2, Hs1.
Qed.

(** [safe_land] ends when the sensors say "landed" and on nothing else.
    Called in that state -- the state of a new [MamboSensors] -- it returns
    at once and sends nothing.  When it returns, the sensors say "landed".
    There is no bound on the rounds: while the drone reports something else
    and no notification arrives, no number of rounds makes the loop end. *)
Theorem safe_land_ends_only_on_landed (st : Mambo) :
  (flying_state_is st "landed" = true -> safe_land st = (Ret tt, st))
  /\ (forall fuel st',
        safe_land_loop fuel st = (Ret tt, st') -> flying_state_is st' "landed" = true)
  /\ (flying_state_is st "landed" = false -> calm st ->
      forall fuel, (safe_land_loop fuel st).1 <> Ret tt).
Proof.
  split; [|split].
  - intros H. unfold safe_land. cbn [safe_land_loop]. unfold mbind, M_bind, get_self.
    by rewrite H.
  - intros fuel st'. apply safe_land_loop_landed.
  - intros Hfly Hcalm fuel. by apply safe_land_loop_goes_on.
Qed.

Lemma safe_land_witness :
  safe_land (sample_connected [] [Silence; Deadline]) 
  = (Ret tt, sample_connected [] [Silence; Deadline])
  /\ forall fuel,
       (safe_land_loop fuel
          (handleNotification (handle_map sample_services) 31
             [Byte.x02; Byte.x01; Byte.x02; Byte.x03; Byte.x01; Byte.x00; Byte.x03]
             (sample_connected [] [Silence; Deadline; Dropped])).2).1 <> Ret tt.
Proof.
  split.
  - apply (proj1 (safe_land_ends_only_on_landed _)). vm_compute. reflexivity.
  - apply (proj2 (proj2 (safe_land_ends_only_on_landed _))).
    + vm_compute. reflexivity.
    + vm_compute. repeat constructor.
Defined.

(** ** Commands the dictionary does not have *)

Lemma unknown_command_raises {A} (myclass cmd : string) (send : option (Z * Z * Z) -> M A)
    (st : Mambo) :
  unknown_command myclass cmd st ->
  (forall st1, raises_with_counter_spent (send None) st1) ->
  raises_with_counter_spent (_get_command_tuple myclass cmd ≫= send) st.
Proof.
  unfold unknown_command, raises_with_counter_spent. intros Hnone Hsend.
  pose proof (get_command_tuple_resolving myclass cmd st) as [(Hd & Hc & _) _].
  unfold mbind, M_bind.
  destruct (_get_command_tuple myclass cmd st) as [o st1]. cbn in Hnone, Hd, Hc. subst o.
  destruct (Hsend st1) as (H1 & H2 & H3). by rewrite H1, H2, H3, Hd, Hc.
Qed.

Lemma send_noparam_none (st : Mambo) :
  raises_with_counter_spent (_send_noparam_command_packet_ack None) st.
Proof.
  unfold raises_with_counter_spent, _send_noparam_command_packet_ack, increment_send_counter.
  unfold mbind, M_bind, modify, get_self, lift. cbn. unfold dict_set.
  by rewrite decide_True.
Qed.

(** A command that neither XML file has -- [_get_command_tuple] then
    returns [None] -- makes the method raise TypeError when it indexes the
    tuple.  Nothing is written, but the sequence number of SEND_WITH_ACK is
    spent: the counter was incremented before the tuple was looked at. *)
Theorem command_missing_from_the_xml (st : Mambo) :
  (unknown_command "Piloting" "TakeOff" st -> raises_with_counter_spent takeoff st)
  /\ (unknown_command "Piloting" "Landing" st -> raises_with_counter_spent land st)
  /\ (unknown_command "Piloting" "FlatTrim" st -> raises_with_counter_spent hover st)
  /\ (unknown_command "MediaRecord" "PictureV2" st ->
      raises_with_counter_spent take_picture st)
  /\ (unknown_command "Common" "AllStates" st ->
      raises_with_counter_spent ask_for_state_update st)
  /\ (forall degrees, unknown_command "Animations" "Cap" st ->
      raises_with_counter_spent (turn_degrees degrees) st)
  /\ (unknown_command "Piloting" "AutoTakeOffMode" st ->
      raises_with_counter_spent turn_on_auto_takeoff st).
Proof.
  repeat match goal with |- _ /\ _ => split end; intros;
    (eapply unknown_command_raises; [eassumption|intros st1]);
    first [apply send_noparam_none
          | unfold raises_with_counter_spent, increment_send_counter;
            unfold mbind, M_bind, modify, get_self, lift; cbn; unfold dict_set;
            by rewrite decide_True].
Qed.

Lemma take_picture_missing_witness :
  raises_with_counter_spent take_picture (sample_connected [] [])
  /\ raises_with_counter_spent turn_on_auto_takeoff (sample_connected [] []).
Proof.
  split.
  - apply (proj1 (proj2 (proj2 (proj2 (command_missing_from_the_xml _))))).
    vm_compute. reflexivity.
  - apply (proj2 (proj2 (proj2 (proj2 (proj2 (proj2 (command_missing_from_the_xml _))))))).
    vm_compute. reflexivity.
Defined.

(** ** [flip] in one of the four directions *)

(** With a valid direction that the XML resolves, [flip] on a ready session
    returns a boolean, having written one to three times a frame of ten
    bytes whose last four are the index of the direction among the members
    of the enum. *)
Theorem flip_sends_the_direction_index (direction : string) (command_tuple : Z * Z * Z)
    (enum_id : Z) (st : Mambo) :
  direction ∈ ["front"; "back"; "right"; "left"]%string ->
  ready st ->
  (_get_command_tuple_with_enum "Animations" "Flip" direction st).1
  = Ret (Some (command_tuple, enum_id)) ->
  (let '(project, myclass, cmd) := command_tuple in
   is_byte project /\ is_byte myclass /\ is_byte cmd) ->
  0 <= enum_id < 2 ^ 32 ->
  returns (flip direction) st
    (fun r st' =>
       exists sent packet k,
         r = Some sent
         /\ (1 <= k <= 3)%nat
         /\ length packet = 10%nat
         /\ carries_uint32 enum_id packet
         /\ acked_writes st' = replicate k packet ++ acked_writes st).
Proof.
  destruct command_tuple as [[project myclass] cmd].
  intros Hdir Hready Hcmd (Hp & Hm & Hc) He. unfold is_byte in *.
  pose proof (get_command_tuple_with_enum_resolving "Animations" "Flip" direction st) as Hres.
  pose proof (incremented_range (characteristic_send_counter st SEND_WITH_ACK)) as Hi.
  unfold is_byte in Hi.
  unfold flip. rewrite bool_decide_eq_true_2 by done. cbn [negb].
  apply returns_bind.
  destruct (_get_command_tuple_with_enum "Animations" "Flip" direction st) as [o st1] eqn:E.
  cbn in Hcmd, Hres. subst o.
  assert (characteristic_send_counter st1 = characteristic_send_counter st) as Hc1
    by (by destruct Hres as [(_ & ? & _) _]).
  assert (drone st1 = drone st) as Hd1 by (by destruct Hres as [(? & _) _]).
  exists (Some (project, myclass, cmd, enum_id)), st1. split; [done|].
  apply returns_bind.
  unfold _send_enum_command_packet_ack, increment_send_counter.
  apply returns_bind, returns_modify.
  set (st2 := set_characteristic_send_counter _ st1).
  assert (ready st2) as Hready2.
  { apply (ready_increment SEND_WITH_ACK st1). by eapply ready_resolving. }
  assert (characteristic_send_counter st2 SEND_WITH_ACK
          = incremented (characteristic_send_counter st SEND_WITH_ACK)) as Hc2.
  { unfold st2. cbn. unfold dict_set. rewrite decide_True by done. by rewrite Hc1. }
  assert (acked_writes st2 = acked_writes st) as Hw2.
  { unfold acked_writes, st2. cbn. by rewrite Hd1. }
  clearbody st2. apply returns_get_bind. rewrite Hc2.
  destruct (struct_pack _) as [packet|e] eqn:Epack.
  2: { exfalso. revert Epack. cbn [struct_pack].
       rewrite !pack_int_fits by (cbn; lia). done. }
  apply returns_bind, returns_lift.
  eapply returns_weaken; [by apply send_command_packet_ack_delivers|].
  cbn beta. intros sent st' (_ & _ & k & Hk & Hw). apply returns_ret.
  exists sent, packet, k. split; [done|]. split; [done|].
  repeat (apply struct_pack_cons in Epack as (? & ? & Epack & ->)).
  injection Epack as <-.
  split; [by rewrite !length_app, !length_le_encode|].
  split; [|by rewrite Hw, Hw2].
  apply (unpack_int_encode fmt_I enum_id
           (le_encode 1 4
            ++ le_encode 1 (incremented (characteristic_send_counter st SEND_WITH_ACK))
            ++ le_encode 1 project ++ le_encode 1 myclass
            ++ le_encode 1 cmd ++ le_encode 1 0) []).
  cbn. lia.
Qed.

Lemma flip_left_witness :
  let st := sample_connected [] [Silence; Deadline; Incoming 32 []; Deadline] in
  returns (flip "left") st
    (fun r st' =>
       exists sent packet k,
         r = Some sent
         /\ (1 <= k <= 3)%nat
         /\ length packet = 10%nat
         /\ carries_uint32 3 packet
         /\ acked_writes st' = replicate k packet ++ acked_writes st).
Proof.
  apply (flip_sends_the_direction_index "left" (2, 4, 0) 3).
  - apply (bool_decide_unpack _). vm_compute. exact I.
  - split; [vm_compute; constructor|]. split; vm_compute; reflexivity.
  - vm_compute. reflexivity.
  - vm_compute. repeat split; discriminate.
  - lia.
Defined.
(** ** C5: the counters of the send channels *)

(** C5.  Incrementing the counter of a channel adds one modulo 256 and
    leaves the other counters alone, so that 256 increments in a row bring a
    counter in [0, 256) back to its value.  Every method that builds a frame
    increments the counter of its channel first, whatever the state it is
    called in and whatever its outcome: [_ack_packet] on ACK_COMMAND,
    [_send_noparam_command_packet_ack] and [_send_enum_command_packet_ack] on
    SEND_WITH_ACK and each round of [fly_direct] on SEND_NO_ACK leave the
    counter incremented once, and every frame they have written on the
    channel carries the incremented value; [turn_degrees] and
    [turn_on_auto_takeoff] do so once [_get_command_tuple] has returned, and
    when it raises they end with its exception, the counter untouched and
    nothing written.  The frames are indeed written: on a link that never
    fails [_ack_packet] writes one frame [1, counter, id] with the
    incremented counter, and a command without parameters is written at
    least once and at most three times. *)
Theorem C5_counter_incremented_before_each_frame (channel : Channel) (st : Mambo) :
  0 <= characteristic_send_counter st channel < 256 ->
  (characteristic_send_counter (increment_send_counter channel st).2 channel
   = (characteristic_send_counter st channel + 1) mod 256
   /\ 0 <= characteristic_send_counter (increment_send_counter channel st).2 channel < 256
   /\ forall other, other <> channel ->
        characteristic_send_counter (increment_send_counter channel st).2 other
        = characteristic_send_counter st other)
  /\ characteristic_send_counter
       (Nat.iter 256 (fun s => (increment_send_counter channel s).2) st) channel
     = characteristic_send_counter st channel
  /\ (forall packet_id, sends_incremented ACK_COMMAND (_ack_packet packet_id))
  /\ (forall t, sends_incremented SEND_WITH_ACK (_send_noparam_command_packet_ack t))
  /\ (forall t enum_value usb_id,
        sends_incremented SEND_WITH_ACK (_send_enum_command_packet_ack t enum_value usb_id))
  /\ (forall degrees,
        sends_incremented_once SEND_WITH_ACK (_get_command_tuple "Animations" "Cap")
          (turn_degrees degrees))
  /\ sends_incremented_once SEND_WITH_ACK (_get_command_tuple "Piloting" "AutoTakeOffMode")
       turn_on_auto_takeoff
  /\ (forall p t my_roll my_pitch my_yaw my_vertical,
        sends_incremented SEND_NO_ACK
          (fly_direct_round p t my_roll my_pitch my_yaw my_vertical))
  /\ (forall packet_id,
        link_ok st -> send_characteristics st ACK_COMMAND = true -> is_byte packet_id ->
        returns (_ack_packet packet_id) st
          (fun _ st' =>
             characteristic_send_counter st' ACK_COMMAND
             = incremented (characteristic_send_counter st ACK_COMMAND)
             /\ written (drone st')
                = ToCharacteristic ACK_COMMAND
                    [Byte.x01;
                     byte_of_Z (incremented (characteristic_send_counter st ACK_COMMAND));
                     byte_of_Z packet_id] :: written (drone st)))
  /\ (forall command_tuple : Z * Z * Z,
        ready st ->
        (let '(project, myclass, cmd) := command_tuple in
         is_byte project /\ is_byte myclass /\ is_byte cmd) ->
        returns (_send_noparam_command_packet_ack (Some command_tuple)) st
          (fun _ st' =>
             characteristic_send_counter st' SEND_WITH_ACK
             = incremented (characteristic_send_counter st SEND_WITH_ACK)
             /\ exists packet k,
                  (1 <= k <= 3)%nat
                  /\ sequence_byte packet
                     = Some (incremented (characteristic_send_counter st SEND_WITH_ACK))
                  /\ acked_writes st' = replicate k packet ++ acked_writes st)).
Proof.
  intros Hc. split.
  { cbn. unfold dict_set. rewrite decide_True by done. split; [done|]. split.
    - pose proof (incremented_range (characteristic_send_counter st channel)) as H.
      unfold is_byte in H. lia.
    - intros other Ho. by rewrite decide_False. }
  split.
  { rewrite iter_increment_send_counter. by apply incremented_wraps. }
  split; [apply ack_packet_sends_incremented|].
  split; [apply send_noparam_sends_incremented|].
  split; [apply send_enum_sends_incremented|].
  split; [apply turn_degrees_sends_incremented|].
  split; [apply turn_on_auto_takeoff_sends_incremented|].
  split; [apply fly_direct_round_sends_incremented|].
  split.
  { intros packet_id Hok Hsend Hid.
    eapply returns_weaken; [by apply ack_packet_runs|].
    cbn beta. intros _ st' (_ & _ & H1 & H2). done. }
  intros command_tuple Hready Ht. by apply send_noparam_returns.
Qed.

Lemma C5_takeoff_frame_witness :
  let st := sample_connected [] [Silence; Deadline; Incoming 32 []; Deadline] in
  let channel := SEND_WITH_ACK in
  (characteristic_send_counter (increment_send_counter channel st).2 channel
   = (characteristic_send_counter st channel + 1) mod 256
   /\ 0 <= characteristic_send_counter (increment_send_counter channel st).2 channel < 256
   /\ forall other, other <> channel ->
        characteristic_send_counter (increment_send_counter channel st).2 other
        = characteristic_send_counter st other)
  /\ characteristic_send_counter
       (Nat.iter 256 (fun s => (increment_send_counter channel s).2) st) channel
     = characteristic_send_counter st channel
  /\ (forall packet_id, sends_incremented ACK_COMMAND (_ack_packet packet_id))
  /\ (forall t, sends_incremented SEND_WITH_ACK (_send_noparam_command_packet_ack t))
  /\ (forall t enum_value usb_id,
        sends_incremented SEND_WITH_ACK (_send_enum_command_packet_ack t enum_value usb_id))
  /\ (forall degrees,
        sends_incremented_once SEND_WITH_ACK (_get_command_tuple "Animations" "Cap")
          (turn_degrees degrees))
  /\ sends_incremented_once SEND_WITH_ACK (_get_command_tuple "Piloting" "AutoTakeOffMode")
       turn_on_auto_takeoff
  /\ (forall p t my_roll my_pitch my_yaw my_vertical,
        sends_incremented SEND_NO_ACK
          (fly_direct_round p t my_roll my_pitch my_yaw my_vertical))
  /\ (forall packet_id,
        link_ok st -> send_characteristics st ACK_COMMAND = true -> is_byte packet_id ->
        returns (_ack_packet packet_id) st
          (fun _ st' =>
             characteristic_send_counter st' ACK_COMMAND
             = incremented (characteristic_send_counter st ACK_COMMAND)
             /\ written (drone st')
                = ToCharacteristic ACK_COMMAND
                    [Byte.x01;
                     byte_of_Z (incremented (characteristic_send_counter st ACK_COMMAND));
                     byte_of_Z packet_id] :: written (drone st)))
  /\ (forall command_tuple : Z * Z * Z,
        ready st ->
        (let '(project, myclass, cmd) := command_tuple in
         is_byte project /\ is_byte myclass /\ is_byte cmd) ->
        returns (_send_noparam_command_packet_ack (Some command_tuple)) st
          (fun _ st' =>
             characteristic_send_counter st' SEND_WITH_ACK
             = incremented (characteristic_send_counter st SEND_WITH_ACK)
             /\ exists packet k,
                  (1 <= k <= 3)%nat
                  /\ sequence_byte packet
                     = Some (incremented (characteristic_send_counter st SEND_WITH_ACK))
                  /\ acked_writes st' = replicate k packet ++ acked_writes st)).
Proof.
  apply (C5_counter_incremented_before_each_frame SEND_WITH_ACK
           (sample_connected [] [Silence; Deadline; Incoming 32 []; Deadline])).
  vm_compute. split; [discriminate|reflexivity].
Defined.
(** ** [_send_command_packet_ack] over a link that may fail *)

(** A round that brings no ack of a command leaves the flag of
    SEND_WITH_ACK alone, whatever the link does. *)
Lemma sleep_round_unacked (p : Poll) (st : Mambo) :
  is_command_ack st p = false ->
  background polls_kept is_background_write is_other_flag st
    (try_except (waitForNotifications p;; mret ()) (_reconnect 3;; mret ()) st).2.
Proof.
  intros Hack.
  assert (forall st1, background polls_kept is_background_write (flags_of_poll st p) st st1 ->
                      background polls_kept is_background_write is_other_flag st st1) as Hweak.
  { intros st1. apply background_mono; [done|done|].
    intros c b [_ [[-> Hc]| ->]]; [congruence|done]. }
  pose proof (waitForNotifications_background_at p st) as Hb. apply Hweak in Hb.
  unfold try_except. unfold mbind at 1, M_bind at 1.
  destruct (waitForNotifications p st) as [[b|e|] st1]; cbn in Hb |- *; [done| |done].
  pose proof (reconnect_background is_other_flag 3 st1) as Hr.
  unfold mbind, M_bind.
  destruct (_reconnect 3 st1) as [[b|e'|] st2]; cbn in Hr |- *; by etrans.
Qed.

Lemma smart_sleep_loop_unacked (fuel : nat) :
  forall st : Mambo,
    Forall (fun p => is_command_ack st p = false) (poll_script (drone st)) ->
    background polls_used is_background_write is_other_flag st (smart_sleep_loop fuel st).2.
Proof.
  induction fuel as [|fuel IH]; intros st Hpolls; cbn [smart_sleep_loop];
    unfold mbind at 1, M_bind at 1;
    (destruct (next_poll_cases st) as [[E1 E2]|(p & rest & E1 & E2)]; rewrite E2;
     [reflexivity|]);
    pose proof (next_poll_background is_background_write is_other_flag st) as Hnext;
    rewrite E2 in Hnext; cbn in Hnext;
    set (st1 := set_drone (set_poll_script rest (drone st)) st) in *.
  - by destruct p.
  - rewrite E1 in Hpolls. apply Forall_cons in Hpolls as [Hp Hrest].
    assert (background polls_used is_background_write is_other_flag st
              ((try_except (waitForNotifications p;; mret ()) (_reconnect 3;; mret ());;
                smart_sleep_loop fuel) st1).2) as H; [|by destruct p].
    pose proof (sleep_round_unacked p st1 Hp) as Hround.
    unfold mbind at 1, M_bind at 1.
    destruct (try_except _ _ st1) as [[u|e|] st2]; cbn in Hround |- *.
    + etrans; [exact Hnext|]. etrans; [by apply kept_used|].
      apply IH. pose proof (bg_poll _ _ _ _ _ Hround) as Hpoll.
      unfold polls_kept in Hpoll. cbn in Hpoll. rewrite <- Hpoll.
      apply (Forall_not_command_ack st); [|done].
      by rewrite (bg_delegate _ _ _ _ _ Hround).
    + etrans; [exact Hnext|]. by apply kept_used.
    + etrans; [exact Hnext|]. by apply kept_used.
Qed.

Lemma smart_sleep_unacked (timeout : Z) (st : Mambo) :
  Forall (fun p => is_command_ack st p = false) (poll_script (drone st)) ->
  background polls_used is_background_write is_other_flag st (smart_sleep timeout st).2.
Proof. intros H. unfold smart_sleep. munfold. by apply smart_sleep_loop_unacked. Qed.

(** What [_safe_ble_write] leaves on its channel. *)
Lemma safe_ble_write_cases (c : Channel) (packet : list byte) (st : Mambo) :
  link_only (safe_write_of c packet) st (_safe_ble_write c packet st).2
  /\ match (_safe_ble_write c packet st).1 with
     | Ret _ =>
         writes_on c (written (drone (_safe_ble_write c packet st).2))
         = packet :: writes_on c (written (drone st))
     | Raise e =>
         e = BTLEException
         /\ writes_on c (written (drone (_safe_ble_write c packet st).2))
            = writes_on c (written (drone st))
     | OutOfFuel =>
         writes_on c (written (drone (_safe_ble_write c packet st).2))
         = writes_on c (written (drone st))
     end.
Proof.
  split; [apply safe_ble_write_framed|].
  pose proof (safe_ble_write_raises c packet st) as Hr.
  unfold _safe_ble_write in *. unfold mbind, M_bind, get_self in *.
  destruct (safe_ble_write_loop _ c packet st) as [o st'] eqn:E.
  destruct (safe_ble_write_loop_log _ _ _ _ _ _ E) as (news & Hn & Hw).
  assert (writes_on c news = []) as Hnone.
  { clear -Hn. induction Hn as [|[c' p|h v] news Hw H IH]; cbn; done. }
  cbn in *. destruct o as [[]|e|]; rewrite Hw; cbn.
  - by rewrite decide_True, writes_on_app, Hnone.
  - split; [symmetry; by apply Hr|]. by rewrite writes_on_app, Hnone.
  - by rewrite writes_on_app, Hnone.
Qed.

(** No ack arrives: whatever the link does, the loop ends only when the
    three attempts are made, and nothing leaves it but BTLEException. *)
Lemma send_loop_unacked_any_link (packet : list byte) (fuel : nat) :
  forall (try_num : Z) (st st' : Mambo) (o : outcome unit),
    send_characteristics st SEND_WITH_ACK = true ->
    max_packet_retries st = 3 ->
    command_received st SEND_WITH_ACK = false ->
    Forall (fun p => is_command_ack st p = false) (poll_script (drone st)) ->
    0 <= try_num <= 3 ->
    send_command_packet_ack_loop fuel try_num packet st = (o, st') ->
    command_received st' SEND_WITH_ACK = false
    /\ exists k : nat,
         acked_writes st' = replicate k packet ++ acked_writes st
         /\ match o with
            | Ret _ => try_num + Z.of_nat k = 3
            | Raise e => e = BTLEException /\ try_num + Z.of_nat k <= 3
            | OutOfFuel => try_num + Z.of_nat k <= 3
            end.
Proof.
  induction fuel as [|fuel IH]; intros try_num st st' o Hsend Hretries Hflag Hpolls Htry E;
    cbn [send_command_packet_ack_loop] in E; unfold mbind at 1, M_bind at 1 in E;
    cbn [get_self] in E; rewrite Hretries, Hflag in E; cbn [negb] in E;
    rewrite andb_true_r in E; destruct (Z.ltb_spec try_num 3) as [Hlt|Hge];
    try (injection E as <- <-; split; [done|]; exists 0%nat; split; [done|]; cbn; lia).
  unfold send_characteristic in E. unfold mbind at 1, M_bind at 1 in E.
  unfold mbind at 1, M_bind at 1 in E. cbn [get_self] in E. rewrite Hsend in E.
  cbn [mret M_ret] in E. unfold mbind at 1, M_bind at 1 in E.
  destruct (safe_ble_write_cases SEND_WITH_ACK packet st) as [Hlink Hw].
  destruct Hlink as (l & news & Hl & Hn & Est).
  destruct (_safe_ble_write SEND_WITH_ACK packet st) as [[[]|e|] st1]; cbn in Hw, Est, E.
  2:{ injection E as <- <-. destruct Hw as [-> Hw]. subst st1. cbn. split; [done|].
      exists 0%nat. split; [exact Hw|]. split; [done|]. lia. }
  2:{ injection E as <- <-. subst st1. cbn. split; [done|]. exists 0%nat.
      split; [exact Hw|]. lia. }
  assert (send_characteristics st1 SEND_WITH_ACK = true) as Hsend1 by (by subst st1).
  assert (max_packet_retries st1 = 3) as Hretries1 by (by subst st1).
  assert (command_received st1 SEND_WITH_ACK = false) as Hflag1 by (by subst st1).
  assert (Forall (fun p => is_command_ack st1 p = false) (poll_script (drone st1))) as Hpolls1.
  { subst st1. cbn. by apply (Forall_not_command_ack st). }
  assert (acked_writes st1 = packet :: acked_writes st) as Hw1 by exact Hw.
  clear Est Hw Hl Hn l news.
  pose proof (smart_sleep_unacked 500 st1 Hpolls1) as Hb.
  pose proof (smart_sleep_raises 500 st1) as Hr.
  unfold mbind at 1, M_bind at 1 in E.
  destruct (smart_sleep 500 st1) as [[[]|e|] st2]; cbn in Hb, Hr, E.
  all: assert (acked_writes st2 = acked_writes st1) as Hw2
         by (unfold acked_writes; destruct (bg_written _ _ _ _ _ Hb) as (news2 & -> & Hn2);
             by rewrite writes_on_app, (writes_on_background _ news2)).
  all: assert (command_received st2 SEND_WITH_ACK = false) as Hflag2
         by (destruct (bg_flags _ _ _ _ _ Hb SEND_WITH_ACK) as [E'|E']; [congruence|done]).
  - destruct (IH (try_num + 1) st2 st' o) as (Hf & k & Hk & Ho); try done; try lia.
    + by rewrite (bg_send _ _ _ _ _ Hb).
    + by rewrite (bg_retries _ _ _ _ _ Hb).
    + pose proof (bg_poll _ _ _ _ _ Hb) as Hpoll. unfold polls_used in Hpoll.
      apply (Forall_not_command_ack st1); [by rewrite (bg_delegate _ _ _ _ _ Hb)|].
      destruct Hpoll as (pre & Epre). rewrite Epre in Hpolls1.
      by apply Forall_app in Hpolls1 as [_ H].
    + split; [exact Hf|]. exists (S k). split.
      * rewrite Hk, Hw2, Hw1. cbn. by rewrite replicate_app_cons.
      * destruct o; [lia|split; [tauto|lia]|lia].
  - injection E as <- <-. split; [done|].
    exists 1%nat. split; [by rewrite Hw2, Hw1|]. split; [symmetry; by apply Hr|lia].
  - injection E as <- <-. split; [done|].
    exists 1%nat. split; [by rewrite Hw2, Hw1|]. lia.
Qed.

(** [_send_command_packet_ack] is its loop, run on the state with the flag
    cleared, and then the flag. *)
Lemma send_command_packet_ack_run (packet : list byte) (st : Mambo) :
  _send_command_packet_ack packet st
  = match send_command_packet_ack_loop (Z.to_nat (max_packet_retries st)) 0 packet
            (set_command_received (dict_set (command_received st) SEND_WITH_ACK false) st) with
    | (Ret _, st') => (Ret (command_received st' SEND_WITH_ACK), st')
    | (Raise e, st') => (Raise e, st')
    | (OutOfFuel, st') => (OutOfFuel, st')
    end.
Proof.
  unfold _send_command_packet_ack, _set_command_received. munfold.
  by destruct (send_command_packet_ack_loop _ 0 packet _) as [[[]|e|] st'].
Qed.

(** ** C1 and C2 *)

(** C1, as the code has it.  Let the SEND_WITH_ACK characteristic be
    discovered and the retry budget be the 3 of the constructor, and let no
    round of the script deliver a notification on ACK_COMMAND_SENT.  On a
    link none of whose calls raises, [_send_command_packet_ack] writes the
    packet on SEND_WITH_ACK exactly three times and returns [False].
    Whatever the link does: when the method returns, it returns [False] and
    has written the packet exactly three times; the only exception that
    leaves it is BTLEException, and then the packet was written at most
    three times. *)
Theorem C1_unacked_send_writes_three_times (packet : list byte) (st : Mambo) :
  send_characteristics st SEND_WITH_ACK = true ->
  max_packet_retries st = 3 ->
  Forall (fun p => is_command_ack st p = false) (poll_script (drone st)) ->
  (link_ok st ->
   (_send_command_packet_ack packet st).1 = Ret false
   /\ acked_writes (_send_command_packet_ack packet st).2
      = [packet; packet; packet] ++ acked_writes st)
  /\ exists k : nat,
       acked_writes (_send_command_packet_ack packet st).2
       = replicate k packet ++ acked_writes st
       /\ match (_send_command_packet_ack packet st).1 with
          | Ret b => b = false /\ k = 3%nat
          | Raise e => e = BTLEException /\ (k <= 3)%nat
          | OutOfFuel => (k <= 3)%nat
          end.
Proof.
  intros Hsend Hretries Hpolls. split.
  { intros Hok.
    set (st0 := set_command_received (dict_set (command_received st) SEND_WITH_ACK false) st).
    assert (returns (_send_command_packet_ack packet) st
              (fun b st' => b = false
                            /\ acked_writes st' = [packet; packet; packet] ++ acked_writes st))
      as H.
    { apply send_command_packet_ack_returns. rewrite Hretries.
      apply (send_loop_unacked packet 3 (Z.to_nat 3) 0 st0); try done; try lia. }
    apply returns_run in H as (b & E & -> & Hw). done. }
  rewrite send_command_packet_ack_run, Hretries.
  set (st0 := set_command_received (dict_set (command_received st) SEND_WITH_ACK false) st).
  destruct (send_command_packet_ack_loop (Z.to_nat 3) 0 packet st0) as [o st'] eqn:E.
  destruct (send_loop_unacked_any_link packet (Z.to_nat 3) 0 st0 st' o) as (Hf & k & Hk & Ho).
  { exact Hsend. }
  { exact Hretries. }
  { unfold st0. cbn. unfold dict_set. by rewrite decide_True. }
  { by apply (Forall_not_command_ack st). }
  { lia. }
  { exact E. }
  exists k. destruct o as [[]|e|]; cbn; (split; [exact Hk|]).
  - split; [exact Hf|lia].
  - split; [tauto|lia].
  - lia.
Qed.

Lemma C1_unacked_send_witness :
  let st := sample_connected [] [Silence; Incoming 33 []; Deadline; Dropped] in
  let packet := [Byte.x04; Byte.x01; Byte.x02; Byte.x00; Byte.x01; Byte.x00] in
  (link_ok st ->
   (_send_command_packet_ack packet st).1 = Ret false
   /\ acked_writes (_send_command_packet_ack packet st).2
      = [packet; packet; packet] ++ acked_writes st)
  /\ exists k : nat,
       acked_writes (_send_command_packet_ack packet st).2
       = replicate k packet ++ acked_writes st
       /\ match (_send_command_packet_ack packet st).1 with
          | Ret b => b = false /\ k = 3%nat
          | Raise e => e = BTLEException /\ (k <= 3)%nat
          | OutOfFuel => (k <= 3)%nat
          end.
Proof.
  cbv zeta. apply C1_unacked_send_writes_three_times.
  - vm_compute. reflexivity.
  - vm_compute. reflexivity.
  - apply (bool_decide_unpack _). vm_compute. exact I.
Defined.

(** The claim as stated fails on a link that fails twice in a row.  The
    session is connected; then the write of the packet raises, the
    connection is made again, and the first write of the handshake raises
    again.  No ack arrives, and yet [_send_command_packet_ack] does not
    return [False] after three writes: BTLEException leaves it, and the
    packet was not written at all. *)
Lemma C1_handshake_failure_leaves_the_send :
  let st := sample_connected (replicate 11 false ++ [true; false; true])
                             [Silence; Deadline; Silence; Deadline; Silence; Deadline] in
  let packet := [Byte.x04; Byte.x01; Byte.x02; Byte.x00; Byte.x01; Byte.x00] in
  send_characteristics st SEND_WITH_ACK = true
  /\ max_packet_retries st = 3
  /\ link_script (drone st) = [true; false; true]
  /\ Forall (fun p => is_command_ack st p = false) (poll_script (drone st))
  /\ (_send_command_packet_ack packet st).1 = Raise BTLEException
  /\ acked_writes (_send_command_packet_ack packet st).2 = acked_writes st.
Proof.
  cbv zeta. repeat split; try (vm_compute; reflexivity).
  apply (bool_decide_unpack _). vm_compute. exact I.
Qed.



(** ** The uuid segments that [_connect] reads *)

Lemma substring_empty (n m : nat) : substring n m EmptyString = EmptyString.
Proof. by destruct n, m. Qed.

Lemma substring_length (s : string) : forall n m : nat,
  (n + m <= String.length s)%nat -> String.length (substring n m s) = m.
Proof.
  induction s as [|c s IH]; intros n m H; cbn in H.
  - assert (n = 0%nat /\ m = 0%nat) as [-> ->] by lia. done.
  - destruct n as [|n].
    + destruct m as [|m]; [done|]. cbn. f_equal. apply IH. lia.
    + cbn. apply IH. lia.
Qed.

Lemma substring_split (s : string) : forall n m k : nat,
  (substring n m s ++ substring (n + m) k s)%string = substring n (m + k) s.
Proof.
  induction s as [|c s IH]; intros n m k.
  - by rewrite !substring_empty.
  - destruct n as [|n].
    + destruct m as [|m]; [done|].
      cbn. rewrite <- (IH 0%nat m k). reflexivity.
    + cbn. apply IH.
Qed.

(** [_get_byte_str_from_uuid(uuid, byte_start, byte_end)] is the hex digits of
    the bytes [byte_start] to [byte_end] of the uuid, counted from 1: two
    digits per byte, the digits [2 * (byte_start - 1)] to [2 * byte_end - 1]
    of the string, provided the string is that long. *)
Theorem byte_str_is_the_hex_digits_of_the_bytes (uuid : string) (byte_start byte_end : Z) :
  1 <= byte_start -> byte_start <= byte_end + 1 ->
  2 * byte_end <= Z.of_nat (String.length uuid) ->
  let r := _get_byte_str_from_uuid uuid byte_start byte_end in
  Z.of_nat (String.length r) = 2 * (byte_end - byte_start + 1) /\
  forall i : nat, (i < String.length r)%nat ->
    String.get i r = String.get (i + Z.to_nat (2 * (byte_start - 1))) uuid.
Proof.
  intros Ha Hb Hlen r.
  assert (Hr : r = substring (Z.to_nat (2 * (byte_start - 1)))
                             (Z.to_nat (2 * (byte_end - byte_start + 1))) uuid).
  { subst r. unfold _get_byte_str_from_uuid, py_slice.
    destruct (Z.ltb_spec (2 * (byte_start - 1)) 0); [lia|].
    destruct (Z.ltb_spec (2 * byte_end) 0); [lia|].
    f_equal; lia. }
  assert (Hl : String.length r = Z.to_nat (2 * (byte_end - byte_start + 1))).
  { rewrite Hr. apply substring_length. lia. }
  split; [lia|].
  intros i Hi. rewrite Hr. apply substring_correct1. lia.
Qed.

Lemma byte_str_witness :
  let r := _get_byte_str_from_uuid "9a66fb0e-0800-9191-11e4-012d1540cb8e" 3 4 in
  Z.of_nat (String.length r) = 2 * (4 - 3 + 1) /\
  forall i : nat, (i < String.length r)%nat ->
    String.get i r
    = String.get (i + Z.to_nat (2 * (3 - 1))) "9a66fb0e-0800-9191-11e4-012d1540cb8e".
Proof.
  apply (byte_str_is_the_hex_digits_of_the_bytes
           "9a66fb0e-0800-9191-11e4-012d1540cb8e" 3 4); cbn; lia.
Defined.

(** The byte strings of two ranges that follow one another make up the byte
    string of the whole range, whatever the length of the uuid: the segment
    (3, 4) that names a service or a handshake characteristic ends with the
    byte (4, 4) that names a characteristic. *)
Theorem byte_strs_of_adjacent_ranges_concatenate (uuid : string) (a b c : Z) :
  1 <= a -> a <= b + 1 -> b <= c ->
  (_get_byte_str_from_uuid uuid a b ++ _get_byte_str_from_uuid uuid (b + 1) c)%string
  = _get_byte_str_from_uuid uuid a c.
Proof.
  intros Ha Hb Hc. unfold _get_byte_str_from_uuid, py_slice.
  set (len := Z.of_nat (String.length uuid)).
  destruct (Z.ltb_spec (2 * (a - 1)) 0); [lia|].
  destruct (Z.ltb_spec (2 * b) 0); [lia|].
  destruct (Z.ltb_spec (2 * (b + 1 - 1)) 0); [lia|].
  destruct (Z.ltb_spec (2 * c) 0); [lia|].
  replace (2 * (b + 1 - 1)) with (2 * b) by lia.
  set (i := Z.min (2 * (a - 1)) len).
  set (j := Z.min (2 * b) len).
  set (k := Z.min (2 * c) len).
  assert (0 <= i <= j /\ j <= k) as [[Hi Hij] Hjk] by (subst i j k len; lia).
  replace (Z.to_nat j) with (Z.to_nat i + Z.to_nat (j - i))%nat by lia.
  rewrite substring_split. f_equal. lia.
Qed.

Lemma byte_strs_concatenate_witness :
  (_get_byte_str_from_uuid "9a66fb0e-0800-9191-11e4-012d1540cb8e" 3 3
   ++ _get_byte_str_from_uuid "9a66fb0e-0800-9191-11e4-012d1540cb8e" (3 + 1) 4)%string
  = _get_byte_str_from_uuid "9a66fb0e-0800-9191-11e4-012d1540cb8e" 3 4.
Proof.
  apply (byte_strs_of_adjacent_ranges_concatenate
           "9a66fb0e-0800-9191-11e4-012d1540cb8e" 3 3 4); lia.
Defined.

(** ** The discovery pass of [_connect] *)

Lemma foldl_invariant {A B} (P : A -> Prop) (f : A -> B -> A) (l : list B) :
  (forall a b, b ∈ l -> P a -> P (f a b)) -> forall a, P a -> P (foldl f a l).
Proof.
  induction l as [|b l IH]; intros Hf a Ha; [done|].
  cbn. apply IH.
  - intros a' b' Hb'. apply Hf. by right.
  - apply Hf; [by left|done].
Qed.

Lemma scan_services_invariant (P : Tables -> Prop) (services : list GattService) :
  (forall t s t', s ∈ services -> P t -> scan_service t s = Ok t' -> P t') ->
  forall t t', P t -> scan_services t services = Ok t' -> P t'.
Proof.
  induction services as [|s rest IH]; intros Hstep t t' Ht Hscan.
  - cbn in Hscan. by injection Hscan as <-.
  - cbn in Hscan. destruct (scan_service t s) as [t1|e] eqn:E; [|done].
    cbn in Hscan. eapply IH; [| |exact Hscan].
    + intros t0 s0 t0' Hs0. apply Hstep. by right.
    + eapply Hstep; [by left|exact Ht|exact E].
Qed.


Lemma store_send_handle_map (t : Tables) (c : GattCharacteristic) :
  gatt_handle_map (store_send t c) = gatt_handle_map t.
Proof. unfold store_send. by destruct (characteristic_send_uuids _). Qed.

Lemma store_ftp_handle_map (t : Tables) (c : GattCharacteristic) :
  gatt_handle_map (store_ftp t c) = gatt_handle_map t.
Proof. unfold store_ftp. by destruct (characteristic_ftp_uuids _). Qed.

Lemma store_handshake_handle_map (t : Tables) (c : GattCharacteristic) :
  gatt_handle_map (store_handshake t c) = gatt_handle_map t.
Proof. unfold store_handshake. by destruct (bool_decide _). Qed.


Lemma scan_service_handle_map (services : list GattService) (t t' : Tables) (s : GattService) :
  s ∈ services ->
  (forall h hex, gatt_handle_map t !! h = Some hex ->
     from_a_receive_characteristic services h hex) ->
  scan_service t s = Ok t' ->
  forall h hex, gatt_handle_map t' !! h = Some hex ->
    from_a_receive_characteristic services h hex.
Proof.
  intros Hs Ht Hscan. unfold scan_service in Hscan.
  destruct (service_uuids (_get_byte_str_from_uuid (service_uuid s) 3 4)) as [name|] eqn:E;
    [|done].
  injection Hscan as <-.
  apply (foldl_invariant (fun t0 => forall h hex, gatt_handle_map t0 !! h = Some hex ->
           from_a_receive_characteristic services h hex)).
  { intros a b _ Ha. by rewrite store_handshake_handle_map. }
  destruct (String.eqb_spec name "ARCOMMAND_RECEIVING_SERVICE") as [->|_].
  { apply (foldl_invariant (fun t0 => forall h hex, gatt_handle_map t0 !! h = Some hex ->
           from_a_receive_characteristic services h hex)); [|done].
    intros a c Hc Ha h hex. unfold store_receive.
    destruct (characteristic_receive_uuids (_get_byte_str_from_uuid (char_uuid c) 4 4))
      as [r|] eqn:Er; [|by apply Ha].
    cbn. destruct (decide (char_handle c = h)) as [<-|Hne].
    - rewrite lookup_insert_eq. intros [= <-].
      exists s, c. repeat split; try done; by rewrite Er.
    - rewrite lookup_insert_ne by done. apply Ha. }
  destruct (String.eqb name "ARCOMMAND_SENDING_SERVICE").
  { apply (foldl_invariant (fun t0 => forall h hex, gatt_handle_map t0 !! h = Some hex ->
           from_a_receive_characteristic services h hex)); [|done].
    intros a c _ Ha. by rewrite store_send_handle_map. }
  destruct (String.eqb name "UPDATE_BLE_FTP").
  { apply (foldl_invariant (fun t0 => forall h hex, gatt_handle_map t0 !! h = Some hex ->
           from_a_receive_characteristic services h hex)); [|done].
    intros a c _ Ha. by rewrite store_ftp_handle_map. }
  destruct (String.eqb name "NORMAL_BLE_FTP_SERVICE"); [|done].
  apply (foldl_invariant (fun t0 => forall h hex, gatt_handle_map t0 !! h = Some hex ->
           from_a_receive_characteristic services h hex)); [|done].
  intros a c _ Ha. by rewrite store_ftp_handle_map.
Qed.

Lemma scan_services_handle_map
    (t t' : Tables) (services : list GattService) (h : Z) (hex : string) :
  gatt_handle_map t = ∅ ->
  scan_services t services = Ok t' ->
  gatt_handle_map t' !! h = Some hex ->
  from_a_receive_characteristic services h hex.
Proof.
  intros Hempty Hscan. revert h hex.
  apply (scan_services_invariant
           (fun t0 => forall h hex, gatt_handle_map t0 !! h = Some hex ->
                        from_a_receive_characteristic services h hex)
           services) with (t := t) (t' := t'); [| |exact Hscan].
  - intros t0 s t0' Hs Ht0 Hstep. by apply (scan_service_handle_map services t0 t0' s).
  - intros h hex. by rewrite Hempty, lookup_empty.
Qed.

(** What the discovery files in [handle_map], the map that the delegate is
    given: every entry is the handle of a characteristic of a receiving
    service, kept under the last byte of its uuid, and that byte is one of
    the four of [characteristic_receive_uuids]. *)
Theorem handle_map_holds_receive_characteristics
    (t t' : Tables) (services : list GattService) (h : Z) (hex : string) :
  gatt_handle_map t = ∅ ->
  scan_services t services = Ok t' ->
  gatt_handle_map t' !! h = Some hex ->
  from_a_receive_characteristic services h hex.
Proof. apply scan_services_handle_map. Qed.

Lemma handle_map_witness : from_a_receive_characteristic sample_gatt 188 "0e".
Proof.
  apply (handle_map_holds_receive_characteristics Tables_init sample_tables sample_gatt 188 "0e").
  - reflexivity.
  - vm_compute. reflexivity.
  - vm_compute. reflexivity.
Defined.

(** With the [handle_map] of a discovery the delegate has no unknown
    channel: a notification on a handle of the map runs one of the four
    actions, and one on any other handle raises KeyError at the lookup, so
    the last branch of [handleNotification] is not reached. *)
Theorem discovered_handles_are_dispatched
    (t t' : Tables) (services : list GattService) (cHandle : Z) (data : list byte)
    (st : Mambo) :
  gatt_handle_map t = ∅ ->
  scan_services t services = Ok t' ->
  handleNotification (gatt_handle_map t') cHandle data st
  = match gatt_handle_map t' !! cHandle with
    | None => (Raise KeyError, st)
    | Some hex =>
        if String.eqb hex "0e" then _update_sensors data true st
        else if String.eqb hex "0f" then _update_sensors data false st
        else if String.eqb hex "1b" then _set_command_received SEND_WITH_ACK true st
        else _set_command_received SEND_HIGH_PRIORITY true st
    end.
Proof.
  intros Hempty Hscan. unfold handleNotification.
  destruct (gatt_handle_map t' !! cHandle) as [hex|] eqn:E; [|done].
  destruct (scan_services_handle_map t t' services cHandle hex Hempty Hscan E)
    as (s & c & _ & _ & _ & _ & _ & [name Hname]).
  unfold characteristic_receive_uuids in Hname.
  unfold mbind, M_bind, lift. unfold characteristic_receive_uuids.
  destruct (String.eqb hex "0e"); [done|].
  destruct (String.eqb hex "0f"); [done|].
  destruct (String.eqb hex "1b"); [done|].
  destruct (String.eqb hex "1c"); [done|].
  done.
Qed.

Lemma discovered_handles_witness :
  let st := sample_connected [] [] in
  let data := [Byte.x04; Byte.x07; Byte.x00; Byte.x05; Byte.x01; Byte.x00; Byte.x2a] in
  handleNotification (gatt_handle_map sample_tables) 188 data st
  = match gatt_handle_map sample_tables !! 188 with
    | None => (Raise KeyError, st)
    | Some hex =>
        if String.eqb hex "0e" then _update_sensors data true st
        else if String.eqb hex "0f" then _update_sensors data false st
        else if String.eqb hex "1b" then _set_command_received SEND_WITH_ACK true st
        else _set_command_received SEND_HIGH_PRIORITY true st
    end.
Proof.
  apply (discovered_handles_are_dispatched Tables_init sample_tables sample_gatt).
  - reflexivity.
  - vm_compute. reflexivity.
Defined.

Lemma store_receive_handshake (t : Tables) (c : GattCharacteristic) :
  gatt_handshake (store_receive t c) = gatt_handshake t.
Proof. unfold store_receive. by destruct (characteristic_receive_uuids _). Qed.

Lemma store_send_handshake (t : Tables) (c : GattCharacteristic) :
  gatt_handshake (store_send t c) = gatt_handshake t.
Proof. unfold store_send. by destruct (characteristic_send_uuids _). Qed.

Lemma store_ftp_handshake (t : Tables) (c : GattCharacteristic) :
  gatt_handshake (store_ftp t c) = gatt_handshake t.
Proof. unfold store_ftp. by destruct (characteristic_ftp_uuids _). Qed.

Lemma foldl_same {A B C} (g : A -> C) (f : A -> B -> A) (l : list B) (a : A) :
  (forall a b, g (f a b) = g a) -> g (foldl f a l) = g a.
Proof.
  intros Hf. revert a. induction l as [|b l IH]; intros a; [done|].
  cbn. by rewrite IH.
Qed.

Lemma scan_service_handshake (services : list GattService) (t t' : Tables) (s : GattService) :
  s ∈ services ->
  (forall k c, gatt_handshake t !! k = Some c -> from_a_handshake_characteristic services k c) ->
  scan_service t s = Ok t' ->
  forall k c, gatt_handshake t' !! k = Some c -> from_a_handshake_characteristic services k c.
Proof.
  intros Hs Ht Hscan. unfold scan_service in Hscan.
  destruct (service_uuids (_get_byte_str_from_uuid (service_uuid s) 3 4)) as [name|] eqn:E;
    [|done].
  injection Hscan as <-.
  apply (foldl_invariant (fun t0 => forall k c, gatt_handshake t0 !! k = Some c ->
           from_a_handshake_characteristic services k c)).
  { intros a c Hc Ha k c'. unfold store_handshake.
    destruct (bool_decide_reflect
                (_get_byte_str_from_uuid (char_uuid c) 3 4 ∈ handshake_segments))
      as [Hin|_]; [|by apply Ha].
    cbn. destruct (decide (_get_byte_str_from_uuid (char_uuid c) 3 4 = k)) as [<-|Hne].
    - rewrite lookup_insert_eq. intros [= <-]. split; [done|]. split; [done|]. by exists s.
    - rewrite lookup_insert_ne by done. apply Ha. }
  intros k c.
  destruct (String.eqb name "ARCOMMAND_RECEIVING_SERVICE").
  { rewrite (foldl_same gatt_handshake); [apply Ht|apply store_receive_handshake]. }
  destruct (String.eqb name "ARCOMMAND_SENDING_SERVICE").
  { rewrite (foldl_same gatt_handshake); [apply Ht|apply store_send_handshake]. }
  destruct (String.eqb name "UPDATE_BLE_FTP").
  { rewrite (foldl_same gatt_handshake); [apply Ht|apply store_ftp_handshake]. }
  destruct (String.eqb name "NORMAL_BLE_FTP_SERVICE"); [|apply Ht].
  rewrite (foldl_same gatt_handshake); [apply Ht|apply store_ftp_handshake].
Qed.

(** The check [len(self.handshake_characteristics.keys()) != 10] counts
    keys, and yet it is passed only when each of the ten segments has its
    characteristic: the keys are among the ten segments, and each entry is
    a characteristic of the table whose uuid has that segment. *)
Theorem ten_handshake_entries_are_the_ten_segments
    (t t' : Tables) (services : list GattService) (segment : string) :
  gatt_handshake t = ∅ ->
  scan_services t services = Ok t' ->
  all_services_found t' = true ->
  segment ∈ handshake_segments ->
  exists c, gatt_handshake t' !! segment = Some c
            /\ from_a_handshake_characteristic services segment c.
Proof.
  intros Hempty Hscan Hall Hseg.
  assert (Hinv : forall k c, gatt_handshake t' !! k = Some c ->
                   from_a_handshake_characteristic services k c).
  { apply (scan_services_invariant
             (fun t0 => forall k c, gatt_handshake t0 !! k = Some c ->
                          from_a_handshake_characteristic services k c)
             services) with (t := t) (t' := t'); [| |exact Hscan].
    - intros t0 s t0' Hs Ht0 Hstep. by apply (scan_service_handshake services t0 t0' s).
    - intros k c. by rewrite Hempty, lookup_empty. }
  unfold all_services_found in Hall.
  apply andb_prop in Hall as [_ Hsize]. apply bool_decide_eq_true in Hsize.
  assert (Hsub : dom (gatt_handshake t') ⊆ (list_to_set handshake_segments : gset string)).
  { intros k Hk. apply elem_of_dom in Hk as [c Hc].
    apply elem_of_list_to_set. by destruct (Hinv k c Hc). }
  assert (Heq : dom (gatt_handshake t') = (list_to_set handshake_segments : gset string)).
  { apply set_subseteq_size_eq; [done|].
    rewrite size_dom, Hsize, size_list_to_set; [done|].
    apply (bool_decide_unpack _). vm_compute. exact I. }
  assert (Hin : segment ∈ dom (gatt_handshake t')).
  { rewrite Heq. by apply elem_of_list_to_set. }
  apply elem_of_dom in Hin as [c Hc]. exists c. split; [done|]. by apply Hinv.
Qed.

Lemma ten_handshake_entries_witness :
  exists c, gatt_handshake sample_tables !! "fd22"%string = Some c
            /\ from_a_handshake_characteristic sample_gatt "fd22" c.
Proof.
  apply (ten_handshake_entries_are_the_ten_segments Tables_init sample_tables sample_gatt "fd22").
  - reflexivity.
  - vm_compute. reflexivity.
  - vm_compute. reflexivity.
  - apply (bool_decide_unpack _). vm_compute. exact I.
Defined.
